(** * ATANCamera: the FOV ("ATAN") camera model of gcalibrator

    Shallow embedding of [src/ATANCamera.cpp] (class [ATANCamera], after
    PTAM's camera model) and proofs of the properties its specification
    states.

    Numeric model.  The C++ code computes in [float] and [double].  Here
    every floating-point quantity is a real number ([R]): rounding, overflow,
    infinities and NaN are not modelled, so an equation proved below is the
    exact-arithmetic content of the corresponding statement about the code.
    Every division the code performs goes through [fdiv] (or [vdiv], for a
    vector divided by a scalar), which also records the divisor in a ghost
    trace ([divisors]) kept in the state; the trace is read by no operation
    and only serves to state which divisions were evaluated, and on which
    divisors.

    State model.  The members of the class are the fields of a record,
    grouped as the data model groups them: parameter state, derived state,
    last-operation cache.  A member function is a function from the state
    before the call to the returned value and the state after it.  Storage
    the code allocates without initialising it (the object under
    construction, a fresh [cv::Mat_]) is an argument named [uninit].

    Left out: the configuration store, of which the constructor sees the
    vector it holds under the camera's name, if any.

    The file has three parts: the embedding, the properties the
    specification states, and further properties read off the code. *)

From Stdlib Require Import Reals Lra Lia List Bool Arith.
Import ListNotations.
Open Scope R_scope.

(** ** Small vectors and matrices (cv::Vec2f, cv::Vec<float,N>, cv::Mat_) *)

Definition Vec2 : Type := (R * R)%type.

(** [v[j]] for a [cv::Vec2f]; only indices 0 and 1 occur in the source. *)
Definition vget (v : Vec2) (j : nat) : R :=
  match j with O => fst v | _ => snd v end.

(** [v[j] = x]. *)
Definition vset (v : Vec2) (j : nat) (x : R) : Vec2 :=
  match j with O => (x, snd v) | _ => (fst v, x) end.

Notation "v .[ j ]" := (vget v j) (at level 1, left associativity, format "v .[ j ]").

Definition vadd (a b : Vec2) : Vec2 := (a.[0] + b.[0], a.[1] + b.[1]).
Definition vsub (a b : Vec2) : Vec2 := (a.[0] - b.[0], a.[1] - b.[1]).
Definition vscale (s : R) (a : Vec2) : Vec2 := (s * a.[0], s * a.[1]).

(** [cv::norm] of a 2-vector: the Euclidean norm. *)
Definition norm (a : Vec2) : R := sqrt (a.[0] * a.[0] + a.[1] * a.[1]).

(** Modelled from the spec: the macro [NUMTRACKERCAMPARAMETERS] is defined in
    ATANCamera.h, which is not among the sources; the spec's data model fixes
    the intrinsic parameter vector at 5 elements, and the constructor builds
    the default vector from five values. *)
Definition NUMTRACKERCAMPARAMETERS : nat := 5.

(** [cv::Vec<float, NUMTRACKERCAMPARAMETERS>]. *)
Record Vec5 : Type := mkVec5 { e0 : R; e1 : R; e2 : R; e3 : R; e4 : R }.

(** [v[i]]; the source only indexes below [NUMTRACKERCAMPARAMETERS]. *)
Definition get5 (v : Vec5) (i : nat) : R :=
  match i with
  | 0%nat => e0 v | 1%nat => e1 v | 2%nat => e2 v | 3%nat => e3 v
  | 4%nat => e4 v | _ => 0
  end.

(** [v[i] = x]. *)
Definition set5 (v : Vec5) (i : nat) (x : R) : Vec5 :=
  match i with
  | 0%nat => mkVec5 x (e1 v) (e2 v) (e3 v) (e4 v)
  | 1%nat => mkVec5 (e0 v) x (e2 v) (e3 v) (e4 v)
  | 2%nat => mkVec5 (e0 v) (e1 v) x (e3 v) (e4 v)
  | 3%nat => mkVec5 (e0 v) (e1 v) (e2 v) x (e4 v)
  | 4%nat => mkVec5 (e0 v) (e1 v) (e2 v) (e3 v) x
  | _ => v
  end.

Definition vadd5 (a b : Vec5) : Vec5 :=
  mkVec5 (e0 a + e0 b) (e1 a + e1 b) (e2 a + e2 b) (e3 a + e3 b)
         (e4 a + e4 b).

(** [cv::Vec<float,N>::all(x)]. *)
Definition all5 (x : R) : Vec5 := mkVec5 x x x x x.

(** A [cv::Mat_<float>], addressed as [m(row, col)]. *)
Definition Mat : Type := nat -> nat -> R.

Definition mset (m : Mat) (r k : nat) (x : R) : Mat :=
  fun r' k' => if ((r' =? r) && (k' =? k))%nat then x else m r' k'.

(** Comparisons of the source, as booleans. *)
Definition Rgtb (a b : R) : bool := if Rgt_dec a b then true else false.
Definition Reqb (a b : R) : bool := if Req_dec_T a b then true else false.

(** [a != b], with the branches in the order of the source's [if]. *)
Definition Rneq_dec (a b : R) : {a <> b} + {a = b} :=
  match Req_dec_T a b with
  | left e => right e
  | right n => left n
  end.

(** ** The class state *)

Set Primitive Projections.

(** Parameter state: the intrinsic parameter vector (the value behind the
    pointer [mpvvCameraParams]) and the target image size. *)
Record ParameterState : Type := mkParameterState {
  ps_mpvvCameraParams : Vec5;
  ps_mvImageSize : Vec2
}.

(** Derived state: the members [RefreshParams] computes. *)
Record DerivedState : Type := mkDerivedState {
  ds_mvFocal : Vec2;
  ds_mvCenter : Vec2;
  ds_mvInvFocal : Vec2;
  ds_mdW : R;
  ds_md2Tan : R;
  ds_mdOneOver2Tan : R;
  ds_mdWinv : R;
  ds_mdDistortionEnabled : R;
  ds_mdLargestRadius : R;
  ds_mdMaxR : R;
  ds_mdOnePixelDist : R;
  ds_mvImplaneTL : Vec2;
  ds_mvImplaneBR : Vec2;
  ds_mvUFBLinearInvFocal : Vec2;
  ds_mvUFBLinearFocal : Vec2;
  ds_mvUFBLinearCenter : Vec2
}.

(** Last-operation cache: the members the projections write. *)
Record LastOpCache : Type := mkLastOpCache {
  lo_mvLastCam : Vec2;
  lo_mvLastIm : Vec2;
  lo_mvLastDistCam : Vec2;
  lo_mdLastR : R;
  lo_mdLastDistR : R;
  lo_mdLastFactor : R;
  lo_mbInvalid : bool
}.

(** The class: its members in the three groups of the data model, and the
    ghost trace [divisors] (most recent divisor first).  [msName] only keys
    the configuration store and is left out. *)
Record ATANCamera : Type := mkATANCamera {
  parameter_state : ParameterState;
  derived_state : DerivedState;
  last_op : LastOpCache;
  divisors : list R
}.

Unset Primitive Projections.

(** The members, under the names the source gives them. *)
Definition mpvvCameraParams (c : ATANCamera) : Vec5 := ps_mpvvCameraParams (parameter_state c).
Definition mvImageSize (c : ATANCamera) : Vec2 := ps_mvImageSize (parameter_state c).
Definition mvFocal (c : ATANCamera) : Vec2 := ds_mvFocal (derived_state c).
Definition mvCenter (c : ATANCamera) : Vec2 := ds_mvCenter (derived_state c).
Definition mvInvFocal (c : ATANCamera) : Vec2 := ds_mvInvFocal (derived_state c).
Definition mdW (c : ATANCamera) : R := ds_mdW (derived_state c).
Definition md2Tan (c : ATANCamera) : R := ds_md2Tan (derived_state c).
Definition mdOneOver2Tan (c : ATANCamera) : R := ds_mdOneOver2Tan (derived_state c).
Definition mdWinv (c : ATANCamera) : R := ds_mdWinv (derived_state c).
Definition mdDistortionEnabled (c : ATANCamera) : R := ds_mdDistortionEnabled (derived_state c).
Definition mdLargestRadius (c : ATANCamera) : R := ds_mdLargestRadius (derived_state c).
Definition mdMaxR (c : ATANCamera) : R := ds_mdMaxR (derived_state c).
Definition mdOnePixelDist (c : ATANCamera) : R := ds_mdOnePixelDist (derived_state c).
Definition mvImplaneTL (c : ATANCamera) : Vec2 := ds_mvImplaneTL (derived_state c).
Definition mvImplaneBR (c : ATANCamera) : Vec2 := ds_mvImplaneBR (derived_state c).
Definition mvUFBLinearInvFocal (c : ATANCamera) : Vec2 := ds_mvUFBLinearInvFocal (derived_state c).
Definition mvUFBLinearFocal (c : ATANCamera) : Vec2 := ds_mvUFBLinearFocal (derived_state c).
Definition mvUFBLinearCenter (c : ATANCamera) : Vec2 := ds_mvUFBLinearCenter (derived_state c).
Definition mvLastCam (c : ATANCamera) : Vec2 := lo_mvLastCam (last_op c).
Definition mvLastIm (c : ATANCamera) : Vec2 := lo_mvLastIm (last_op c).
Definition mvLastDistCam (c : ATANCamera) : Vec2 := lo_mvLastDistCam (last_op c).
Definition mdLastR (c : ATANCamera) : R := lo_mdLastR (last_op c).
Definition mdLastDistR (c : ATANCamera) : R := lo_mdLastDistR (last_op c).
Definition mdLastFactor (c : ATANCamera) : R := lo_mdLastFactor (last_op c).
Definition mbInvalid (c : ATANCamera) : bool := lo_mbInvalid (last_op c).

(** Assignment to one member. *)
Definition ps_set_mpvvCameraParams (x : Vec5) (s : ParameterState) : ParameterState :=
  mkParameterState x (ps_mvImageSize s).
Definition ps_set_mvImageSize (x : Vec2) (s : ParameterState) : ParameterState :=
  mkParameterState (ps_mpvvCameraParams s) x.

Definition ds_set_mvFocal (x : Vec2) (s : DerivedState) : DerivedState :=
  mkDerivedState x (ds_mvCenter s) (ds_mvInvFocal s) (ds_mdW s) (ds_md2Tan s)
    (ds_mdOneOver2Tan s) (ds_mdWinv s) (ds_mdDistortionEnabled s)
    (ds_mdLargestRadius s) (ds_mdMaxR s) (ds_mdOnePixelDist s)
    (ds_mvImplaneTL s) (ds_mvImplaneBR s) (ds_mvUFBLinearInvFocal s)
    (ds_mvUFBLinearFocal s) (ds_mvUFBLinearCenter s).
Definition ds_set_mvCenter (x : Vec2) (s : DerivedState) : DerivedState :=
  mkDerivedState (ds_mvFocal s) x (ds_mvInvFocal s) (ds_mdW s) (ds_md2Tan s)
    (ds_mdOneOver2Tan s) (ds_mdWinv s) (ds_mdDistortionEnabled s)
    (ds_mdLargestRadius s) (ds_mdMaxR s) (ds_mdOnePixelDist s)
    (ds_mvImplaneTL s) (ds_mvImplaneBR s) (ds_mvUFBLinearInvFocal s)
    (ds_mvUFBLinearFocal s) (ds_mvUFBLinearCenter s).
Definition ds_set_mvInvFocal (x : Vec2) (s : DerivedState) : DerivedState :=
  mkDerivedState (ds_mvFocal s) (ds_mvCenter s) x (ds_mdW s) (ds_md2Tan s)
    (ds_mdOneOver2Tan s) (ds_mdWinv s) (ds_mdDistortionEnabled s)
    (ds_mdLargestRadius s) (ds_mdMaxR s) (ds_mdOnePixelDist s)
    (ds_mvImplaneTL s) (ds_mvImplaneBR s) (ds_mvUFBLinearInvFocal s)
    (ds_mvUFBLinearFocal s) (ds_mvUFBLinearCenter s).
Definition ds_set_mdW (x : R) (s : DerivedState) : DerivedState :=
  mkDerivedState (ds_mvFocal s) (ds_mvCenter s) (ds_mvInvFocal s) x
    (ds_md2Tan s) (ds_mdOneOver2Tan s) (ds_mdWinv s)
    (ds_mdDistortionEnabled s) (ds_mdLargestRadius s) (ds_mdMaxR s)
    (ds_mdOnePixelDist s) (ds_mvImplaneTL s) (ds_mvImplaneBR s)
    (ds_mvUFBLinearInvFocal s) (ds_mvUFBLinearFocal s)
    (ds_mvUFBLinearCenter s).
Definition ds_set_md2Tan (x : R) (s : DerivedState) : DerivedState :=
  mkDerivedState (ds_mvFocal s) (ds_mvCenter s) (ds_mvInvFocal s) (ds_mdW s) x
    (ds_mdOneOver2Tan s) (ds_mdWinv s) (ds_mdDistortionEnabled s)
    (ds_mdLargestRadius s) (ds_mdMaxR s) (ds_mdOnePixelDist s)
    (ds_mvImplaneTL s) (ds_mvImplaneBR s) (ds_mvUFBLinearInvFocal s)
    (ds_mvUFBLinearFocal s) (ds_mvUFBLinearCenter s).
Definition ds_set_mdOneOver2Tan (x : R) (s : DerivedState) : DerivedState :=
  mkDerivedState (ds_mvFocal s) (ds_mvCenter s) (ds_mvInvFocal s) (ds_mdW s)
    (ds_md2Tan s) x (ds_mdWinv s) (ds_mdDistortionEnabled s)
    (ds_mdLargestRadius s) (ds_mdMaxR s) (ds_mdOnePixelDist s)
    (ds_mvImplaneTL s) (ds_mvImplaneBR s) (ds_mvUFBLinearInvFocal s)
    (ds_mvUFBLinearFocal s) (ds_mvUFBLinearCenter s).
Definition ds_set_mdWinv (x : R) (s : DerivedState) : DerivedState :=
  mkDerivedState (ds_mvFocal s) (ds_mvCenter s) (ds_mvInvFocal s) (ds_mdW s)
    (ds_md2Tan s) (ds_mdOneOver2Tan s) x (ds_mdDistortionEnabled s)
    (ds_mdLargestRadius s) (ds_mdMaxR s) (ds_mdOnePixelDist s)
    (ds_mvImplaneTL s) (ds_mvImplaneBR s) (ds_mvUFBLinearInvFocal s)
    (ds_mvUFBLinearFocal s) (ds_mvUFBLinearCenter s).
Definition ds_set_mdDistortionEnabled (x : R) (s : DerivedState) : DerivedState :=
  mkDerivedState (ds_mvFocal s) (ds_mvCenter s) (ds_mvInvFocal s) (ds_mdW s)
    (ds_md2Tan s) (ds_mdOneOver2Tan s) (ds_mdWinv s) x (ds_mdLargestRadius s)
    (ds_mdMaxR s) (ds_mdOnePixelDist s) (ds_mvImplaneTL s) (ds_mvImplaneBR s)
    (ds_mvUFBLinearInvFocal s) (ds_mvUFBLinearFocal s)
    (ds_mvUFBLinearCenter s).
Definition ds_set_mdLargestRadius (x : R) (s : DerivedState) : DerivedState :=
  mkDerivedState (ds_mvFocal s) (ds_mvCenter s) (ds_mvInvFocal s) (ds_mdW s)
    (ds_md2Tan s) (ds_mdOneOver2Tan s) (ds_mdWinv s)
    (ds_mdDistortionEnabled s) x (ds_mdMaxR s) (ds_mdOnePixelDist s)
    (ds_mvImplaneTL s) (ds_mvImplaneBR s) (ds_mvUFBLinearInvFocal s)
    (ds_mvUFBLinearFocal s) (ds_mvUFBLinearCenter s).
Definition ds_set_mdMaxR (x : R) (s : DerivedState) : DerivedState :=
  mkDerivedState (ds_mvFocal s) (ds_mvCenter s) (ds_mvInvFocal s) (ds_mdW s)
    (ds_md2Tan s) (ds_mdOneOver2Tan s) (ds_mdWinv s)
    (ds_mdDistortionEnabled s) (ds_mdLargestRadius s) x (ds_mdOnePixelDist s)
    (ds_mvImplaneTL s) (ds_mvImplaneBR s) (ds_mvUFBLinearInvFocal s)
    (ds_mvUFBLinearFocal s) (ds_mvUFBLinearCenter s).
Definition ds_set_mdOnePixelDist (x : R) (s : DerivedState) : DerivedState :=
  mkDerivedState (ds_mvFocal s) (ds_mvCenter s) (ds_mvInvFocal s) (ds_mdW s)
    (ds_md2Tan s) (ds_mdOneOver2Tan s) (ds_mdWinv s)
    (ds_mdDistortionEnabled s) (ds_mdLargestRadius s) (ds_mdMaxR s) x
    (ds_mvImplaneTL s) (ds_mvImplaneBR s) (ds_mvUFBLinearInvFocal s)
    (ds_mvUFBLinearFocal s) (ds_mvUFBLinearCenter s).
Definition ds_set_mvImplaneTL (x : Vec2) (s : DerivedState) : DerivedState :=
  mkDerivedState (ds_mvFocal s) (ds_mvCenter s) (ds_mvInvFocal s) (ds_mdW s)
    (ds_md2Tan s) (ds_mdOneOver2Tan s) (ds_mdWinv s)
    (ds_mdDistortionEnabled s) (ds_mdLargestRadius s) (ds_mdMaxR s)
    (ds_mdOnePixelDist s) x (ds_mvImplaneBR s) (ds_mvUFBLinearInvFocal s)
    (ds_mvUFBLinearFocal s) (ds_mvUFBLinearCenter s).
Definition ds_set_mvImplaneBR (x : Vec2) (s : DerivedState) : DerivedState :=
  mkDerivedState (ds_mvFocal s) (ds_mvCenter s) (ds_mvInvFocal s) (ds_mdW s)
    (ds_md2Tan s) (ds_mdOneOver2Tan s) (ds_mdWinv s)
    (ds_mdDistortionEnabled s) (ds_mdLargestRadius s) (ds_mdMaxR s)
    (ds_mdOnePixelDist s) (ds_mvImplaneTL s) x (ds_mvUFBLinearInvFocal s)
    (ds_mvUFBLinearFocal s) (ds_mvUFBLinearCenter s).
Definition ds_set_mvUFBLinearInvFocal (x : Vec2) (s : DerivedState) : DerivedState :=
  mkDerivedState (ds_mvFocal s) (ds_mvCenter s) (ds_mvInvFocal s) (ds_mdW s)
    (ds_md2Tan s) (ds_mdOneOver2Tan s) (ds_mdWinv s)
    (ds_mdDistortionEnabled s) (ds_mdLargestRadius s) (ds_mdMaxR s)
    (ds_mdOnePixelDist s) (ds_mvImplaneTL s) (ds_mvImplaneBR s) x
    (ds_mvUFBLinearFocal s) (ds_mvUFBLinearCenter s).
Definition ds_set_mvUFBLinearFocal (x : Vec2) (s : DerivedState) : DerivedState :=
  mkDerivedState (ds_mvFocal s) (ds_mvCenter s) (ds_mvInvFocal s) (ds_mdW s)
    (ds_md2Tan s) (ds_mdOneOver2Tan s) (ds_mdWinv s)
    (ds_mdDistortionEnabled s) (ds_mdLargestRadius s) (ds_mdMaxR s)
    (ds_mdOnePixelDist s) (ds_mvImplaneTL s) (ds_mvImplaneBR s)
    (ds_mvUFBLinearInvFocal s) x (ds_mvUFBLinearCenter s).
Definition ds_set_mvUFBLinearCenter (x : Vec2) (s : DerivedState) : DerivedState :=
  mkDerivedState (ds_mvFocal s) (ds_mvCenter s) (ds_mvInvFocal s) (ds_mdW s)
    (ds_md2Tan s) (ds_mdOneOver2Tan s) (ds_mdWinv s)
    (ds_mdDistortionEnabled s) (ds_mdLargestRadius s) (ds_mdMaxR s)
    (ds_mdOnePixelDist s) (ds_mvImplaneTL s) (ds_mvImplaneBR s)
    (ds_mvUFBLinearInvFocal s) (ds_mvUFBLinearFocal s) x.

Definition lo_set_mvLastCam (x : Vec2) (s : LastOpCache) : LastOpCache :=
  mkLastOpCache x (lo_mvLastIm s) (lo_mvLastDistCam s) (lo_mdLastR s)
    (lo_mdLastDistR s) (lo_mdLastFactor s) (lo_mbInvalid s).
Definition lo_set_mvLastIm (x : Vec2) (s : LastOpCache) : LastOpCache :=
  mkLastOpCache (lo_mvLastCam s) x (lo_mvLastDistCam s) (lo_mdLastR s)
    (lo_mdLastDistR s) (lo_mdLastFactor s) (lo_mbInvalid s).
Definition lo_set_mvLastDistCam (x : Vec2) (s : LastOpCache) : LastOpCache :=
  mkLastOpCache (lo_mvLastCam s) (lo_mvLastIm s) x (lo_mdLastR s)
    (lo_mdLastDistR s) (lo_mdLastFactor s) (lo_mbInvalid s).
Definition lo_set_mdLastR (x : R) (s : LastOpCache) : LastOpCache :=
  mkLastOpCache (lo_mvLastCam s) (lo_mvLastIm s) (lo_mvLastDistCam s) x
    (lo_mdLastDistR s) (lo_mdLastFactor s) (lo_mbInvalid s).
Definition lo_set_mdLastDistR (x : R) (s : LastOpCache) : LastOpCache :=
  mkLastOpCache (lo_mvLastCam s) (lo_mvLastIm s) (lo_mvLastDistCam s)
    (lo_mdLastR s) x (lo_mdLastFactor s) (lo_mbInvalid s).
Definition lo_set_mdLastFactor (x : R) (s : LastOpCache) : LastOpCache :=
  mkLastOpCache (lo_mvLastCam s) (lo_mvLastIm s) (lo_mvLastDistCam s)
    (lo_mdLastR s) (lo_mdLastDistR s) x (lo_mbInvalid s).
Definition lo_set_mbInvalid (x : bool) (s : LastOpCache) : LastOpCache :=
  mkLastOpCache (lo_mvLastCam s) (lo_mvLastIm s) (lo_mvLastDistCam s)
    (lo_mdLastR s) (lo_mdLastDistR s) (lo_mdLastFactor s) x.

Definition set_mpvvCameraParams (x : Vec5) (c : ATANCamera) : ATANCamera :=
  mkATANCamera (ps_set_mpvvCameraParams x (parameter_state c))
    (derived_state c) (last_op c) (divisors c).
Definition set_mvImageSize (x : Vec2) (c : ATANCamera) : ATANCamera :=
  mkATANCamera (ps_set_mvImageSize x (parameter_state c)) (derived_state c)
    (last_op c) (divisors c).
Definition set_mvFocal (x : Vec2) (c : ATANCamera) : ATANCamera :=
  mkATANCamera (parameter_state c) (ds_set_mvFocal x (derived_state c))
    (last_op c) (divisors c).
Definition set_mvCenter (x : Vec2) (c : ATANCamera) : ATANCamera :=
  mkATANCamera (parameter_state c) (ds_set_mvCenter x (derived_state c))
    (last_op c) (divisors c).
Definition set_mvInvFocal (x : Vec2) (c : ATANCamera) : ATANCamera :=
  mkATANCamera (parameter_state c) (ds_set_mvInvFocal x (derived_state c))
    (last_op c) (divisors c).
Definition set_mdW (x : R) (c : ATANCamera) : ATANCamera :=
  mkATANCamera (parameter_state c) (ds_set_mdW x (derived_state c))
    (last_op c) (divisors c).
Definition set_md2Tan (x : R) (c : ATANCamera) : ATANCamera :=
  mkATANCamera (parameter_state c) (ds_set_md2Tan x (derived_state c))
    (last_op c) (divisors c).
Definition set_mdOneOver2Tan (x : R) (c : ATANCamera) : ATANCamera :=
  mkATANCamera (parameter_state c) (ds_set_mdOneOver2Tan x (derived_state c))
    (last_op c) (divisors c).
Definition set_mdWinv (x : R) (c : ATANCamera) : ATANCamera :=
  mkATANCamera (parameter_state c) (ds_set_mdWinv x (derived_state c))
    (last_op c) (divisors c).
Definition set_mdDistortionEnabled (x : R) (c : ATANCamera) : ATANCamera :=
  mkATANCamera (parameter_state c)
    (ds_set_mdDistortionEnabled x (derived_state c)) (last_op c) (divisors c).
Definition set_mdLargestRadius (x : R) (c : ATANCamera) : ATANCamera :=
  mkATANCamera (parameter_state c)
    (ds_set_mdLargestRadius x (derived_state c)) (last_op c) (divisors c).
Definition set_mdMaxR (x : R) (c : ATANCamera) : ATANCamera :=
  mkATANCamera (parameter_state c) (ds_set_mdMaxR x (derived_state c))
    (last_op c) (divisors c).
Definition set_mdOnePixelDist (x : R) (c : ATANCamera) : ATANCamera :=
  mkATANCamera (parameter_state c) (ds_set_mdOnePixelDist x (derived_state c))
    (last_op c) (divisors c).
Definition set_mvImplaneTL (x : Vec2) (c : ATANCamera) : ATANCamera :=
  mkATANCamera (parameter_state c) (ds_set_mvImplaneTL x (derived_state c))
    (last_op c) (divisors c).
Definition set_mvImplaneBR (x : Vec2) (c : ATANCamera) : ATANCamera :=
  mkATANCamera (parameter_state c) (ds_set_mvImplaneBR x (derived_state c))
    (last_op c) (divisors c).
Definition set_mvUFBLinearInvFocal (x : Vec2) (c : ATANCamera) : ATANCamera :=
  mkATANCamera (parameter_state c)
    (ds_set_mvUFBLinearInvFocal x (derived_state c)) (last_op c) (divisors c).
Definition set_mvUFBLinearFocal (x : Vec2) (c : ATANCamera) : ATANCamera :=
  mkATANCamera (parameter_state c)
    (ds_set_mvUFBLinearFocal x (derived_state c)) (last_op c) (divisors c).
Definition set_mvUFBLinearCenter (x : Vec2) (c : ATANCamera) : ATANCamera :=
  mkATANCamera (parameter_state c)
    (ds_set_mvUFBLinearCenter x (derived_state c)) (last_op c) (divisors c).
Definition set_mvLastCam (x : Vec2) (c : ATANCamera) : ATANCamera :=
  mkATANCamera (parameter_state c) (derived_state c)
    (lo_set_mvLastCam x (last_op c)) (divisors c).
Definition set_mvLastIm (x : Vec2) (c : ATANCamera) : ATANCamera :=
  mkATANCamera (parameter_state c) (derived_state c)
    (lo_set_mvLastIm x (last_op c)) (divisors c).
Definition set_mvLastDistCam (x : Vec2) (c : ATANCamera) : ATANCamera :=
  mkATANCamera (parameter_state c) (derived_state c)
    (lo_set_mvLastDistCam x (last_op c)) (divisors c).
Definition set_mdLastR (x : R) (c : ATANCamera) : ATANCamera :=
  mkATANCamera (parameter_state c) (derived_state c)
    (lo_set_mdLastR x (last_op c)) (divisors c).
Definition set_mdLastDistR (x : R) (c : ATANCamera) : ATANCamera :=
  mkATANCamera (parameter_state c) (derived_state c)
    (lo_set_mdLastDistR x (last_op c)) (divisors c).
Definition set_mdLastFactor (x : R) (c : ATANCamera) : ATANCamera :=
  mkATANCamera (parameter_state c) (derived_state c)
    (lo_set_mdLastFactor x (last_op c)) (divisors c).
Definition set_mbInvalid (x : bool) (c : ATANCamera) : ATANCamera :=
  mkATANCamera (parameter_state c) (derived_state c)
    (lo_set_mbInvalid x (last_op c)) (divisors c).
Definition set_divisors (x : list R) (c : ATANCamera) : ATANCamera :=
  mkATANCamera (parameter_state c) (derived_state c) (last_op c) x.

(** ** Arithmetic with a trace *)

(** [a / b]: the quotient, and the divisor recorded in the trace. *)
Definition fdiv (a b : R) (c : ATANCamera) : R * ATANCamera :=
  (a / b, set_divisors (b :: divisors c) c).

(** [v / s] for a [cv::Vec2f] and a scalar: one divisor, both components. *)
Definition vdiv (v : Vec2) (s : R) (c : ATANCamera) : Vec2 * ATANCamera :=
  ((v.[0] / s, v.[1] / s), set_divisors (s :: divisors c) c).

(** ** Distortion transform *)

(** Modelled from the spec: [rtrans_factor] is an inline member defined in
    ATANCamera.h, which is not among the sources.  Spec 4.2: the factor is 1
    if distortion is disabled ([w == 0]) or the radius is below 0.001, and
    otherwise [(1/(r*w)) * atan(2*r*tan(w/2))]. *)
Definition rtrans_factor (r : R) (c : ATANCamera) : R * ATANCamera :=
  if Req_dec_T (mdW c) 0 then (1, c)
  else if Rlt_dec r 0.001 then (1, c)
  else
    let '(q, c) := fdiv 1 (r * mdW c) c in
    let '(h, c) := fdiv (mdW c) 2 c in
    (q * atan (2 * r * tan h), c).

(** Modelled from the spec: [invrtrans] is an inline member defined in
    ATANCamera.h, which is not among the sources.  Spec 4.2: the undistorted
    radius of a distorted radius [rd] is [tan(rd*w) / (2*tan(w/2))] when
    distortion is enabled, and [rd] unchanged otherwise. *)
Definition invrtrans (rd : R) (c : ATANCamera) : R * ATANCamera :=
  if Req_dec_T (mdW c) 0 then (rd, c)
  else
    let '(h, c) := fdiv (mdW c) 2 c in
    fdiv (tan (rd * mdW c)) (2 * tan h) c.

(** ** Projection pipeline *)

(** [ATANCamera::Project]: normalized Euclidean plane to pixels. *)
Definition Project (vNormEuc : Vec2) (c : ATANCamera) : Vec2 * ATANCamera :=
  let c := set_mvLastCam vNormEuc c in
  let c := set_mdLastR (norm (mvLastCam c)) c in
  let c := set_mbInvalid (Rgtb (mdLastR c) (mdMaxR c)) c in
  let '(f, c) := rtrans_factor (mdLastR c) c in
  let c := set_mdLastFactor f c in
  let c := set_mdLastDistR (mdLastFactor c * mdLastR c) c in
  let c := set_mvLastDistCam (vscale (mdLastFactor c) (mvLastCam c)) c in
  let c := set_mvLastIm
             (vset (mvLastIm c) 0
                   ((mvCenter c).[0] + (mvFocal c).[0] * (mvLastDistCam c).[0]))
             c in
  let c := set_mvLastIm
             (vset (mvLastIm c) 1
                   ((mvCenter c).[1] + (mvFocal c).[1] * (mvLastDistCam c).[1]))
             c in
  (mvLastIm c, c).

(** The tail shared by [UnProject] and [UFBUnProject] (source lines 200-212
    and 381-389 are the same statements): undistort the radius, choose the
    recovery factor, cache and return the undistorted point. *)
Definition undistort_tail (c : ATANCamera) : Vec2 * ATANCamera :=
  let '(ru, c) := invrtrans (mdLastDistR c) c in
  let c := set_mdLastR ru c in
  let '(dFactor, c) :=
    if Rgt_dec (mdLastDistR c) 0.01
    then fdiv (mdLastR c) (mdLastDistR c) c
    else (1, c) in
  let '(f, c) := fdiv 1 dFactor c in
  let c := set_mdLastFactor f c in
  let c := set_mvLastCam (vscale dFactor (mvLastDistCam c)) c in
  (mvLastCam c, c).

(** [ATANCamera::UnProject]: pixels to the normalized Euclidean plane. *)
Definition UnProject (v2Im : Vec2) (c : ATANCamera) : Vec2 * ATANCamera :=
  let c := set_mvLastIm v2Im c in
  let c := set_mvLastDistCam
             (vset (mvLastDistCam c) 0
                   (((mvLastIm c).[0] - (mvCenter c).[0]) * (mvInvFocal c).[0]))
             c in
  let c := set_mvLastDistCam
             (vset (mvLastDistCam c) 1
                   (((mvLastIm c).[1] - (mvCenter c).[1]) * (mvInvFocal c).[1]))
             c in
  let c := set_mdLastDistR (norm (mvLastDistCam c)) c in
  undistort_tail c.

(** [ATANCamera::UFBProject]. *)
Definition UFBProject (vCam : Vec2) (c : ATANCamera) : Vec2 * ATANCamera :=
  let c := set_mvLastCam vCam c in
  let c := set_mdLastR (norm vCam) c in
  let c := set_mbInvalid (Rgtb (mdLastR c) (mdMaxR c)) c in
  let '(f, c) := rtrans_factor (mdLastR c) c in
  let c := set_mdLastFactor f c in
  let c := set_mdLastDistR (mdLastFactor c * mdLastR c) c in
  let c := set_mvLastDistCam (vscale (mdLastFactor c) (mvLastCam c)) c in
  let c := set_mvLastIm
             (vset (mvLastIm c) 0
                   (get5 (mpvvCameraParams c) 2
                    + get5 (mpvvCameraParams c) 0 * (mvLastDistCam c).[0]))
             c in
  let c := set_mvLastIm
             (vset (mvLastIm c) 1
                   (get5 (mpvvCameraParams c) 3
                    + get5 (mpvvCameraParams c) 1 * (mvLastDistCam c).[1]))
             c in
  (mvLastIm c, c).

(** [ATANCamera::UFBUnProject]. *)
Definition UFBUnProject (v2Im : Vec2) (c : ATANCamera) : Vec2 * ATANCamera :=
  let c := set_mvLastIm v2Im c in
  let '(x, c) := fdiv ((mvLastIm c).[0] - get5 (mpvvCameraParams c) 2)
                      (get5 (mpvvCameraParams c) 0) c in
  let c := set_mvLastDistCam (vset (mvLastDistCam c) 0 x) c in
  let '(y, c) := fdiv ((mvLastIm c).[1] - get5 (mpvvCameraParams c) 3)
                      (get5 (mpvvCameraParams c) 1) c in
  let c := set_mvLastDistCam (vset (mvLastDistCam c) 1 y) c in
  let c := set_mdLastDistR
             (sqrt ((mvLastDistCam c).[0] * (mvLastDistCam c).[0]
                    + (mvLastDistCam c).[1] * (mvLastDistCam c).[1])) c in
  undistort_tail c.

(** ** Parameter refresh *)

(** [RefreshParams], lines 71-81: pixel focal length, principal point and
    inverse focal length. *)
Definition RefreshParams_focal (c : ATANCamera) : ATANCamera :=
  let c := set_mvFocal
             (vset (mvFocal c) 0
                   ((mvImageSize c).[0] * get5 (mpvvCameraParams c) 0)) c in
  let c := set_mvFocal
             (vset (mvFocal c) 1
                   ((mvImageSize c).[1] * get5 (mpvvCameraParams c) 1)) c in
  let c := set_mvCenter
             (vset (mvCenter c) 0
                   ((mvImageSize c).[0] * get5 (mpvvCameraParams c) 2 - 0.5))
             c in
  let c := set_mvCenter
             (vset (mvCenter c) 1
                   ((mvImageSize c).[1] * get5 (mpvvCameraParams c) 3 - 0.5))
             c in
  let '(i0, c) := fdiv 1 (mvFocal c).[0] c in
  let c := set_mvInvFocal (vset (mvInvFocal c) 0 i0) c in
  let '(i1, c) := fdiv 1 (mvFocal c).[1] c in
  let c := set_mvInvFocal (vset (mvInvFocal c) 1 i1) c in
  c.

(** [RefreshParams], lines 84-102: the distortion helper scalars.  In the
    branch [mdW == 0] the member [mdOneOver2Tan] is not assigned. *)
Definition RefreshParams_distortion (c : ATANCamera) : ATANCamera :=
  let c := set_mdW (get5 (mpvvCameraParams c) 4) c in
  if Rneq_dec (mdW c) 0 then
    let '(h, c) := fdiv (mdW c) 2 c in
    let c := set_md2Tan (2 * tan h) c in
    let '(o, c) := fdiv 1 (md2Tan c) c in
    let c := set_mdOneOver2Tan o c in
    let '(wi, c) := fdiv 1 (mdW c) c in
    let c := set_mdWinv wi c in
    let c := set_mdDistortionEnabled 1 c in
    c
  else
    let c := set_mdWinv 0 c in
    let c := set_md2Tan 0 c in
    let c := set_mdDistortionEnabled 0 c in
    c.

(** [RefreshParams], lines 110-118: the largest radius in the image and the
    boundary of model validity. *)
Definition RefreshParams_maxradius (c : ATANCamera) : ATANCamera :=
  let '(v2x, c) :=
    fdiv (Rmax (get5 (mpvvCameraParams c) 2)
               (1 - get5 (mpvvCameraParams c) 2))
         (get5 (mpvvCameraParams c) 0) c in
  let '(v2y, c) :=
    fdiv (Rmax (get5 (mpvvCameraParams c) 3)
               (1 - get5 (mpvvCameraParams c) 3))
         (get5 (mpvvCameraParams c) 1) c in
  let v2 : Vec2 := (v2x, v2y) in
  let '(r, c) := invrtrans (norm v2) c in
  let c := set_mdLargestRadius r c in
  let c := set_mdMaxR (1.5 * mdLargestRadius c) c in
  c.

(** [RefreshParams], lines 126-131: world radius of one pixel. *)
Definition RefreshParams_onepixel (c : ATANCamera) : ATANCamera :=
  let '(v2Center, c) := UnProject (vscale 0.5 (mvImageSize c)) c in
  let '(v2RootTwoAway, c) :=
    UnProject (vadd (vscale 0.5 (mvImageSize c)) (1, 1)) c in
  let v2Diff := vsub v2Center v2RootTwoAway in
  let '(d, c) := fdiv (norm v2Diff) (sqrt 2) c in
  let c := set_mdOnePixelDist d c in
  c.

(** One pass of the body of the nested loops at lines 145-150. *)
Definition bbox_step (vv2Verts : list Vec2) (i j : nat) (mm : Vec2 * Vec2)
  : Vec2 * Vec2 :=
  let '(v2Min, v2Max) := mm in
  let vij := (nth i vv2Verts (0, 0)).[j] in
  let v2Min := if Rlt_dec vij v2Min.[j] then vset v2Min j vij else v2Min in
  let v2Max := if Rgt_dec vij v2Max.[j] then vset v2Max j vij else v2Max in
  (v2Min, v2Max).

(** The loops [for i < 4] and [for j < 2]. *)
Definition bbox_loop (vv2Verts : list Vec2) (mm : Vec2 * Vec2)
  : Vec2 * Vec2 :=
  fold_left
    (fun mm i => fold_left (fun mm j => bbox_step vv2Verts i j mm)
                           (seq 0 2) mm)
    (seq 0 4) mm.

(** [RefreshParams], lines 134-161: the bounding box of the image in the
    normalized plane and the linear projection that fills it. *)
Definition RefreshParams_UFB (c : ATANCamera) : ATANCamera :=
  let vv2Verts : list Vec2 := [] in
  let '(p, c) := UnProject (-0.5, -0.5) c in
  let vv2Verts := vv2Verts ++ [p] in
  let '(p, c) := UnProject ((mvImageSize c).[0] - 0.5, -0.5) c in
  let vv2Verts := vv2Verts ++ [p] in
  let '(p, c) :=
    UnProject ((mvImageSize c).[0] - 0.5, (mvImageSize c).[1] - 0.5) c in
  let vv2Verts := vv2Verts ++ [p] in
  let '(p, c) := UnProject (-0.5, (mvImageSize c).[1] - 0.5) c in
  let vv2Verts := vv2Verts ++ [p] in
  let v2Min := nth 0 vv2Verts (0, 0) in
  let v2Max := nth 0 vv2Verts (0, 0) in
  let '(v2Min, v2Max) := bbox_loop vv2Verts (v2Min, v2Max) in
  let c := set_mvImplaneTL v2Min c in
  let c := set_mvImplaneBR v2Max c in
  let v2Range := vsub v2Max v2Min in
  let c := set_mvUFBLinearInvFocal v2Range c in
  let '(f0, c) := fdiv 1 (mvUFBLinearInvFocal c).[0] c in
  let c := set_mvUFBLinearFocal (vset (mvUFBLinearFocal c) 0 f0) c in
  let '(f1, c) := fdiv 1 (mvUFBLinearInvFocal c).[1] c in
  let c := set_mvUFBLinearFocal (vset (mvUFBLinearFocal c) 1 f1) c in
  let c := set_mvUFBLinearCenter
             (vset (mvUFBLinearCenter c) 0
                   (-1 * v2Min.[0] * (mvUFBLinearFocal c).[0])) c in
  let c := set_mvUFBLinearCenter
             (vset (mvUFBLinearCenter c) 1
                   (-1 * v2Min.[1] * (mvUFBLinearFocal c).[1])) c in
  c.

(** [ATANCamera::RefreshParams]: the five blocks in source order. *)
Definition RefreshParams (c : ATANCamera) : ATANCamera :=
  let c := RefreshParams_focal c in
  let c := RefreshParams_distortion c in
  let c := RefreshParams_maxradius c in
  let c := RefreshParams_onepixel c in
  let c := RefreshParams_UFB c in
  c.

(** ** Mutators of the parameter state *)

(** [ATANCamera::UpdateParams]. *)
Definition UpdateParams (vUpdate : Vec5) (c : ATANCamera) : ATANCamera :=
  let c := set_mpvvCameraParams (vadd5 (mpvvCameraParams c) vUpdate) c in
  RefreshParams c.

(** [ATANCamera::DisableRadialDistortion]. *)
Definition DisableRadialDistortion (c : ATANCamera) : ATANCamera :=
  let c := set_mpvvCameraParams
             (set5 (mpvvCameraParams c) (NUMTRACKERCAMPARAMETERS - 1) 0) c in
  RefreshParams c.

(** [ATANCamera::SetImageSize(const cv::Vec2f &)]. *)
Definition SetImageSize (vImageSize : Vec2) (c : ATANCamera) : ATANCamera :=
  let c := set_mvImageSize vImageSize c in
  RefreshParams c.

(** [ATANCamera::SetImageSize(const cv::Size2i &)]. *)
Definition SetImageSize_i (imSize : Z * Z) (c : ATANCamera) : ATANCamera :=
  SetImageSize (IZR (fst imSize), IZR (snd imSize)) c.

(** The default parameters assigned to [mvDefaultParams] by the constructor
    (lines 31-35). *)
Definition mvDefaultParams : Vec5 := mkVec5 0.5 (4.0 / 5.0) 0.5 0.5 0.07.

(** [ATANCamera::ATANCamera].  [uninit] is the object before construction
    (members not yet assigned); [stored] is what the configuration store
    holds under the camera's name, the defaults standing in when it holds
    nothing. *)
Definition ATANCamera_new (uninit : ATANCamera) (stored : option Vec5)
    (imgsize : Z * Z) : ATANCamera :=
  let c := set_mpvvCameraParams
             (match stored with Some v => v | None => mvDefaultParams end)
             uninit in
  let c := set_mvImageSize (vset (mvImageSize c) 0 (IZR (fst imgsize))) c in
  let c := set_mvImageSize (vset (mvImageSize c) 1 (IZR (snd imgsize))) c in
  RefreshParams c.

(** ** Derivative engine *)

(** [ATANCamera::GetProjectionDerivs].  [uninit] is the content of the
    freshly allocated 2x2 matrix. *)
Definition GetProjectionDerivs (uninit : Mat) (c : ATANCamera)
  : Mat * ATANCamera :=
  let k := md2Tan c in
  let x := (mvLastCam c).[0] in
  let y := (mvLastCam c).[1] in
  let ru := mdLastR c * mdDistortionEnabled c in
  let '(dFracBydx, dFracBydy, c) :=
    if Rlt_dec ru 0.01 then (0, 0, c)
    else
      let '(a, c) := fdiv (mdWinv c * k) (1 + k * k * ru * ru) c in
      let '(dx, c) := fdiv ((a - mdLastFactor c) * x) (ru * ru) c in
      let '(b, c) := fdiv (mdWinv c * k) (1 + k * k * ru * ru) c in
      let '(dy, c) := fdiv ((b - mdLastFactor c) * y) (ru * ru) c in
      (dx, dy, c) in
  let m2Derivs := uninit in
  let m2Derivs :=
    mset m2Derivs 0 0 ((mvFocal c).[0] * (dFracBydx * x + mdLastFactor c)) in
  let m2Derivs := mset m2Derivs 1 0 ((mvFocal c).[1] * (dFracBydx * y)) in
  let m2Derivs := mset m2Derivs 0 1 ((mvFocal c).[0] * (dFracBydy * x)) in
  let m2Derivs :=
    mset m2Derivs 1 1 ((mvFocal c).[1] * (dFracBydy * y + mdLastFactor c)) in
  (m2Derivs, c).

(** The body of the loop of [GetCameraParameterDerivs] (lines 305-326) for
    index [i]; [continue] leaves matrix and state as they are. *)
Definition GetCameraParameterDerivs_body (vNNormal : Vec5)
    (v2Cam v2Out : Vec2) (i : nat) (mc : Mat * ATANCamera)
  : Mat * ATANCamera :=
  let '(m2NNumDerivs, c) := mc in
  if ((i =? NUMTRACKERCAMPARAMETERS - 1)%nat && Reqb (mdW c) 0)%bool
  then (m2NNumDerivs, c)
  else
    let vNUpdate := all5 0 in
    let vNUpdate := set5 vNUpdate i (get5 vNUpdate i + 0.001) in
    let c := UpdateParams vNUpdate c in
    let '(v2Out_B, c) := Project v2Cam c in
    let '(DparamsByDpi, c) := vdiv (vsub v2Out_B v2Out) 0.001 c in
    let m2NNumDerivs := mset m2NNumDerivs 0 i DparamsByDpi.[0] in
    let m2NNumDerivs := mset m2NNumDerivs 1 i DparamsByDpi.[1] in
    let c := set_mpvvCameraParams vNNormal c in
    let c := RefreshParams c in
    (m2NNumDerivs, c).

(** [ATANCamera::GetCameraParameterDerivs].  [uninit] is the content of the
    freshly allocated 2xN matrix. *)
Definition GetCameraParameterDerivs (uninit : Mat) (c : ATANCamera)
  : Mat * ATANCamera :=
  let m2NNumDerivs := uninit in
  let vNNormal := mpvvCameraParams c in
  let v2Cam := mvLastCam c in
  let '(v2Out, c) := Project v2Cam c in
  let '(m2NNumDerivs, c) :=
    fold_left
      (fun mc i => GetCameraParameterDerivs_body vNNormal v2Cam v2Out i mc)
      (seq 0 NUMTRACKERCAMPARAMETERS) (m2NNumDerivs, c) in
  let m2NNumDerivs :=
    if Req_dec_T (mdW c) 0 then
      let m := mset m2NNumDerivs 0 (NUMTRACKERCAMPARAMETERS - 1) 0 in
      mset m 1 (NUMTRACKERCAMPARAMETERS - 1) 0
    else m2NNumDerivs in
  (m2NNumDerivs, c).

(** ** OpenGL frustum *)

(** [cv::Mat_<float>::zeros]. *)
Definition mzeros : Mat := fun _ _ => 0.

(** [ATANCamera::MakeUFBLinearFrustumMatrix] (lines 220-245). *)
Definition MakeUFBLinearFrustumMatrix (near far : R) (c : ATANCamera)
  : Mat * ATANCamera :=
  let m4 := mzeros in
  let left := (mvImplaneTL c).[0] * near in
  let right := (mvImplaneBR c).[0] * near in
  let top := (mvImplaneTL c).[1] * near in
  let bottom := (mvImplaneBR c).[1] * near in
  let '(x, c) := fdiv (2 * near) (right - left) c in
  let m4 := mset m4 0 0 x in
  let '(x, c) := fdiv (2 * near) (top - bottom) c in
  let m4 := mset m4 1 1 x in
  let '(x, c) := fdiv (right + left) (left - right) c in
  let m4 := mset m4 0 2 x in
  let '(x, c) := fdiv (top + bottom) (bottom - top) c in
  let m4 := mset m4 1 2 x in
  let '(x, c) := fdiv (far + near) (far - near) c in
  let m4 := mset m4 2 2 x in
  let m4 := mset m4 3 2 1 in
  let '(x, c) := fdiv (2 * near * far) (near - far) c in
  let m4 := mset m4 2 3 x in
  (m4, c).

(** * Auxiliary definitions

    Closed forms of the operations, the reachable states, and the notions
    the statements below use.  Each closed form is proved equal to the
    operation it describes before it is used. *)

(** ** Closed forms *)

(** The value of [rtrans_factor]; it depends on the state through [mdW]
    only (lemma [rtrans_factor_spec]). *)
Definition factor_of (w r : R) : R :=
  if Req_dec_T w 0 then 1
  else if Rlt_dec r 0.001 then 1
  else 1 / (r * w) * atan (2 * r * tan (w / 2)).

(** The divisors [rtrans_factor] adds to the trace, most recent first. *)
Definition factor_divs (w r : R) : list R :=
  if Req_dec_T w 0 then []
  else if Rlt_dec r 0.001 then []
  else [2; r * w].

(** The value of [invrtrans] (lemma [invrtrans_spec]). *)
Definition undist_of (w rd : R) : R :=
  if Req_dec_T w 0 then rd else tan (rd * w) / (2 * tan (w / 2)).

(** The divisors [invrtrans] adds to the trace, most recent first. *)
Definition undist_divs (w : R) : list R :=
  if Req_dec_T w 0 then [] else [2 * tan (w / 2); 2].

(** The pixel of a distorted point (lines 180-181 and 367-368). *)
Definition pixel_of (vCenter vFocal d : Vec2) : Vec2 :=
  (vCenter.[0] + vFocal.[0] * d.[0], vCenter.[1] + vFocal.[1] * d.[1]).

(** The recovery factor [dFactor] of [UnProject] and [UFBUnProject]. *)
Definition recovery_factor (w rd : R) : R :=
  if Rgt_dec rd 0.01 then undist_of w rd / rd else 1.

(** The divisors of the two divisions that follow [invrtrans] there. *)
Definition recovery_divs (w rd : R) : list R :=
  recovery_factor w rd :: (if Rgt_dec rd 0.01 then [rd] else []).

(** The distorted point of a pixel (lines 193-194). *)
Definition distorted_of (vCenter vInvFocal q : Vec2) : Vec2 :=
  ((q.[0] - vCenter.[0]) * vInvFocal.[0],
   (q.[1] - vCenter.[1]) * vInvFocal.[1]).

(** The distorted point of a point of the UFB plane (lines 378-379). *)
Definition UFBdistorted_of (P : Vec5) (q : Vec2) : Vec2 :=
  ((q.[0] - get5 P 2) / get5 P 0, (q.[1] - get5 P 3) / get5 P 1).

(** What [RefreshParams] makes of [mvFocal], [mvCenter] and [mvInvFocal]
    (lines 71-81). *)
Definition focal_of (s : ParameterState) : Vec2 :=
  ((ps_mvImageSize s).[0] * get5 (ps_mpvvCameraParams s) 0,
   (ps_mvImageSize s).[1] * get5 (ps_mpvvCameraParams s) 1).

Definition center_of (s : ParameterState) : Vec2 :=
  ((ps_mvImageSize s).[0] * get5 (ps_mpvvCameraParams s) 2 - 0.5,
   (ps_mvImageSize s).[1] * get5 (ps_mpvvCameraParams s) 3 - 0.5).

Definition invfocal_of (s : ParameterState) : Vec2 :=
  (1 / (focal_of s).[0], 1 / (focal_of s).[1]).

(** The farthest image corner in image-fraction space (line 110). *)
Definition farthest_corner (P : Vec5) : Vec2 :=
  (Rmax (get5 P 2) (1 - get5 P 2) / get5 P 0,
   Rmax (get5 P 3) (1 - get5 P 3) / get5 P 1).

(** The pixel of a normalized point under a parameter state: what [Project]
    returns once the derived state has been refreshed from it. *)
Definition project_with (s : ParameterState) (p : Vec2) : Vec2 :=
  pixel_of (center_of s) (focal_of s)
    (vscale (factor_of (get5 (ps_mpvvCameraParams s) 4) (norm p)) p).

(** ** The finite differences of [GetCameraParameterDerivs] *)

(** The update vector of iteration [i], as the loop body builds it. *)
Definition perturbation (i : nat) : Vec5 :=
  set5 (all5 0) i (get5 (all5 0) i + 0.001).

(** A parameter vector with component [i] perturbed by 0.001. *)
Definition perturbed (P : Vec5) (i : nat) : Vec5 :=
  set5 P i (get5 P i + 0.001).

(** The finite difference the loop stores in column [i]. *)
Definition finite_difference (s : ParameterState) (p v2Out : Vec2) (i : nat)
  : Vec2 :=
  let s' := ps_set_mpvvCameraParams (perturbed (ps_mpvvCameraParams s) i) s in
  let d := vsub (project_with s' p) v2Out in
  (d.[0] / 0.001, d.[1] / 0.001).

(** Column [i] of the matrix assigned from a 2-vector. *)
Definition set_column (m : Mat) (i : nat) (d : Vec2) : Mat :=
  mset (mset m 0 i d.[0]) 1 i d.[1].

(** ** Objects and their states *)

(** An object whose members are all zero, to evaluate the operations on. *)
Definition zero_object : ATANCamera :=
  mkATANCamera
    (mkParameterState (all5 0) (0, 0))
    (mkDerivedState (0, 0) (0, 0) (0, 0) 0 0 0 0 0 0 0 0 (0, 0) (0, 0) (0, 0)
                    (0, 0) (0, 0))
    (mkLastOpCache (0, 0) (0, 0) (0, 0) 0 0 0 false)
    [].

(** The state in which [Project] is called on the perturbed parameters in
    iteration [i]: component [i] of the parameter vector raised by 0.001,
    and the derived state refreshed. *)
Definition with_perturbed_parameter (i : nat) (c : ATANCamera) : ATANCamera :=
  RefreshParams
    (set_mpvvCameraParams (perturbed (mpvvCameraParams c) i) c).

(** The public operations that change the object. *)
Inductive Operation : Type :=
| OpSetImageSize (vImageSize : Vec2)
| OpSetImageSize_i (imSize : Z * Z)
| OpProject (vNormEuc : Vec2)
| OpUnProject (v2Im : Vec2)
| OpUFBProject (vCam : Vec2)
| OpUFBUnProject (v2Im : Vec2)
| OpGetProjectionDerivs (uninit : Mat)
| OpGetCameraParameterDerivs (uninit : Mat)
| OpUpdateParams (vUpdate : Vec5)
| OpDisableRadialDistortion.

(** The state an operation leaves. *)
Definition state_after (o : Operation) (c : ATANCamera) : ATANCamera :=
  match o with
  | OpSetImageSize v => SetImageSize v c
  | OpSetImageSize_i sz => SetImageSize_i sz c
  | OpProject p => snd (Project p c)
  | OpUnProject q => snd (UnProject q c)
  | OpUFBProject p => snd (UFBProject p c)
  | OpUFBUnProject q => snd (UFBUnProject q c)
  | OpGetProjectionDerivs u => snd (GetProjectionDerivs u c)
  | OpGetCameraParameterDerivs u => snd (GetCameraParameterDerivs u c)
  | OpUpdateParams v => UpdateParams v c
  | OpDisableRadialDistortion => DisableRadialDistortion c
  end.

(** The states of a constructed object. *)
Inductive reachable : ATANCamera -> Prop :=
| reachable_new (uninit : ATANCamera) (stored : option Vec5)
    (imgsize : Z * Z) :
    reachable (ATANCamera_new uninit stored imgsize)
| reachable_step (o : Operation) (c : ATANCamera) :
    reachable c -> reachable (state_after o c).

(** The derived state is the one a refresh computes from the parameter
    state. *)
Definition refreshed (c : ATANCamera) : Prop :=
  exists c0,
    parameter_state c0 = parameter_state c
    /\ derived_state c = derived_state (RefreshParams c0).

(** A camera without distortion, to evaluate the operations on: the default
    parameters with the distortion parameter at 0, a 640x480 image, and the
    point (1, 0) projected last. *)
Definition undistorted_camera : ATANCamera :=
  state_after (OpProject (1, 0))
    (ATANCamera_new zero_object (Some (mkVec5 0.5 0.8 0.5 0.5 0))
       (640, 480)%Z).

(** The pixel [RefreshParams] unprojects last (line 141). *)
Definition last_refresh_pixel (c : ATANCamera) : Vec2 :=
  (-0.5, (mvImageSize c).[1] - 0.5).

(** The cache of [c] is the one [UnProject] leaves for the corner pixel
    (-0.5, height - 0.5), and [GetProjectionDerivs] is evaluated on it. *)
Definition cache_holds_corner (c : ATANCamera) : Prop :=
  let corner := (-0.5, (mvImageSize c).[1] - 0.5) in
  mvLastIm c = corner
  /\ mvLastCam c = fst (UnProject corner c)
  /\ last_op c = last_op (snd (UnProject corner c))
  /\ forall u,
       fst (GetProjectionDerivs u c)
       = fst (GetProjectionDerivs u (snd (UnProject corner c))).

(** No division by zero between two states: the divisors added to the trace
    are all nonzero. *)
Definition no_division_by_zero (c c' : ATANCamera) : Prop :=
  exists l, divisors c' = l ++ divisors c /\ Forall (fun d => d <> 0) l.

(** ** Closed form of a refresh *)

(** The normalized point of a pixel under a parameter state: what
    [UnProject] returns once the derived state has been refreshed from it
    (lemma [refreshed_UnProject]). *)
Definition unproject_with (s : ParameterState) (q : Vec2) : Vec2 :=
  let dc := distorted_of (center_of s) (invfocal_of s) q in
  vscale (recovery_factor (get5 (ps_mpvvCameraParams s) 4) (norm dc)) dc.

(** The four pixels [RefreshParams] unprojects at lines 137-141, in the
    order of the source. *)
Definition corner_pixels (sz : Vec2) : list Vec2 :=
  [(-0.5, -0.5); (sz.[0] - 0.5, -0.5); (sz.[0] - 0.5, sz.[1] - 0.5);
   (-0.5, sz.[1] - 0.5)].

(** The content of [vv2Verts] at line 142. *)
Definition image_corners (s : ParameterState) : list Vec2 :=
  map (unproject_with s) (corner_pixels (ps_mvImageSize s)).

(** [v2Min] and [v2Max] after the loops of lines 142-150. *)
Definition bounding_box (vs : list Vec2) : Vec2 * Vec2 :=
  bbox_loop vs (nth 0 vs (0, 0), nth 0 vs (0, 0)).

(** What [RefreshParams] makes of [mdOnePixelDist] (lines 126-131). *)
Definition one_pixel_of (s : ParameterState) : R :=
  let h := vscale 0.5 (ps_mvImageSize s) in
  norm (vsub (unproject_with s h) (unproject_with s (vadd h (1, 1))))
  / sqrt 2.

(** The derived state after a refresh, from the parameter state and the
    value [mdOneOver2Tan] had before (lemma [RefreshParams_derived_of]). *)
Definition derived_of (s : ParameterState) (old : R) : DerivedState :=
  let w := get5 (ps_mpvvCameraParams s) 4 in
  let L := undist_of w (norm (farthest_corner (ps_mpvvCameraParams s))) in
  let bb := bounding_box (image_corners s) in
  let range := vsub (snd bb) (fst bb) in
  let f := (1 / range.[0], 1 / range.[1]) in
  mkDerivedState (focal_of s) (center_of s) (invfocal_of s) w
    (if Rneq_dec w 0 then 2 * tan (w / 2) else 0)
    (if Rneq_dec w 0 then 1 / (2 * tan (w / 2)) else old)
    (if Rneq_dec w 0 then 1 / w else 0)
    (if Rneq_dec w 0 then 1 else 0)
    L (1.5 * L) (one_pixel_of s) (fst bb) (snd bb) range f
    (-1 * (fst bb).[0] * f.[0], -1 * (fst bb).[1] * f.[1]).

(** The members [UnProject] reads are the ones a refresh computes from
    [s]. *)
Definition reads_refreshed (s : ParameterState) (c : ATANCamera) : Prop :=
  parameter_state c = s
  /\ mvCenter c = center_of s
  /\ mvInvFocal c = invfocal_of s
  /\ mdW c = get5 (ps_mpvvCameraParams s) 4.

(** The least and the greatest of four numbers, as the loops of lines
    145-150 accumulate them. *)
Definition min4 (a b c d : R) : R := Rmin (Rmin (Rmin a b) c) d.
Definition max4 (a b c d : R) : R := Rmax (Rmax (Rmax a b) c) d.

(** ** The UFB plane *)

(** The point of the normalized plane of a point of the UFB plane under a
    parameter vector: what [UFBUnProject] returns once [mdW] is
    refreshed. *)
Definition UFBunproject_with (P : Vec5) (u : Vec2) : Vec2 :=
  let dc := UFBdistorted_of P u in
  vscale (recovery_factor (get5 P 4) (norm dc)) dc.

(** The pixel of a point of the UFB plane: the image size scales the unit
    square, and the offset 0.5 of lines 73 and 77 is taken off. *)
Definition pixel_of_UFB (sz u : Vec2) : Vec2 :=
  (sz.[0] * u.[0] - 0.5, sz.[1] * u.[1] - 0.5).

(** The corners of the unit square, in the order of [corner_pixels]. *)
Definition unit_square_corners : list Vec2 := [(0, 0); (1, 0); (1, 1); (0, 1)].

(** The product of a 4x4 matrix and the homogeneous point (x, y, z, 1). *)
Definition mat4_apply (m : Mat) (x y z : R) (i : nat) : R :=
  m i 0%nat * x + m i 1%nat * y + m i 2%nat * z + m i 3%nat * 1.

(** ** The distortion factor as a function *)

(** The factor in the branch of [rtrans_factor] that computes it. *)
Definition atan_factor (w r : R) : R :=
  1 / (r * w) * atan (2 * r * tan (w / 2)).

(** ** A camera with distortion *)

(** The default camera on a 640x480 image, built on a zeroed object. *)
Definition default_camera : ATANCamera :=
  ATANCamera_new zero_object None (640, 480)%Z.

(** * Reasoning about the embedding *)

(** Reading a member back after a chain of assignments: members and
    assignments are unfolded to the record constructors, and projections of
    constructors are reduced. *)
Declare Reduction cam_members :=
  cbv beta iota zeta delta
      [
       parameter_state derived_state last_op divisors ps_mpvvCameraParams
       mpvvCameraParams ps_set_mpvvCameraParams set_mpvvCameraParams
       ps_mvImageSize mvImageSize ps_set_mvImageSize set_mvImageSize
       ds_mvFocal mvFocal ds_set_mvFocal set_mvFocal ds_mvCenter mvCenter
       ds_set_mvCenter set_mvCenter ds_mvInvFocal mvInvFocal
       ds_set_mvInvFocal set_mvInvFocal ds_mdW mdW ds_set_mdW set_mdW
       ds_md2Tan md2Tan ds_set_md2Tan set_md2Tan ds_mdOneOver2Tan
       mdOneOver2Tan ds_set_mdOneOver2Tan set_mdOneOver2Tan ds_mdWinv
       mdWinv ds_set_mdWinv set_mdWinv ds_mdDistortionEnabled
       mdDistortionEnabled ds_set_mdDistortionEnabled
       set_mdDistortionEnabled ds_mdLargestRadius mdLargestRadius
       ds_set_mdLargestRadius set_mdLargestRadius ds_mdMaxR mdMaxR
       ds_set_mdMaxR set_mdMaxR ds_mdOnePixelDist mdOnePixelDist
       ds_set_mdOnePixelDist set_mdOnePixelDist ds_mvImplaneTL mvImplaneTL
       ds_set_mvImplaneTL set_mvImplaneTL ds_mvImplaneBR mvImplaneBR
       ds_set_mvImplaneBR set_mvImplaneBR ds_mvUFBLinearInvFocal
       mvUFBLinearInvFocal ds_set_mvUFBLinearInvFocal
       set_mvUFBLinearInvFocal ds_mvUFBLinearFocal mvUFBLinearFocal
       ds_set_mvUFBLinearFocal set_mvUFBLinearFocal ds_mvUFBLinearCenter
       mvUFBLinearCenter ds_set_mvUFBLinearCenter set_mvUFBLinearCenter
       lo_mvLastCam mvLastCam lo_set_mvLastCam set_mvLastCam lo_mvLastIm
       mvLastIm lo_set_mvLastIm set_mvLastIm lo_mvLastDistCam mvLastDistCam
       lo_set_mvLastDistCam set_mvLastDistCam lo_mdLastR mdLastR
       lo_set_mdLastR set_mdLastR lo_mdLastDistR mdLastDistR
       lo_set_mdLastDistR set_mdLastDistR lo_mdLastFactor mdLastFactor
       lo_set_mdLastFactor set_mdLastFactor lo_mbInvalid mbInvalid
       lo_set_mbInvalid set_mbInvalid set_divisors fdiv vdiv vget vset app].

Ltac cam_red :=
  match goal with
  | |- ?G => let G' := eval cam_members in G in change G'
  end;
  cbn [fst snd].

Tactic Notation "cam_red" "in" hyp(H) :=
  let T := type of H in
  let T' := eval cam_members in T in
  change T' in H;
  cbn [fst snd] in H.

(** ** Closed forms of the distortion transform

    The value and the divisors of [rtrans_factor] and [invrtrans] depend on
    the state through [mdW] only. *)

Lemma rtrans_factor_spec (r : R) (c : ATANCamera) :
  rtrans_factor r c =
  (factor_of (mdW c) r,
   set_divisors (factor_divs (mdW c) r ++ divisors c) c).
Proof.
  unfold rtrans_factor, factor_of, factor_divs.
  destruct c; cam_red.
  destruct (Req_dec_T _ 0); [reflexivity|].
  destruct (Rlt_dec r _); reflexivity.
Qed.

Lemma invrtrans_spec (rd : R) (c : ATANCamera) :
  invrtrans rd c =
  (undist_of (mdW c) rd,
   set_divisors (undist_divs (mdW c) ++ divisors c) c).
Proof.
  unfold invrtrans, undist_of, undist_divs.
  destruct c; cam_red.
  destruct (Req_dec_T _ 0); reflexivity.
Qed.

(** ** Closed forms of the projection pipeline *)

Lemma Project_spec (p : Vec2) (c : ATANCamera) :
  Project p c =
  let r := norm p in
  let f := factor_of (mdW c) r in
  let d := vscale f p in
  let im := pixel_of (mvCenter c) (mvFocal c) d in
  (im,
   set_divisors (factor_divs (mdW c) r ++ divisors c)
     (set_mvLastIm im
       (set_mvLastDistCam d
         (set_mdLastDistR (f * r)
           (set_mdLastFactor f
             (set_mbInvalid (Rgtb r (mdMaxR c))
               (set_mdLastR r (set_mvLastCam p c)))))))).
Proof.
  unfold Project. rewrite rtrans_factor_spec.
  destruct c; reflexivity.
Qed.

Lemma undistort_tail_spec (c : ATANCamera) :
  undistort_tail c =
  let rd := mdLastDistR c in
  let ru := undist_of (mdW c) rd in
  let dF := recovery_factor (mdW c) rd in
  let p := vscale dF (mvLastDistCam c) in
  (p,
   set_divisors
     (recovery_divs (mdW c) rd ++ undist_divs (mdW c) ++ divisors c)
     (set_mvLastCam p (set_mdLastFactor (1 / dF) (set_mdLastR ru c)))).
Proof.
  unfold undistort_tail. rewrite invrtrans_spec.
  unfold recovery_divs, recovery_factor.
  destruct c; cam_red.
  destruct (Rgt_dec _ 0.01); reflexivity.
Qed.

Lemma UnProject_spec (q : Vec2) (c : ATANCamera) :
  UnProject q c =
  let dc := distorted_of (mvCenter c) (mvInvFocal c) q in
  let rd := norm dc in
  let ru := undist_of (mdW c) rd in
  let dF := recovery_factor (mdW c) rd in
  let p := vscale dF dc in
  (p,
   set_divisors
     (recovery_divs (mdW c) rd ++ undist_divs (mdW c) ++ divisors c)
     (set_mvLastCam p
       (set_mdLastFactor (1 / dF)
         (set_mdLastR ru
           (set_mdLastDistR rd
             (set_mvLastDistCam dc (set_mvLastIm q c))))))).
Proof.
  unfold UnProject. rewrite undistort_tail_spec.
  destruct c; reflexivity.
Qed.

Lemma UFBProject_spec (p : Vec2) (c : ATANCamera) :
  UFBProject p c =
  let r := norm p in
  let f := factor_of (mdW c) r in
  let d := vscale f p in
  let im :=
    pixel_of (get5 (mpvvCameraParams c) 2, get5 (mpvvCameraParams c) 3)
             (get5 (mpvvCameraParams c) 0, get5 (mpvvCameraParams c) 1) d in
  (im,
   set_divisors (factor_divs (mdW c) r ++ divisors c)
     (set_mvLastIm im
       (set_mvLastDistCam d
         (set_mdLastDistR (f * r)
           (set_mdLastFactor f
             (set_mbInvalid (Rgtb r (mdMaxR c))
               (set_mdLastR r (set_mvLastCam p c)))))))).
Proof.
  unfold UFBProject. rewrite rtrans_factor_spec.
  destruct c; reflexivity.
Qed.

Lemma UFBUnProject_spec (q : Vec2) (c : ATANCamera) :
  UFBUnProject q c =
  let dc := UFBdistorted_of (mpvvCameraParams c) q in
  let rd := norm dc in
  let ru := undist_of (mdW c) rd in
  let dF := recovery_factor (mdW c) rd in
  let p := vscale dF dc in
  (p,
   set_divisors
     (recovery_divs (mdW c) rd ++ undist_divs (mdW c)
      ++ get5 (mpvvCameraParams c) 1 :: get5 (mpvvCameraParams c) 0
      :: divisors c)
     (set_mvLastCam p
       (set_mdLastFactor (1 / dF)
         (set_mdLastR ru
           (set_mdLastDistR rd
             (set_mvLastDistCam dc (set_mvLastIm q c))))))).
Proof.
  unfold UFBUnProject. cam_red. rewrite undistort_tail_spec.
  destruct c; reflexivity.
Qed.

(** ** Frame properties of the projection pipeline *)

Lemma rtrans_factor_frame (r : R) (c : ATANCamera) :
  snd (rtrans_factor r c)
  = set_divisors (divisors (snd (rtrans_factor r c))) c.
Proof. rewrite rtrans_factor_spec. reflexivity. Qed.

Lemma invrtrans_frame (rd : R) (c : ATANCamera) :
  snd (invrtrans rd c) = set_divisors (divisors (snd (invrtrans rd c))) c.
Proof. rewrite invrtrans_spec. reflexivity. Qed.

Lemma Project_parameter_state (p : Vec2) (c : ATANCamera) :
  parameter_state (snd (Project p c)) = parameter_state c.
Proof. rewrite Project_spec. reflexivity. Qed.

Lemma Project_derived_state (p : Vec2) (c : ATANCamera) :
  derived_state (snd (Project p c)) = derived_state c.
Proof. rewrite Project_spec. reflexivity. Qed.

Lemma UnProject_parameter_state (q : Vec2) (c : ATANCamera) :
  parameter_state (snd (UnProject q c)) = parameter_state c.
Proof. rewrite UnProject_spec. reflexivity. Qed.

Lemma UnProject_derived_state (q : Vec2) (c : ATANCamera) :
  derived_state (snd (UnProject q c)) = derived_state c.
Proof. rewrite UnProject_spec. reflexivity. Qed.

Lemma UnProject_mbInvalid (q : Vec2) (c : ATANCamera) :
  lo_mbInvalid (last_op (snd (UnProject q c))) = lo_mbInvalid (last_op c).
Proof. rewrite UnProject_spec. reflexivity. Qed.

Lemma UFBProject_parameter_state (p : Vec2) (c : ATANCamera) :
  parameter_state (snd (UFBProject p c)) = parameter_state c.
Proof. rewrite UFBProject_spec. reflexivity. Qed.

Lemma UFBProject_derived_state (p : Vec2) (c : ATANCamera) :
  derived_state (snd (UFBProject p c)) = derived_state c.
Proof. rewrite UFBProject_spec. reflexivity. Qed.

Lemma UFBUnProject_parameter_state (q : Vec2) (c : ATANCamera) :
  parameter_state (snd (UFBUnProject q c)) = parameter_state c.
Proof. rewrite UFBUnProject_spec. reflexivity. Qed.

Lemma UFBUnProject_derived_state (q : Vec2) (c : ATANCamera) :
  derived_state (snd (UFBUnProject q c)) = derived_state c.
Proof. rewrite UFBUnProject_spec. reflexivity. Qed.

Lemma UFBUnProject_mbInvalid (q : Vec2) (c : ATANCamera) :
  lo_mbInvalid (last_op (snd (UFBUnProject q c))) = lo_mbInvalid (last_op c).
Proof. rewrite UFBUnProject_spec. reflexivity. Qed.

(** ** The blocks of [RefreshParams] *)

Lemma RefreshParams_focal_spec (c : ATANCamera) :
  RefreshParams_focal c =
  let s := parameter_state c in
  set_divisors ((focal_of s).[1] :: (focal_of s).[0] :: divisors c)
    (set_mvInvFocal (invfocal_of s)
      (set_mvCenter (center_of s) (set_mvFocal (focal_of s) c))).
Proof. destruct c; reflexivity. Qed.

Lemma RefreshParams_distortion_spec (c : ATANCamera) :
  RefreshParams_distortion c =
  let w := get5 (mpvvCameraParams c) 4 in
  if Rneq_dec w 0 then
    set_divisors (w :: 2 * tan (w / 2) :: 2 :: divisors c)
      (set_mdDistortionEnabled 1
        (set_mdWinv (1 / w)
          (set_mdOneOver2Tan (1 / (2 * tan (w / 2)))
            (set_md2Tan (2 * tan (w / 2)) (set_mdW w c)))))
  else
    set_mdDistortionEnabled 0 (set_md2Tan 0 (set_mdWinv 0 (set_mdW w c))).
Proof.
  unfold RefreshParams_distortion. cam_red.
  destruct (Rneq_dec _ 0); destruct c; reflexivity.
Qed.

Lemma RefreshParams_maxradius_spec (c : ATANCamera) :
  RefreshParams_maxradius c =
  let P := mpvvCameraParams c in
  let L := undist_of (mdW c) (norm (farthest_corner P)) in
  set_divisors (undist_divs (mdW c) ++ get5 P 1 :: get5 P 0 :: divisors c)
    (set_mdMaxR (1.5 * L) (set_mdLargestRadius L c)).
Proof.
  unfold RefreshParams_maxradius. cam_red. rewrite invrtrans_spec.
  destruct c; reflexivity.
Qed.

(** One call of [UnProject] inside a block: name its result and record that
    the parameter state is the one before the call. *)
Tactic Notation "step_UnProject" constr(c0) ident(v) ident(c1) ident(E) :=
  match goal with
  | |- context [UnProject ?q c0] =>
      pose proof (UnProject_parameter_state q c0) as E;
      destruct (UnProject q c0) as [v c1];
      cbn [fst snd] in *
  end.

Lemma RefreshParams_onepixel_spec (c : ATANCamera) :
  RefreshParams_onepixel c =
  let u1 := UnProject (vscale 0.5 (mvImageSize c)) c in
  let u2 := UnProject (vadd (vscale 0.5 (mvImageSize c)) (1, 1)) (snd u1) in
  set_mdOnePixelDist (norm (vsub (fst u1) (fst u2)) / sqrt 2)
    (set_divisors (sqrt 2 :: divisors (snd u2)) (snd u2)).
Proof.
  unfold RefreshParams_onepixel. cbv zeta.
  step_UnProject c v1 c1 E1. unfold mvImageSize. rewrite E1.
  step_UnProject c1 v2 c2 E2.
  reflexivity.
Qed.

Lemma RefreshParams_UFB_spec (c : ATANCamera) :
  RefreshParams_UFB c =
  let W := (mvImageSize c).[0] in
  let H := (mvImageSize c).[1] in
  let u1 := UnProject (-0.5, -0.5) c in
  let u2 := UnProject (W - 0.5, -0.5) (snd u1) in
  let u3 := UnProject (W - 0.5, H - 0.5) (snd u2) in
  let u4 := UnProject (-0.5, H - 0.5) (snd u3) in
  let mm := bbox_loop [fst u1; fst u2; fst u3; fst u4] (fst u1, fst u1) in
  let v2Range := vsub (snd mm) (fst mm) in
  let f := (1 / v2Range.[0], 1 / v2Range.[1]) in
  set_mvUFBLinearCenter
    (-1 * (fst mm).[0] * f.[0], -1 * (fst mm).[1] * f.[1])
    (set_divisors (v2Range.[1] :: v2Range.[0] :: divisors (snd u4))
      (set_mvUFBLinearFocal f
        (set_mvUFBLinearInvFocal v2Range
          (set_mvImplaneBR (snd mm) (set_mvImplaneTL (fst mm) (snd u4)))))).
Proof.
  unfold RefreshParams_UFB. cbv zeta.
  step_UnProject c v1 c1 E1. unfold mvImageSize. rewrite E1.
  step_UnProject c1 v2 c2 E2. rewrite E2, E1.
  step_UnProject c2 v3 c3 E3. rewrite E3, E2, E1.
  step_UnProject c3 v4 c4 E4.
  cbn [app nth].
  destruct (bbox_loop _ _) as [mn mx].
  reflexivity.
Qed.

Lemma RefreshParams_onepixel_frame (c : ATANCamera) :
  let c' := RefreshParams_onepixel c in
  parameter_state c' = parameter_state c
  /\ mbInvalid c' = mbInvalid c
  /\ derived_state c'
     = ds_set_mdOnePixelDist (mdOnePixelDist c') (derived_state c).
Proof.
  cbv zeta.
  rewrite RefreshParams_onepixel_spec. cbv zeta. cam_red.
  rewrite !UnProject_parameter_state, !UnProject_derived_state,
    !UnProject_mbInvalid.
  repeat split.
Qed.

Lemma RefreshParams_UFB_frame (c : ATANCamera) :
  let c' := RefreshParams_UFB c in
  parameter_state c' = parameter_state c
  /\ mbInvalid c' = mbInvalid c
  /\ derived_state c'
     = ds_set_mvUFBLinearCenter (mvUFBLinearCenter c')
         (ds_set_mvUFBLinearFocal (mvUFBLinearFocal c')
           (ds_set_mvUFBLinearInvFocal (mvUFBLinearInvFocal c')
             (ds_set_mvImplaneBR (mvImplaneBR c')
               (ds_set_mvImplaneTL (mvImplaneTL c') (derived_state c))))).
Proof.
  cbv zeta.
  rewrite RefreshParams_UFB_spec. cbv zeta. cam_red.
  rewrite !UnProject_parameter_state, !UnProject_derived_state,
    !UnProject_mbInvalid.
  repeat split.
Qed.

(** ** [RefreshParams] as a whole *)

(** The derived state after a refresh, member by member.  Only
    [mdOneOver2Tan] can keep its old value (when [w = 0]). *)
Lemma RefreshParams_derived_state (c : ATANCamera) :
  let s := parameter_state c in
  let w := get5 (mpvvCameraParams c) 4 in
  let L := undist_of w (norm (farthest_corner (mpvvCameraParams c))) in
  let c' := RefreshParams c in
  derived_state c' =
  mkDerivedState (focal_of s) (center_of s) (invfocal_of s) w
    (if Rneq_dec w 0 then 2 * tan (w / 2) else 0)
    (if Rneq_dec w 0 then 1 / (2 * tan (w / 2)) else mdOneOver2Tan c)
    (if Rneq_dec w 0 then 1 / w else 0)
    (if Rneq_dec w 0 then 1 else 0)
    L (1.5 * L) (mdOnePixelDist c') (mvImplaneTL c') (mvImplaneBR c')
    (mvUFBLinearInvFocal c') (mvUFBLinearFocal c') (mvUFBLinearCenter c').
Proof.
  cbv zeta. unfold RefreshParams. cbv zeta.
  set (c3 := RefreshParams_maxradius _).
  set (c4 := RefreshParams_onepixel c3).
  destruct (RefreshParams_UFB_frame c4) as (_ & _ & E5).
  destruct (RefreshParams_onepixel_frame c3) as (_ & _ & E4).
  fold c4 in E4.
  set (x1 := mvUFBLinearCenter (RefreshParams_UFB c4)) in *.
  set (x2 := mvUFBLinearFocal (RefreshParams_UFB c4)) in *.
  set (x3 := mvUFBLinearInvFocal (RefreshParams_UFB c4)) in *.
  set (x4 := mvImplaneBR (RefreshParams_UFB c4)) in *.
  set (x5 := mvImplaneTL (RefreshParams_UFB c4)) in *.
  unfold mdOnePixelDist at 1. rewrite !E5. cam_red.
  set (x6 := mdOnePixelDist c4) in *.
  cam_red in E4. rewrite !E4. subst c3.
  rewrite RefreshParams_maxradius_spec, RefreshParams_distortion_spec,
    RefreshParams_focal_spec.
  cam_red.
  destruct (Rneq_dec _ 0); reflexivity.
Qed.

Lemma RefreshParams_parameter_state (c : ATANCamera) :
  parameter_state (RefreshParams c) = parameter_state c.
Proof.
  unfold RefreshParams. cbv zeta.
  set (c3 := RefreshParams_maxradius _).
  destruct (RefreshParams_UFB_frame (RefreshParams_onepixel c3)) as (-> & _).
  destruct (RefreshParams_onepixel_frame c3) as (-> & _).
  subst c3.
  rewrite RefreshParams_maxradius_spec, RefreshParams_distortion_spec,
    RefreshParams_focal_spec.
  cam_red. destruct (Rneq_dec _ 0); reflexivity.
Qed.

Lemma RefreshParams_mbInvalid (c : ATANCamera) :
  mbInvalid (RefreshParams c) = mbInvalid c.
Proof.
  unfold RefreshParams. cbv zeta.
  set (c3 := RefreshParams_maxradius _).
  destruct (RefreshParams_UFB_frame (RefreshParams_onepixel c3))
    as (_ & -> & _).
  destruct (RefreshParams_onepixel_frame c3) as (_ & -> & _).
  subst c3.
  rewrite RefreshParams_maxradius_spec, RefreshParams_distortion_spec,
    RefreshParams_focal_spec.
  cam_red. destruct (Rneq_dec _ 0); reflexivity.
Qed.

Lemma GetProjectionDerivs_frame (u : Mat) (c : ATANCamera) :
  snd (GetProjectionDerivs u c)
  = set_divisors (divisors (snd (GetProjectionDerivs u c))) c.
Proof.
  unfold GetProjectionDerivs. cbv zeta.
  destruct (Rlt_dec _ 0.01); reflexivity.
Qed.

(** ** What a refresh makes of the members the projections read *)

Section Refreshed.
Variable c : ATANCamera.
Let s := parameter_state c.
Let w := get5 (mpvvCameraParams c) 4.

Lemma RefreshParams_mvFocal : mvFocal (RefreshParams c) = focal_of s.
Proof.
  unfold mvFocal. rewrite (RefreshParams_derived_state c). reflexivity.
Qed.

Lemma RefreshParams_mvCenter : mvCenter (RefreshParams c) = center_of s.
Proof.
  unfold mvCenter. rewrite (RefreshParams_derived_state c). reflexivity.
Qed.

Lemma RefreshParams_mvInvFocal :
  mvInvFocal (RefreshParams c) = invfocal_of s.
Proof.
  unfold mvInvFocal. rewrite (RefreshParams_derived_state c). reflexivity.
Qed.

Lemma RefreshParams_mdW : mdW (RefreshParams c) = w.
Proof.
  unfold mdW. rewrite (RefreshParams_derived_state c). reflexivity.
Qed.

Lemma RefreshParams_md2Tan :
  md2Tan (RefreshParams c) = if Rneq_dec w 0 then 2 * tan (w / 2) else 0.
Proof.
  unfold md2Tan. rewrite (RefreshParams_derived_state c). reflexivity.
Qed.

Lemma RefreshParams_mdWinv :
  mdWinv (RefreshParams c) = if Rneq_dec w 0 then 1 / w else 0.
Proof.
  unfold mdWinv. rewrite (RefreshParams_derived_state c). reflexivity.
Qed.

Lemma RefreshParams_mdDistortionEnabled :
  mdDistortionEnabled (RefreshParams c) = if Rneq_dec w 0 then 1 else 0.
Proof.
  unfold mdDistortionEnabled. rewrite (RefreshParams_derived_state c).
  reflexivity.
Qed.

Lemma RefreshParams_mdMaxR :
  mdMaxR (RefreshParams c)
  = 1.5 * undist_of w (norm (farthest_corner (mpvvCameraParams c))).
Proof.
  unfold mdMaxR. rewrite (RefreshParams_derived_state c). reflexivity.
Qed.
End Refreshed.

Lemma Project_value (p : Vec2) (c : ATANCamera) :
  fst (Project p c)
  = pixel_of (mvCenter c) (mvFocal c)
      (vscale (factor_of (mdW c) (norm p)) p).
Proof. rewrite Project_spec. reflexivity. Qed.

Lemma Project_after_refresh (p : Vec2) (c : ATANCamera) :
  fst (Project p (RefreshParams c)) = project_with (parameter_state c) p.
Proof.
  rewrite Project_value, RefreshParams_mvCenter, RefreshParams_mvFocal,
    RefreshParams_mdW.
  reflexivity.
Qed.

(** ** The loop of [GetCameraParameterDerivs] *)

Lemma vadd5_perturbation (P : Vec5) (i : nat) :
  (i < NUMTRACKERCAMPARAMETERS)%nat ->
  vadd5 P (perturbation i) = perturbed P i.
Proof.
  unfold NUMTRACKERCAMPARAMETERS. intros Hi.
  destruct P as [a0 a1 a2 a3 a4].
  do 5 (destruct i as [|i]; [unfold vadd5, perturbed, perturbation; cbn;
                             f_equal; lra|]).
  lia.
Qed.

Lemma Reqb_true (a b : R) : Reqb a b = true <-> a = b.
Proof. unfold Reqb. destruct (Req_dec_T a b); split; congruence. Qed.

(** An iteration that is not skipped: it stores the finite difference in
    column [i] and ends with a refresh from the saved parameter vector. *)
Lemma body_runs (s : ParameterState) (v2Cam v2Out : Vec2) (i : nat) (m : Mat)
    (c : ATANCamera) :
  (i < NUMTRACKERCAMPARAMETERS)%nat ->
  parameter_state c = s ->
  ((i =? NUMTRACKERCAMPARAMETERS - 1)%nat && Reqb (mdW c) 0)%bool = false ->
  let d := finite_difference s v2Cam v2Out i in
  exists c'',
    parameter_state c'' = s
    /\ GetCameraParameterDerivs_body (ps_mpvvCameraParams s) v2Cam v2Out i
         (m, c)
       = (mset (mset m 0 i d.[0]) 1 i d.[1], RefreshParams c'').
Proof.
  intros Hi Hs Hc. subst s. unfold GetCameraParameterDerivs_body.
  rewrite Hc. cbv zeta.
  fold (perturbation i).
  pose proof (Project_after_refresh v2Cam
                (set_mpvvCameraParams
                   (vadd5 (mpvvCameraParams c) (perturbation i)) c)) as V.
  pose proof (Project_parameter_state v2Cam
                (UpdateParams (perturbation i) c)) as F.
  unfold UpdateParams in *. cbv zeta in *.
  rewrite RefreshParams_parameter_state in F.
  destruct (Project v2Cam _) as [vB cb]. cbn [fst snd] in V, F.
  unfold vdiv. cam_red. cam_red in F. cam_red in V.
  rewrite F.
  rewrite (vadd5_perturbation _ _ Hi) in V.
  eexists. split; [|unfold finite_difference; cbv zeta; cam_red;
                    rewrite V; reflexivity].
  reflexivity.
Qed.

(** The iteration for the last parameter when [mdW] is 0. *)
Lemma body_skips (vNNormal : Vec5) (v2Cam v2Out : Vec2) (m : Mat)
    (c : ATANCamera) :
  mdW c = 0 ->
  GetCameraParameterDerivs_body vNNormal v2Cam v2Out
    (NUMTRACKERCAMPARAMETERS - 1) (m, c) = (m, c).
Proof.
  intros Hw. unfold GetCameraParameterDerivs_body.
  rewrite Nat.eqb_refl. cbn [andb].
  destruct (Reqb_true (mdW c) 0) as [_ ->]; [reflexivity|exact Hw].
Qed.

Lemma Reqb_false (a b : R) : a <> b -> Reqb a b = false.
Proof. unfold Reqb. destruct (Req_dec_T a b); congruence. Qed.

Lemma mdW_refreshed (s : ParameterState) (c c'' : ATANCamera) :
  parameter_state c'' = s -> c = RefreshParams c'' ->
  parameter_state c = s /\ mdW c = get5 (ps_mpvvCameraParams s) 4.
Proof.
  intros <- ->. split.
  - apply RefreshParams_parameter_state.
  - apply RefreshParams_mdW.
Qed.

(** One iteration of the unrolled loop that is not skipped. *)
Tactic Notation "run_iteration" hyp(R) constr(L) constr(E) constr(K)
    ident(c') ident(S) :=
  match type of R with
  | context [GetCameraParameterDerivs_body (ps_mpvvCameraParams ?s)
               ?p ?o ?i (?m, ?ck)] =>
      let B := fresh "B" in
      destruct (body_runs s p o i m ck L E (K ck)) as (c' & S & B);
      rewrite B in R; clear B
  end.

(** The iterations for the parameters before the last one are never skipped:
    they fill their columns and leave a state refreshed from the parameter
    state at entry. *)
Lemma loop_before_last (s : ParameterState) (p v2Out : Vec2) (u : Mat)
    (c0 : ATANCamera) :
  parameter_state c0 = s ->
  let d := finite_difference s p v2Out in
  exists c'',
    parameter_state c'' = s
    /\ fold_left
         (fun mc i =>
            GetCameraParameterDerivs_body (ps_mpvvCameraParams s) p v2Out i
              mc)
         (seq 0 (NUMTRACKERCAMPARAMETERS - 1)) (u, c0)
       = (set_column
            (set_column (set_column (set_column u 0 (d 0%nat)) 1 (d 1%nat))
               2 (d 2%nat))
            3 (d 3%nat),
          RefreshParams c'').
Proof.
  intros E0. cbv zeta.
  match goal with
  | |- exists c'', _ /\ ?l = _ => remember l as r eqn:R
  end.
  unfold NUMTRACKERCAMPARAMETERS in R at 1. cbn [Nat.sub seq fold_left] in R.
  assert (H4 : forall i, (i < 4)%nat ->
            (i < NUMTRACKERCAMPARAMETERS)%nat
            /\ forall x, ((i =? NUMTRACKERCAMPARAMETERS - 1)%nat
                          && Reqb (mdW x) 0)%bool = false).
  { intros i Hi. split; [unfold NUMTRACKERCAMPARAMETERS; lia|].
    intros x. replace (i =? NUMTRACKERCAMPARAMETERS - 1)%nat with false;
      [reflexivity|].
    symmetry. apply Nat.eqb_neq. unfold NUMTRACKERCAMPARAMETERS. lia. }
  destruct (H4 0%nat ltac:(lia)) as [L0 K0].
  run_iteration R L0 E0 K0 c0' S0.
  destruct (mdW_refreshed s _ c0' S0 eq_refl) as [E1 _].
  destruct (H4 1%nat ltac:(lia)) as [L1 K1].
  run_iteration R L1 E1 K1 c1' S1.
  destruct (mdW_refreshed s _ c1' S1 eq_refl) as [E2 _].
  destruct (H4 2%nat ltac:(lia)) as [L2 K2].
  run_iteration R L2 E2 K2 c2' S2.
  destruct (mdW_refreshed s _ c2' S2 eq_refl) as [E3 _].
  destruct (H4 3%nat ltac:(lia)) as [L3 K3].
  run_iteration R L3 E3 K3 c3' S3.
  exists c3'. split; [exact S3|exact R].
Qed.

Lemma seq_last_parameter :
  seq 0 NUMTRACKERCAMPARAMETERS
  = seq 0 (NUMTRACKERCAMPARAMETERS - 1) ++ [(NUMTRACKERCAMPARAMETERS - 1)%nat].
Proof. reflexivity. Qed.

(** The whole routine: the final state is a refresh from the parameter
    state at entry, and the columns of the matrix are the finite differences,
    except that the last column is zero when [w = 0]. *)
Lemma GetCameraParameterDerivs_spec (u : Mat) (c : ATANCamera) :
  let s := parameter_state c in
  let p := mvLastCam c in
  let w := get5 (mpvvCameraParams c) 4 in
  let d := finite_difference s p (fst (Project p c)) in
  let r := GetCameraParameterDerivs u c in
  (exists c'', parameter_state c'' = s /\ snd r = RefreshParams c'')
  /\ (forall i, (i < NUMTRACKERCAMPARAMETERS - 1)%nat ->
       fst r 0%nat i = (d i).[0] /\ fst r 1%nat i = (d i).[1])
  /\ (w <> 0 ->
       fst r 0%nat 4%nat = (d 4%nat).[0] /\ fst r 1%nat 4%nat = (d 4%nat).[1])
  /\ (w = 0 -> fst r 0%nat 4%nat = 0 /\ fst r 1%nat 4%nat = 0).
Proof.
  cbv zeta.
  remember (GetCameraParameterDerivs u c) as r eqn:R.
  unfold GetCameraParameterDerivs in R. cbv zeta in R.
  pose proof (Project_parameter_state (mvLastCam c) c) as E0.
  destruct (Project (mvLastCam c) c) as [v2Out c0]. cbn [fst snd] in *.
  set (s := parameter_state c) in *.
  set (p := mvLastCam c) in *.
  change (mpvvCameraParams c) with (ps_mpvvCameraParams s) in *.
  rewrite seq_last_parameter, fold_left_app in R.
  destruct (loop_before_last s p v2Out u c0 E0) as (c3' & S3 & L).
  rewrite L in R. clear L. cbn [fold_left] in R.
  destruct (mdW_refreshed s _ c3' S3 eq_refl) as [E4 W4].
  destruct (Req_dec_T (get5 (ps_mpvvCameraParams s) 4) 0) as [Hw|Hw].
  - rewrite body_skips in R by (rewrite W4; exact Hw).
    destruct (Req_dec_T (mdW (RefreshParams c3')) 0) as [_|N];
      [|rewrite W4 in N; contradiction].
    subst r. cbn [fst snd].
    split; [exists c3'; split; [exact S3|reflexivity]|].
    split; [|split; [intros; contradiction|intros _; split; reflexivity]].
    intros i Hi. unfold NUMTRACKERCAMPARAMETERS in Hi.
    do 4 (destruct i as [|i]; [split; reflexivity|]). lia.
  - assert (L4 : (NUMTRACKERCAMPARAMETERS - 1 < NUMTRACKERCAMPARAMETERS)%nat)
      by (unfold NUMTRACKERCAMPARAMETERS; lia).
    assert (K4 : ((NUMTRACKERCAMPARAMETERS - 1
                   =? NUMTRACKERCAMPARAMETERS - 1)%nat
                  && Reqb (mdW (RefreshParams c3')) 0)%bool = false).
    { rewrite Reqb_false by (rewrite W4; exact Hw). apply andb_false_r. }
    run_iteration R L4 E4 (fun _ : ATANCamera => K4) c4' S4.
    destruct (mdW_refreshed s _ c4' S4 eq_refl) as [E5 W5].
    destruct (Req_dec_T (mdW (RefreshParams c4')) 0) as [Z|_];
      [rewrite W5 in Z; contradiction|].
    subst r. cbn [fst snd].
    split; [exists c4'; split; [exact S4|reflexivity]|].
    split; [|split; [intros _; split; reflexivity|intros; contradiction]].
    intros i Hi. unfold NUMTRACKERCAMPARAMETERS in Hi.
    do 4 (destruct i as [|i]; [split; reflexivity|]). lia.
Qed.

Lemma finite_difference_Project (i : nat) (c : ATANCamera) (p out : Vec2) :
  finite_difference (parameter_state c) p out i
  = (((fst (Project p (with_perturbed_parameter i c))).[0] - out.[0]) / 0.001,
     ((fst (Project p (with_perturbed_parameter i c))).[1] - out.[1]) / 0.001).
Proof.
  unfold with_perturbed_parameter. rewrite Project_after_refresh.
  reflexivity.
Qed.

(** ** The tangent of a half angle *)

Lemma tan_half_bounds (w : R) :
  0 < w < PI / 2 -> 0 < tan (w / 2) < 1.
Proof.
  intros [H0 H1]. pose proof PI_RGT_0 as HPI. split.
  - apply tan_gt_0; lra.
  - rewrite <- tan_PI4. apply tan_increasing; lra.
Qed.

Lemma tan_double (x : R) :
  0 < x < PI / 4 -> tan (x + x) = (tan x + tan x) / (1 - tan x * tan x).
Proof.
  intros [H0 H1]. pose proof PI_RGT_0 as HPI.
  assert (T : 0 < tan x < 1).
  { replace x with ((x + x) / 2) by lra. apply tan_half_bounds. lra. }
  apply tan_plus.
  - apply Rgt_not_eq, cos_gt_0; lra.
  - apply Rgt_not_eq, cos_gt_0; lra.
  - apply Rgt_not_eq, cos_gt_0; lra.
  - nra.
Qed.

(** [2 tan (w/2) < tan w] on the first quadrant. *)
Lemma two_tan_half_lt_tan (w : R) :
  0 < w < PI / 2 -> 2 * tan (w / 2) < tan w.
Proof.
  intros H. pose proof (tan_half_bounds w H) as [T0 T1].
  replace (tan w) with (tan (w / 2 + w / 2)) by (f_equal; lra).
  rewrite tan_double by lra.
  set (t := tan (w / 2)) in *.
  assert (D : 0 < 1 - t * t) by nra.
  apply Rmult_lt_reg_r with (1 - t * t); [exact D|].
  replace ((t + t) / (1 - t * t) * (1 - t * t)) with (t + t)
    by (field; lra).
  assert (C : 0 < t * t * t)
    by (apply Rmult_lt_0_compat; [apply Rmult_lt_0_compat|]; exact T0).
  lra.
Qed.

Lemma atan_two_tan_half_lt (w : R) :
  0 < w < PI / 2 -> atan (2 * tan (w / 2)) < w.
Proof.
  intros H. rewrite <- (atan_tan w) at 2 by lra.
  apply atan_increasing, two_tan_half_lt_tan, H.
Qed.

Lemma norm_unit_x : norm (1, 0) = 1.
Proof.
  unfold norm. cbn [vget fst snd].
  replace (1 * 1 + 0 * 0) with 1 by lra. apply sqrt_1.
Qed.

(** ** Reachable states *)

Lemma refreshed_RefreshParams (c : ATANCamera) : refreshed (RefreshParams c).
Proof.
  exists c. split; [|reflexivity].
  symmetry. apply RefreshParams_parameter_state.
Qed.

Lemma refreshed_frame (c c' : ATANCamera) :
  parameter_state c' = parameter_state c ->
  derived_state c' = derived_state c ->
  refreshed c -> refreshed c'.
Proof.
  intros P D (c0 & P0 & D0). exists c0. split; congruence.
Qed.

(** The invariant of the class: every reachable state is refreshed. *)
Lemma reachable_refreshed (c : ATANCamera) : reachable c -> refreshed c.
Proof.
  induction 1 as [uninit stored imgsize|o c _ IH].
  - apply refreshed_RefreshParams.
  - destruct o; cbn [state_after];
      try apply refreshed_RefreshParams.
    + revert IH. apply refreshed_frame.
      * apply Project_parameter_state.
      * apply Project_derived_state.
    + revert IH. apply refreshed_frame.
      * apply UnProject_parameter_state.
      * apply UnProject_derived_state.
    + revert IH. apply refreshed_frame.
      * apply UFBProject_parameter_state.
      * apply UFBProject_derived_state.
    + revert IH. apply refreshed_frame.
      * apply UFBUnProject_parameter_state.
      * apply UFBUnProject_derived_state.
    + revert IH. apply refreshed_frame;
        rewrite GetProjectionDerivs_frame; reflexivity.
    + destruct (GetCameraParameterDerivs_spec uninit c)
        as ((c'' & _ & ->) & _).
      apply refreshed_RefreshParams.
Qed.

(** What the invariant says of the members the projections read. *)
Lemma refreshed_members (c : ATANCamera) :
  refreshed c ->
  let s := parameter_state c in
  let w := get5 (mpvvCameraParams c) 4 in
  mvFocal c = focal_of s
  /\ mvCenter c = center_of s
  /\ mvInvFocal c = invfocal_of s
  /\ mdW c = w
  /\ md2Tan c = (if Rneq_dec w 0 then 2 * tan (w / 2) else 0)
  /\ mdWinv c = (if Rneq_dec w 0 then 1 / w else 0)
  /\ mdDistortionEnabled c = (if Rneq_dec w 0 then 1 else 0)
  /\ mdMaxR c
     = 1.5 * undist_of w (norm (farthest_corner (mpvvCameraParams c))).
Proof.
  intros (c0 & P & D). cbv zeta.
  unfold mvFocal, mvCenter, mvInvFocal, mdW, md2Tan, mdWinv,
    mdDistortionEnabled, mdMaxR, mpvvCameraParams.
  rewrite D, <- P, (RefreshParams_derived_state c0).
  repeat split.
Qed.

Lemma Project_refreshed (p : Vec2) (c : ATANCamera) :
  refreshed c -> fst (Project p c) = project_with (parameter_state c) p.
Proof.
  intros H. destruct (refreshed_members c H) as (F & C & _ & W & _).
  rewrite Project_value, F, C, W. reflexivity.
Qed.

(** ** The cache after a refresh *)

(** The cache [UnProject] leaves depends on the state through the members it
    reads and the validity flag it keeps. *)
Lemma UnProject_last_op_ext (q : Vec2) (c1 c2 : ATANCamera) :
  mvCenter c1 = mvCenter c2 ->
  mvInvFocal c1 = mvInvFocal c2 ->
  mdW c1 = mdW c2 ->
  mbInvalid c1 = mbInvalid c2 ->
  last_op (snd (UnProject q c1)) = last_op (snd (UnProject q c2)).
Proof.
  intros C I W B. rewrite !UnProject_spec. cbv zeta.
  cam_red. cam_red in C. cam_red in I. cam_red in W. cam_red in B.
  rewrite C, I, W, B. reflexivity.
Qed.

Lemma UnProject_value_ext (q : Vec2) (c1 c2 : ATANCamera) :
  mvCenter c1 = mvCenter c2 ->
  mvInvFocal c1 = mvInvFocal c2 ->
  mdW c1 = mdW c2 ->
  fst (UnProject q c1) = fst (UnProject q c2).
Proof.
  intros C I W. rewrite !UnProject_spec. cbv zeta.
  cam_red. cam_red in C. cam_red in I. cam_red in W.
  rewrite C, I, W. reflexivity.
Qed.

(** A refresh leaves in the cache what [UnProject] of that pixel leaves. *)
Lemma RefreshParams_last_op (c : ATANCamera) :
  let c' := RefreshParams c in
  last_op c' = last_op (snd (UnProject (last_refresh_pixel c) c'))
  /\ mvLastCam c' = fst (UnProject (last_refresh_pixel c) c').
Proof.
  cbv zeta. unfold RefreshParams. cbv zeta.
  set (c4 := RefreshParams_onepixel _).
  assert (S4 : mvImageSize c4 = mvImageSize c).
  { unfold mvImageSize. subst c4.
    destruct (RefreshParams_onepixel_frame
                (RefreshParams_maxradius
                   (RefreshParams_distortion (RefreshParams_focal c))))
      as (-> & _).
    rewrite RefreshParams_maxradius_spec, RefreshParams_distortion_spec,
      RefreshParams_focal_spec.
    cam_red. destruct (Rneq_dec _ 0); reflexivity. }
  destruct (RefreshParams_UFB_frame c4) as (_ & B & D).
  cbv zeta in D.
  assert (M : mvCenter (RefreshParams_UFB c4) = mvCenter c4
              /\ mvInvFocal (RefreshParams_UFB c4) = mvInvFocal c4
              /\ mdW (RefreshParams_UFB c4) = mdW c4).
  { unfold mvCenter, mvInvFocal, mdW. rewrite D. repeat split. }
  destruct M as (MC & MI & MW).
  unfold last_refresh_pixel. rewrite <- S4.
  set (q := (-0.5, (mvImageSize c4).[1] - 0.5)).
  rewrite (RefreshParams_UFB_spec c4) at 1 3. cbv zeta.
  fold q.
  set (c3 := snd (UnProject _ (snd (UnProject _ (snd (UnProject _ c4)))))).
  assert (F3 : derived_state c3 = derived_state c4
               /\ lo_mbInvalid (last_op c3) = lo_mbInvalid (last_op c4)).
  { subst c3. rewrite !UnProject_derived_state, !UnProject_mbInvalid.
    split; reflexivity. }
  destruct F3 as (D3 & B3).
  assert (X : last_op (snd (UnProject q c3))
              = last_op (snd (UnProject q (RefreshParams_UFB c4)))).
  { apply UnProject_last_op_ext.
    - rewrite MC. unfold mvCenter. rewrite D3. reflexivity.
    - rewrite MI. unfold mvInvFocal. rewrite D3. reflexivity.
    - rewrite MW. unfold mdW. rewrite D3. reflexivity.
    - rewrite B. exact B3. }
  split.
  - rewrite <- X. reflexivity.
  - assert (V : fst (UnProject q c3)
                = fst (UnProject q (RefreshParams_UFB c4))).
    { apply UnProject_value_ext.
      - rewrite MC. unfold mvCenter. rewrite D3. reflexivity.
      - rewrite MI. unfold mvInvFocal. rewrite D3. reflexivity.
      - rewrite MW. unfold mdW. rewrite D3. reflexivity. }
    rewrite <- V. cam_red. rewrite UnProject_spec. reflexivity.
Qed.

Lemma GetProjectionDerivs_ext (u : Mat) (c1 c2 : ATANCamera) :
  derived_state c1 = derived_state c2 ->
  last_op c1 = last_op c2 ->
  fst (GetProjectionDerivs u c1) = fst (GetProjectionDerivs u c2).
Proof.
  intros D L. unfold GetProjectionDerivs. cbv zeta.
  cam_red. cam_red in D. cam_red in L. rewrite !D, !L.
  destruct (Rlt_dec _ 0.01); cam_red; rewrite ?D, ?L; reflexivity.
Qed.

Lemma RefreshParams_cache_holds_corner (c : ATANCamera) :
  cache_holds_corner (RefreshParams c).
Proof.
  unfold cache_holds_corner. cbv zeta.
  destruct (RefreshParams_last_op c) as [L V]. cbv zeta in L, V.
  unfold last_refresh_pixel in L, V.
  assert (S : mvImageSize (RefreshParams c) = mvImageSize c).
  { unfold mvImageSize. rewrite RefreshParams_parameter_state. reflexivity. }
  rewrite S. repeat split.
  - unfold mvLastIm. rewrite L, UnProject_spec. reflexivity.
  - exact V.
  - exact L.
  - intros u. apply GetProjectionDerivs_ext.
    + symmetry. apply UnProject_derived_state.
    + exact L.
Qed.

(** ** The matrix of [GetProjectionDerivs] *)

(** The matrix [GetProjectionDerivs] returns, with the divisions written
    out. *)
Lemma GetProjectionDerivs_value (u : Mat) (c : ATANCamera) :
  fst (GetProjectionDerivs u c) =
  let k := md2Tan c in
  let x := (mvLastCam c).[0] in
  let y := (mvLastCam c).[1] in
  let ru := mdLastR c * mdDistortionEnabled c in
  let dFrac t :=
    if Rlt_dec ru 0.01 then 0
    else (mdWinv c * k / (1 + k * k * ru * ru) - mdLastFactor c) * t
         / (ru * ru) in
  mset
    (mset
       (mset
          (mset u 0 0 ((mvFocal c).[0] * (dFrac x * x + mdLastFactor c)))
          1 0 ((mvFocal c).[1] * (dFrac x * y)))
       0 1 ((mvFocal c).[0] * (dFrac y * x)))
    1 1 ((mvFocal c).[1] * (dFrac y * y + mdLastFactor c)).
Proof.
  unfold GetProjectionDerivs. cbv zeta.
  destruct (Rlt_dec _ 0.01); reflexivity.
Qed.

(** ** The comparison of [Project] *)

Lemma Rgtb_true (a b : R) : Rgtb a b = true <-> a > b.
Proof. unfold Rgtb. destruct (Rgt_dec a b); split; congruence. Qed.

(** ** The projections at the origin *)

Lemma norm_origin : norm (0, 0) = 0.
Proof.
  unfold norm. cbn [vget fst snd].
  replace (0 * 0 + 0 * 0) with 0 by lra. apply sqrt_0.
Qed.

Lemma recovery_factor_origin (w : R) : recovery_factor w 0 = 1.
Proof.
  unfold recovery_factor. destruct (Rgt_dec 0 0.01); [lra|reflexivity].
Qed.

Lemma UnProject_value (q : Vec2) (c : ATANCamera) :
  fst (UnProject q c)
  = let dc := distorted_of (mvCenter c) (mvInvFocal c) q in
    vscale (recovery_factor (mdW c) (norm dc)) dc.
Proof. rewrite UnProject_spec. reflexivity. Qed.

(** ** The distortion transform at [w = 0] *)

Lemma factor_of_0 (r : R) : factor_of 0 r = 1.
Proof. unfold factor_of. destruct (Req_dec_T 0 0); [reflexivity|lra]. Qed.

Lemma factor_divs_0 (r : R) : factor_divs 0 r = [].
Proof. unfold factor_divs. destruct (Req_dec_T 0 0); [reflexivity|lra]. Qed.

Lemma undist_of_0 (rd : R) : undist_of 0 rd = rd.
Proof. unfold undist_of. destruct (Req_dec_T 0 0); [reflexivity|lra]. Qed.

Lemma undist_divs_0 : undist_divs 0 = [].
Proof. unfold undist_divs. destruct (Req_dec_T 0 0); [reflexivity|lra]. Qed.

Lemma recovery_factor_0 (rd : R) : recovery_factor 0 rd = 1.
Proof.
  unfold recovery_factor. rewrite undist_of_0.
  destruct (Rgt_dec rd 0.01); [field; lra|reflexivity].
Qed.

Lemma vscale_1 (v : Vec2) : vscale 1 v = v.
Proof. destruct v. unfold vscale. cbn [vget fst snd]. f_equal; lra. Qed.

(** An affine pixel map and its inverse. *)
Lemma distorted_of_pixel_of (vCenter vFocal d : Vec2) :
  vFocal.[0] <> 0 -> vFocal.[1] <> 0 ->
  distorted_of vCenter (1 / vFocal.[0], 1 / vFocal.[1])
    (pixel_of vCenter vFocal d) = d.
Proof.
  intros H0 H1. destruct d as [d0 d1].
  unfold distorted_of, pixel_of. cbn [vget fst snd]. f_equal; field; assumption.
Qed.

Lemma pixel_of_distorted_of (vCenter vFocal q : Vec2) :
  vFocal.[0] <> 0 -> vFocal.[1] <> 0 ->
  pixel_of vCenter vFocal
    (distorted_of vCenter (1 / vFocal.[0], 1 / vFocal.[1]) q) = q.
Proof.
  intros H0 H1. destruct q as [q0 q1].
  unfold distorted_of, pixel_of. cbn [vget fst snd]. f_equal; field; assumption.
Qed.

(** ** The distortion transform and its inverse *)

Lemma tan_nonneg (x : R) : 0 <= x < PI / 2 -> 0 <= tan x.
Proof.
  intros [[H|<-] H1].
  - left. apply tan_gt_0; assumption.
  - rewrite tan_0. lra.
Qed.

(** [tan] is superadditive on the first quadrant. *)
Lemma tan_sum_ge (a b : R) :
  0 <= a -> 0 <= b -> a + b < PI / 2 -> tan a + tan b <= tan (a + b).
Proof.
  intros Ha Hb Hab. pose proof PI_RGT_0 as HPI.
  assert (Ca : 0 < cos a) by (apply cos_gt_0; lra).
  assert (Cb : 0 < cos b) by (apply cos_gt_0; lra).
  assert (Cab : 0 < cos (a + b)) by (apply cos_gt_0; lra).
  assert (Ta : 0 <= tan a) by (apply tan_nonneg; lra).
  assert (Tb : 0 <= tan b) by (apply tan_nonneg; lra).
  assert (D : 1 - tan a * tan b = cos (a + b) / (cos a * cos b)).
  { rewrite cos_plus. unfold tan. field. lra. }
  assert (Dpos : 0 < 1 - tan a * tan b).
  { rewrite D. apply Rdiv_lt_0_compat; [exact Cab|].
    apply Rmult_lt_0_compat; assumption. }
  rewrite tan_plus by lra.
  set (ta := tan a) in *. set (tb := tan b) in *.
  apply Rmult_le_reg_r with (1 - ta * tb); [exact Dpos|].
  replace ((ta + tb) / (1 - ta * tb) * (1 - ta * tb)) with (ta + tb)
    by (field; lra).
  assert (0 <= ta * tb) by (apply Rmult_le_pos; assumption).
  assert (0 <= (ta + tb) * (ta * tb))
    by (apply Rmult_le_pos; lra).
  lra.
Qed.

Lemma tan_mult_ge (n : nat) (x : R) :
  0 <= x -> INR n * x < PI / 2 -> INR n * tan x <= tan (INR n * x).
Proof.
  intros Hx. induction n as [|n IH]; intros Hn.
  - cbn [INR]. rewrite !Rmult_0_l, tan_0. lra.
  - rewrite S_INR in *.
    assert (N : 0 <= INR n) by apply pos_INR.
    assert (Nx : 0 <= INR n * x) by (apply Rmult_le_pos; assumption).
    replace ((INR n + 1) * x) with (INR n * x + x) by ring.
    eapply Rle_trans; [|apply tan_sum_ge; lra].
    specialize (IH ltac:(lra)). lra.
Qed.

(** The guard of [UnProject] on the distorted radius, in terms of the
    undistorted radius: [0.01 w <= atan (0.01 k)] for [k = 2 tan (w/2)]. *)
Lemma atan_guard (w : R) :
  0 < w < PI -> 0.01 * w <= atan (0.01 * (2 * tan (w / 2))).
Proof.
  intros [H0 H1].
  assert (T : INR 50 * tan (w / 100) <= tan (INR 50 * (w / 100))).
  { apply tan_mult_ge; [lra|]. 
    replace (INR 50) with 50 by (rewrite INR_IZR_INZ; reflexivity). lra. }
  replace (INR 50) with 50 in T by (rewrite INR_IZR_INZ; reflexivity).
  replace (50 * (w / 100)) with (w / 2) in T by lra.
  rewrite <- (atan_tan (0.01 * w)) at 1 by lra.
  replace (0.01 * w) with (w / 100) by lra.
  destruct (Rle_lt_or_eq_dec (tan (w / 100)) (0.01 * (2 * tan (w / 2)))
              ltac:(lra)) as [L|E].
  - left. apply atan_increasing. exact L.
  - right. rewrite E. reflexivity.
Qed.

(** The forward and inverse transforms do not see the sign of [w]. *)
Lemma factor_of_opp (w r : R) : factor_of (- w) r = factor_of w r.
Proof.
  unfold factor_of.
  destruct (Req_dec_T (- w) 0) as [E|E], (Req_dec_T w 0) as [E'|E'];
    try reflexivity; try lra.
  destruct (Rlt_dec r 0.001) as [L|L]; [reflexivity|].
  replace (- w / 2) with (- (w / 2)) by lra.
  rewrite tan_neg.
  replace (2 * r * - tan (w / 2)) with (- (2 * r * tan (w / 2))) by ring.
  rewrite atan_opp. field. lra.
Qed.

Lemma undist_of_opp (w rd : R) :
  tan (w / 2) <> 0 -> undist_of (- w) rd = undist_of w rd.
Proof.
  intros T. unfold undist_of.
  destruct (Req_dec_T (- w) 0) as [E|E], (Req_dec_T w 0) as [E'|E'];
    try reflexivity; try lra.
  replace (- w / 2) with (- (w / 2)) by lra.
  replace (rd * - w) with (- (rd * w)) by ring.
  rewrite !tan_neg. field. exact T.
Qed.

(** For a distortion angle in (0, pi) and an undistorted radius above 0.01:
    the factor is positive, the distorted radius is above 0.01, and the
    inverse transform gives the undistorted radius back. *)
Lemma distortion_inverse_pos (w r : R) :
  0 < w < PI -> 0.01 < r ->
  0 < factor_of w r
  /\ 0.01 < factor_of w r * r
  /\ undist_of w (factor_of w r * r) = r.
Proof.
  intros Hw Hr. pose proof PI_RGT_0 as HPI.
  assert (K : 0 < tan (w / 2)) by (apply tan_gt_0; lra).
  pose proof (atan_guard w Hw) as G.
  assert (A : atan (0.01 * (2 * tan (w / 2))) < atan (2 * r * tan (w / 2))).
  { apply atan_increasing. nra. }
  unfold factor_of, undist_of.
  destruct (Req_dec_T w 0) as [E|_]; [lra|].
  destruct (Rlt_dec r 0.001) as [L|_]; [lra|].
  set (a := atan (2 * r * tan (w / 2))) in *.
  assert (Ap : 0 < a) by nra.
  assert (FR : 1 / (r * w) * a * r = a / w) by (field; lra).
  split; [|split].
  - apply Rmult_lt_0_compat; [|exact Ap].
    apply Rdiv_lt_0_compat; [lra|]. apply Rmult_lt_0_compat; lra.
  - rewrite FR. apply Rmult_lt_reg_r with w; [lra|].
    replace (a / w * w) with a by (field; lra). lra.
  - rewrite FR. replace (a / w * w) with a by (field; lra).
    unfold a. rewrite tan_atan. field. lra.
Qed.

(** The same for every angle in (-pi, pi), zero included. *)
Lemma distortion_inverse (w r : R) :
  - PI < w < PI -> 0.01 < r ->
  0 < factor_of w r
  /\ 0.01 < factor_of w r * r
  /\ undist_of w (factor_of w r * r) = r.
Proof.
  intros Hw Hr. pose proof PI_RGT_0 as HPI.
  destruct (Rtotal_order w 0) as [N|[Z|P]].
  - rewrite <- (factor_of_opp w), <- (undist_of_opp w).
    + apply distortion_inverse_pos; lra.
    + apply Rlt_not_eq. apply tan_lt_0; lra.
  - subst w. rewrite factor_of_0, undist_of_0. lra.
  - apply distortion_inverse_pos; lra.
Qed.

Lemma norm_vscale (F : R) (p : Vec2) :
  0 <= F -> norm (vscale F p) = F * norm p.
Proof.
  intros HF. destruct p as [x y]. unfold norm, vscale. cbn [vget fst snd].
  replace (F * x * (F * x) + F * y * (F * y))
    with (F * F * (x * x + y * y)) by ring.
  rewrite sqrt_mult_alt by (apply Rle_0_sqr).
  rewrite sqrt_square by exact HF. reflexivity.
Qed.

(** Undistorting the distorted point gives the point back. *)
Lemma recover_distorted (w : R) (p : Vec2) :
  - PI < w < PI -> 0.01 < norm p ->
  let d := vscale (factor_of w (norm p)) p in
  vscale (recovery_factor w (norm d)) d = p.
Proof.
  intros Hw Hr. cbv zeta.
  destruct (distortion_inverse w (norm p) Hw Hr) as (F0 & G & U).
  rewrite norm_vscale by lra.
  unfold recovery_factor.
  destruct (Rgt_dec _ 0.01) as [_|N]; [|exfalso; apply N; exact G].
  rewrite U. set (F := factor_of w (norm p)) in *.
  destruct p as [x y]. unfold vscale. cbn [vget fst snd].
  f_equal; field; lra.
Qed.

Lemma UFBProject_value (p : Vec2) (c : ATANCamera) :
  fst (UFBProject p c)
  = pixel_of (get5 (mpvvCameraParams c) 2, get5 (mpvvCameraParams c) 3)
      (get5 (mpvvCameraParams c) 0, get5 (mpvvCameraParams c) 1)
      (vscale (factor_of (mdW c) (norm p)) p).
Proof. rewrite UFBProject_spec. reflexivity. Qed.

Lemma UFBUnProject_value (q : Vec2) (c : ATANCamera) :
  fst (UFBUnProject q c)
  = let dc := UFBdistorted_of (mpvvCameraParams c) q in
    vscale (recovery_factor (mdW c) (norm dc)) dc.
Proof. rewrite UFBUnProject_spec. reflexivity. Qed.

Lemma UFBProject_reads (p : Vec2) (c : ATANCamera) :
  mpvvCameraParams (snd (UFBProject p c)) = mpvvCameraParams c
  /\ mdW (snd (UFBProject p c)) = mdW c.
Proof. rewrite UFBProject_spec. split; reflexivity. Qed.

Lemma UFBUnProject_reads (q : Vec2) (c : ATANCamera) :
  mpvvCameraParams (snd (UFBUnProject q c)) = mpvvCameraParams c
  /\ mdW (snd (UFBUnProject q c)) = mdW c.
Proof. rewrite UFBUnProject_spec. split; reflexivity. Qed.

Lemma UFBdistorted_of_pixel_of (P : Vec5) (d : Vec2) :
  get5 P 0 <> 0 -> get5 P 1 <> 0 ->
  UFBdistorted_of P (pixel_of (get5 P 2, get5 P 3) (get5 P 0, get5 P 1) d)
  = d.
Proof.
  intros H0 H1. destruct d as [d0 d1]. unfold UFBdistorted_of, pixel_of.
  cbn [vget fst snd]. f_equal; field; assumption.
Qed.

Lemma ATANCamera_new_parameter_state (uninit : ATANCamera)
    (stored : option Vec5) (imgsize : Z * Z) :
  parameter_state (ATANCamera_new uninit stored imgsize)
  = mkParameterState
      (match stored with Some v => v | None => mvDefaultParams end)
      (IZR (fst imgsize), IZR (snd imgsize)).
Proof.
  unfold ATANCamera_new. cbv zeta.
  rewrite RefreshParams_parameter_state. reflexivity.
Qed.

(** ** A camera without distortion *)

Lemma undistorted_camera_reachable : reachable undistorted_camera.
Proof. apply reachable_step, reachable_new. Qed.

Lemma undistorted_camera_parameter_state :
  parameter_state undistorted_camera
  = mkParameterState (mkVec5 0.5 0.8 0.5 0.5 0) (640, 480).
Proof.
  unfold undistorted_camera, state_after, ATANCamera_new. cbv zeta.
  rewrite Project_parameter_state, RefreshParams_parameter_state.
  reflexivity.
Qed.

Lemma undistorted_camera_mvLastCam : mvLastCam undistorted_camera = (1, 0).
Proof.
  unfold undistorted_camera, state_after. rewrite Project_spec. reflexivity.
Qed.

(** * The properties of the specification *)

(** ** Round trip *)

(** C1, in exact arithmetic.  On a reachable state with nonzero pixel focal
    lengths and a distortion angle in (-pi, pi), for every normalized point
    [p] with radius above 0.01 (the threshold of the near-center guard):
    [UnProject] of the pixel [Project] returns is [p], and projecting that
    again gives the same pixel; likewise for [UFBProject] and
    [UFBUnProject].  The radius need not be below [mdMaxR] for this.

    The unprojection recovers [p] from the pixel alone: it does so on the
    state [Project] left and on any state [c2] of the same camera (same
    parameters, same derived state), whatever the cache of [c2] holds;
    likewise the second projection on any such state [c3]. *)
Theorem projection_round_trip (p : Vec2) (c c2 c3 : ATANCamera) :
  reachable c ->
  (mvFocal c).[0] <> 0 -> (mvFocal c).[1] <> 0 ->
  - PI < get5 (mpvvCameraParams c) 4 < PI ->
  0.01 < norm p ->
  parameter_state c2 = parameter_state c ->
  derived_state c2 = derived_state c ->
  parameter_state c3 = parameter_state c ->
  derived_state c3 = derived_state c ->
  let q := Project p c in
  let p' := UnProject (fst q) (snd q) in
  let uq := UFBProject p c in
  let up' := UFBUnProject (fst uq) (snd uq) in
  (fst p' = p
   /\ fst (Project (fst p') (snd p')) = fst q
   /\ fst up' = p
   /\ fst (UFBProject (fst up') (snd up')) = fst uq)
  /\ (fst (UnProject (fst q) c2) = p
      /\ fst (Project (fst (UnProject (fst q) c2)) c3) = fst q
      /\ fst (UFBUnProject (fst uq) c2) = p
      /\ fst (UFBProject (fst (UFBUnProject (fst uq) c2)) c3) = fst uq).
Proof.
  intros H F0 F1 Hw Hr P2 D2 P3 D3. apply reachable_refreshed in H.
  destruct (refreshed_members c H) as (F & C & I & W & _).
  cbv zeta in W. cbv zeta.
  assert (IF : mvInvFocal c = (1 / (mvFocal c).[0], 1 / (mvFocal c).[1])).
  { rewrite I, F. reflexivity. }
  assert (N0 : get5 (mpvvCameraParams c) 0 <> 0).
  { intros Z. apply F0. rewrite F. unfold focal_of. cbn [vget fst].
    change (ps_mpvvCameraParams (parameter_state c))
      with (mpvvCameraParams c).
    rewrite Z. ring. }
  assert (N1 : get5 (mpvvCameraParams c) 1 <> 0).
  { intros Z. apply F1. rewrite F. unfold focal_of. cbn [vget snd].
    change (ps_mpvvCameraParams (parameter_state c))
      with (mpvvCameraParams c).
    rewrite Z. ring. }
  assert (A : forall c', derived_state c' = derived_state c ->
                fst (UnProject (fst (Project p c)) c') = p).
  { intros c' D. rewrite UnProject_value. cbv zeta.
    unfold mvCenter, mvInvFocal, mdW. rewrite D.
    fold (mvCenter c) (mvInvFocal c) (mdW c).
    rewrite Project_value, IF, distorted_of_pixel_of by assumption.
    rewrite W. apply recover_distorted; assumption. }
  assert (A' : forall c', derived_state c' = derived_state c ->
                 fst (Project p c') = fst (Project p c)).
  { intros c' D. rewrite !Project_value.
    unfold mvCenter, mvFocal, mdW. rewrite D. reflexivity. }
  assert (B : forall c', parameter_state c' = parameter_state c ->
                derived_state c' = derived_state c ->
                fst (UFBUnProject (fst (UFBProject p c)) c') = p).
  { intros c' P D. rewrite UFBUnProject_value. cbv zeta.
    unfold mpvvCameraParams, mdW. rewrite P, D.
    fold (mpvvCameraParams c) (mdW c).
    rewrite UFBProject_value, UFBdistorted_of_pixel_of by assumption.
    rewrite W. apply recover_distorted; assumption. }
  assert (B' : forall c', parameter_state c' = parameter_state c ->
                 derived_state c' = derived_state c ->
                 fst (UFBProject p c') = fst (UFBProject p c)).
  { intros c' P D. rewrite !UFBProject_value.
    unfold mpvvCameraParams, mdW. rewrite P, D. reflexivity. }
  pose proof (Project_derived_state p c) as DP.
  pose proof (UFBProject_parameter_state p c) as PU.
  pose proof (UFBProject_derived_state p c) as DU.
  split; (split; [|split; [|split]]).
  - apply A. exact DP.
  - rewrite (A _ DP). apply A'.
    rewrite UnProject_derived_state. exact DP.
  - apply B; assumption.
  - rewrite (B _ PU DU). apply B'.
    + rewrite UFBUnProject_parameter_state. exact PU.
    + rewrite UFBUnProject_derived_state. exact DU.
  - apply A. exact D2.
  - rewrite (A _ D2). apply A'. exact D3.
  - apply B; assumption.
  - rewrite (B _ P2 D2). apply B'; assumption.
Qed.

(** The hypotheses of C1 hold, and so does its conclusion, for the default
    camera on a 640x480 image and the point (1, 0); the pixel is unprojected
    on the state a projection of the origin left, whose cache holds the
    origin, and projected again on the constructed state. *)
Lemma projection_round_trip_witness :
  let c := ATANCamera_new zero_object None (640, 480)%Z in
  let c2 := snd (Project (0, 0) c) in
  (reachable c
   /\ (mvFocal c).[0] <> 0
   /\ (mvFocal c).[1] <> 0
   /\ - PI < get5 (mpvvCameraParams c) 4 < PI
   /\ 0.01 < norm (1, 0)
   /\ parameter_state c2 = parameter_state c
   /\ derived_state c2 = derived_state c)
  /\ mvLastCam c2 = (0, 0)
  /\ fst (UnProject (fst (Project (1, 0) c)) (snd (Project (1, 0) c)))
     = (1, 0)
  /\ fst (UnProject (fst (Project (1, 0) c)) c2) = (1, 0)
  /\ fst (Project (fst (UnProject (fst (Project (1, 0) c)) c2)) c)
     = fst (Project (1, 0) c).
Proof.
  cbv zeta.
  pose proof (reachable_new zero_object None (640, 480)%Z) as R.
  pose proof (ATANCamera_new_parameter_state zero_object None (640, 480)%Z)
    as S.
  destruct (refreshed_members _ (reachable_refreshed _ R)) as (F & _).
  assert (A0 : (mvFocal (ATANCamera_new zero_object None (640, 480)%Z)).[0]
               <> 0).
  { rewrite F, S. unfold focal_of, mvDefaultParams.
    cbn [ps_mpvvCameraParams ps_mvImageSize get5 e0 vget fst snd]. lra. }
  assert (A1 : (mvFocal (ATANCamera_new zero_object None (640, 480)%Z)).[1]
               <> 0).
  { rewrite F, S. unfold focal_of, mvDefaultParams.
    cbn [ps_mpvvCameraParams ps_mvImageSize get5 e1 vget fst snd]. lra. }
  assert (AW : - PI < get5 (mpvvCameraParams
                              (ATANCamera_new zero_object None (640, 480)%Z))
                            4 < PI).
  { unfold mpvvCameraParams. rewrite S. unfold mvDefaultParams.
    cbn [ps_mpvvCameraParams get5 e4]. pose proof PI2_1. lra. }
  assert (AN : 0.01 < norm (1, 0)) by (rewrite norm_unit_x; lra).
  pose proof (Project_parameter_state (0, 0)
                (ATANCamera_new zero_object None (640, 480)%Z)) as P2.
  pose proof (Project_derived_state (0, 0)
                (ATANCamera_new zero_object None (640, 480)%Z)) as D2.
  assert (L2 : mvLastCam (snd (Project (0, 0)
                 (ATANCamera_new zero_object None (640, 480)%Z))) = (0, 0))
    by (rewrite Project_spec; reflexivity).
  pose proof (projection_round_trip (1, 0) _ _ _ R A0 A1 AW AN P2 D2
                eq_refl eq_refl) as T.
  exact (conj (conj R (conj A0 (conj A1 (conj AW (conj AN (conj P2 D2))))))
           (conj L2 (conj (proj1 (proj1 T))
              (conj (proj1 (proj2 T)) (proj1 (proj2 (proj2 T))))))).
Defined.

(** ** Analytic Jacobian *)

(** C2.  On every reachable state, [GetProjectionDerivs] returns the matrix
    M(0,0) = fx (dFdx x + factor), M(0,1) = fx (dFdy x),
    M(1,0) = fy (dFdx y), M(1,1) = fy (dFdy y + factor), where [x], [y] and
    [factor] are the cached point and factor, k = 2 tan(w/2), [ru] is the
    cached undistorted radius times the distortion-enabled flag, and dFdx,
    dFdy are 0 when ru < 0.01 and (k/w / (1 + k^2 ru^2) - factor) x / ru^2
    (with y for x) otherwise. *)
Theorem GetProjectionDerivs_matrix (u : Mat) (c : ATANCamera) :
  reachable c ->
  let w := get5 (mpvvCameraParams c) 4 in
  let k := 2 * tan (w / 2) in
  let x := (mvLastCam c).[0] in
  let y := (mvLastCam c).[1] in
  let factor := mdLastFactor c in
  let ru := mdLastR c * mdDistortionEnabled c in
  let fx := (mvFocal c).[0] in
  let fy := (mvFocal c).[1] in
  let dFdx :=
    if Rlt_dec ru 0.01 then 0
    else (/ w * k / (1 + k ^ 2 * ru ^ 2) - factor) * x / ru ^ 2 in
  let dFdy :=
    if Rlt_dec ru 0.01 then 0
    else (/ w * k / (1 + k ^ 2 * ru ^ 2) - factor) * y / ru ^ 2 in
  let M := fst (GetProjectionDerivs u c) in
  M 0%nat 0%nat = fx * (dFdx * x + factor)
  /\ M 0%nat 1%nat = fx * (dFdy * x)
  /\ M 1%nat 0%nat = fy * (dFdx * y)
  /\ M 1%nat 1%nat = fy * (dFdy * y + factor).
Proof.
  intros H. apply reachable_refreshed in H.
  destruct (refreshed_members c H) as (_ & _ & _ & _ & K & WI & EN & _).
  cbv zeta in K, WI, EN. cbv zeta.
  rewrite GetProjectionDerivs_value. cbv zeta.
  unfold mset. cbn [Nat.eqb andb].
  destruct (Rlt_dec (mdLastR c * mdDistortionEnabled c) 0.01) as [L|L].
  - repeat split.
  - assert (W : get5 (mpvvCameraParams c) 4 <> 0).
    { intros Z. destruct (Rneq_dec _ 0) as [N|_]; [contradiction|].
      rewrite EN in L. apply L. lra. }
    destruct (Rneq_dec _ 0) as [_|Z]; [|contradiction].
    set (w := get5 (mpvvCameraParams c) 4) in *.
    set (ru := mdLastR c * mdDistortionEnabled c) in *.
    rewrite K, WI.
    replace (1 + (2 * tan (w / 2)) ^ 2 * ru ^ 2)
      with (1 + 2 * tan (w / 2) * (2 * tan (w / 2)) * ru * ru) by ring.
    replace (ru ^ 2) with (ru * ru) by ring.
    replace (/ w) with (1 / w) by (unfold Rdiv; ring).
    repeat split.
Qed.

(** The hypothesis of C2 holds, and so does its conclusion, for the default
    camera on a 640x480 image right after construction. *)
Lemma GetProjectionDerivs_matrix_witness :
  let c := ATANCamera_new zero_object None (640, 480)%Z in
  let factor := mdLastFactor c in
  let ru := mdLastR c * mdDistortionEnabled c in
  let k := 2 * tan (get5 (mpvvCameraParams c) 4 / 2) in
  let dFdx :=
    if Rlt_dec ru 0.01 then 0
    else (/ get5 (mpvvCameraParams c) 4 * k / (1 + k ^ 2 * ru ^ 2) - factor)
         * (mvLastCam c).[0] / ru ^ 2 in
  reachable c
  /\ fst (GetProjectionDerivs (fun _ _ => 0) c) 0%nat 0%nat
     = (mvFocal c).[0] * (dFdx * (mvLastCam c).[0] + factor).
Proof.
  cbv zeta.
  pose proof (reachable_new zero_object None (640, 480)%Z) as R.
  exact (conj R (proj1 (GetProjectionDerivs_matrix (fun _ _ => 0) _ R))).
Defined.

(** ** Validity boundary *)

(** C3.  On every reachable state, [Project] flags its argument invalid
    exactly when its radius strictly exceeds [mdMaxR], and [mdMaxR] is 1.5
    times what [invrtrans] makes of the norm of the farthest image corner
    (max(c, 1 - c) / f on each axis); a point with radius exactly [mdMaxR]
    is not flagged. *)
Theorem validity_flag_boundary (p : Vec2) (c : ATANCamera) :
  reachable c ->
  let P := mpvvCameraParams c in
  let corner : Vec2 :=
    (Rmax (get5 P 2) (1 - get5 P 2) / get5 P 0,
     Rmax (get5 P 3) (1 - get5 P 3) / get5 P 1) in
  (mbInvalid (snd (Project p c)) = true <-> norm p > mdMaxR c)
  /\ mdMaxR c = 1.5 * fst (invrtrans (norm corner) c)
  /\ (norm p = mdMaxR c -> mbInvalid (snd (Project p c)) = false).
Proof.
  intros H. apply reachable_refreshed in H.
  destruct (refreshed_members c H) as (_ & _ & _ & W & _ & _ & _ & M).
  cbv zeta in W, M. cbv zeta.
  assert (B : mbInvalid (snd (Project p c)) = Rgtb (norm p) (mdMaxR c)).
  { rewrite Project_spec. reflexivity. }
  rewrite B. split; [apply Rgtb_true|]. split.
  - rewrite invrtrans_spec, W. exact M.
  - intros E. unfold Rgtb. destruct (Rgt_dec _ _) as [G|_]; [lra|reflexivity].
Qed.

(** The hypothesis of C3 holds, and so does its conclusion, for the default
    camera on a 640x480 image and the origin. *)
Lemma validity_flag_boundary_witness :
  let c := ATANCamera_new zero_object None (640, 480)%Z in
  reachable c
  /\ (mbInvalid (snd (Project (0, 0) c)) = true
      <-> norm (0, 0) > mdMaxR c).
Proof.
  cbv zeta.
  pose proof (reachable_new zero_object None (640, 480)%Z) as R.
  exact (conj R (proj1 (validity_flag_boundary (0, 0) _ R))).
Defined.

(** ** Zero distortion *)

(** C4.  On a reachable state whose distortion parameter [w] is 0:
    [Project] is the pinhole map pixel = center + focal * p; [UnProject] is
    the affine map (q - center) * (1 / focal), which inverts it when the
    focal lengths are not zero; the distortion transform is the identity
    ([rtrans_factor] returns 1, [invrtrans] returns its argument, [mdWinv]
    is 0); and the refresh of the distortion scalars, [rtrans_factor],
    [invrtrans], [Project] and [GetProjectionDerivs] evaluate no division,
    while the only divisors of [UnProject] are not zero. *)
Theorem zero_distortion_is_pinhole (c : ATANCamera) :
  reachable c ->
  get5 (mpvvCameraParams c) 4 = 0 ->
  let cx := (mvCenter c).[0] in
  let cy := (mvCenter c).[1] in
  let fx := (mvFocal c).[0] in
  let fy := (mvFocal c).[1] in
  (forall p, fst (Project p c) = (cx + fx * p.[0], cy + fy * p.[1]))
  /\ (forall q, fst (UnProject q c)
                = ((q.[0] - cx) * (1 / fx), (q.[1] - cy) * (1 / fy)))
  /\ (fx <> 0 -> fy <> 0 ->
      (forall p, fst (UnProject (fst (Project p c)) (snd (Project p c))) = p)
      /\ (forall q, fst (Project (fst (UnProject q c)) (snd (UnProject q c)))
                    = q))
  /\ (forall r, fst (rtrans_factor r c) = 1)
  /\ (forall rd, fst (invrtrans rd c) = rd)
  /\ mdWinv c = 0
  /\ divisors (RefreshParams_distortion c) = divisors c
  /\ (forall r, divisors (snd (rtrans_factor r c)) = divisors c)
  /\ (forall rd, divisors (snd (invrtrans rd c)) = divisors c)
  /\ (forall p, divisors (snd (Project p c)) = divisors c)
  /\ (forall u, divisors (snd (GetProjectionDerivs u c)) = divisors c)
  /\ (forall q, no_division_by_zero c (snd (UnProject q c))).
Proof.
  intros H Hw. apply reachable_refreshed in H.
  destruct (refreshed_members c H) as (F & C & I & W & _ & WI & EN & _).
  cbv zeta in W, WI, EN. rewrite Hw in W, WI, EN.
  destruct (Rneq_dec 0 0) as [N|_]; [contradiction|].
  cbv zeta.
  assert (PV : forall p c', mvCenter c' = mvCenter c -> mvFocal c' = mvFocal c ->
                 mdW c' = 0 ->
                 fst (Project p c')
                 = pixel_of (mvCenter c) (mvFocal c) p).
  { intros p c' CC CF CW.
    rewrite Project_value, CC, CF, CW, factor_of_0, vscale_1. reflexivity. }
  assert (UV : forall q c', mvCenter c' = mvCenter c ->
                 mvInvFocal c' = mvInvFocal c -> mdW c' = 0 ->
                 fst (UnProject q c')
                 = distorted_of (mvCenter c) (mvInvFocal c) q).
  { intros q c' CC CI CW.
    rewrite UnProject_value, CC, CI, CW. cbv zeta.
    rewrite recovery_factor_0, vscale_1. reflexivity. }
  assert (IF : mvInvFocal c = (1 / (mvFocal c).[0], 1 / (mvFocal c).[1])).
  { rewrite I, F. reflexivity. }
  assert (PD : forall p, derived_state (snd (Project p c)) = derived_state c)
    by (intros; apply Project_derived_state).
  assert (UD : forall q, derived_state (snd (UnProject q c))
                         = derived_state c)
    by (intros; apply UnProject_derived_state).
  split.
  { intros p. rewrite PV; [reflexivity|reflexivity|reflexivity|exact W]. }
  split.
  { intros q. rewrite UV, IF; [reflexivity|reflexivity|reflexivity|exact W]. }
  split.
  { intros F0 F1. split.
    - intros p. rewrite (PV p c), UV; try reflexivity; try exact W.
      + rewrite IF. apply distorted_of_pixel_of; assumption.
      + unfold mvCenter. rewrite PD. reflexivity.
      + unfold mvInvFocal. rewrite PD. reflexivity.
      + unfold mdW. rewrite PD. exact W.
    - intros q. rewrite (UV q c), PV; try reflexivity; try exact W.
      + rewrite IF. apply pixel_of_distorted_of; assumption.
      + unfold mvCenter. rewrite UD. reflexivity.
      + unfold mvFocal. rewrite UD. reflexivity.
      + unfold mdW. rewrite UD. exact W. }
  split.
  { intros r. rewrite rtrans_factor_spec, W. apply factor_of_0. }
  split.
  { intros rd. rewrite invrtrans_spec, W. apply undist_of_0. }
  split.
  { exact WI. }
  split.
  { rewrite RefreshParams_distortion_spec. cbv zeta. rewrite Hw.
    destruct (Rneq_dec 0 0) as [N|_]; [contradiction|reflexivity]. }
  split.
  { intros r. rewrite rtrans_factor_spec, W, factor_divs_0. reflexivity. }
  split.
  { intros rd. rewrite invrtrans_spec, W, undist_divs_0. reflexivity. }
  split.
  { intros p. rewrite Project_spec. cbv zeta. rewrite W, factor_divs_0.
    reflexivity. }
  split.
  { intros u. unfold GetProjectionDerivs. cbv zeta. rewrite EN.
    destruct (Rlt_dec (mdLastR c * 0) 0.01) as [_|N]; [reflexivity|].
    exfalso. apply N. lra. }
  intros q. rewrite UnProject_spec. cbv zeta. rewrite W, undist_divs_0.
  eexists. split; [cam_red; reflexivity|].
  unfold recovery_divs. rewrite recovery_factor_0.
  destruct (Rgt_dec _ 0.01) as [G|_]; repeat constructor; lra.
Qed.

(** The hypotheses of C4 hold, and so does its conclusion, for the default
    camera on a 640x480 image after [DisableRadialDistortion]. *)
Lemma zero_distortion_is_pinhole_witness :
  let c := DisableRadialDistortion
             (ATANCamera_new zero_object None (640, 480)%Z) in
  reachable c
  /\ get5 (mpvvCameraParams c) 4 = 0
  /\ forall p,
       fst (Project p c)
       = ((mvCenter c).[0] + (mvFocal c).[0] * p.[0],
          (mvCenter c).[1] + (mvFocal c).[1] * p.[1]).
Proof.
  cbv zeta.
  pose proof (reachable_step OpDisableRadialDistortion _
                (reachable_new zero_object None (640, 480)%Z)) as R.
  cbn [state_after] in R.
  assert (W : get5 (mpvvCameraParams
                      (DisableRadialDistortion
                         (ATANCamera_new zero_object None (640, 480)%Z)))
                   4 = 0).
  { unfold DisableRadialDistortion, mpvvCameraParams. cbv zeta.
    rewrite RefreshParams_parameter_state. reflexivity. }
  exact (conj R (conj W (proj1 (zero_distortion_is_pinhole _ R W)))).
Defined.

(** ** Recovery factor *)


(** ** Numeric Jacobian: restore and finite differences *)

(** C6, as the code has it.  [GetCameraParameterDerivs] leaves the intrinsic
    parameter vector (and the image size) as at entry, and its final state is
    a refresh from that parameter state; column [i] of the returned matrix
    is the projection of the cached point under the parameter vector with
    component [i] perturbed by 0.001, minus the baseline projection, divided
    by 0.001: for every column except the last one when [w = 0]. *)
Theorem GetCameraParameterDerivs_restores_and_differences
    (u : Mat) (c : ATANCamera) :
  let v2Cam := mvLastCam c in
  let baseline := fst (Project v2Cam c) in
  let perturbed_projection i :=
    fst (Project v2Cam (with_perturbed_parameter i c)) in
  let r := GetCameraParameterDerivs u c in
  mpvvCameraParams (snd r) = mpvvCameraParams c
  /\ mvImageSize (snd r) = mvImageSize c
  /\ (exists c'', parameter_state c'' = parameter_state c
                  /\ snd r = RefreshParams c'')
  /\ forall i, (i < NUMTRACKERCAMPARAMETERS)%nat ->
       (i = (NUMTRACKERCAMPARAMETERS - 1)%nat ->
        get5 (mpvvCameraParams c) (NUMTRACKERCAMPARAMETERS - 1) <> 0) ->
       fst r 0%nat i = ((perturbed_projection i).[0] - baseline.[0]) / 0.001
       /\ fst r 1%nat i
          = ((perturbed_projection i).[1] - baseline.[1]) / 0.001.
Proof.
  cbv zeta.
  destruct (GetCameraParameterDerivs_spec u c) as ((c'' & S & E) & A & B & _).
  assert (P : parameter_state (snd (GetCameraParameterDerivs u c))
              = parameter_state c).
  { rewrite E, RefreshParams_parameter_state. exact S. }
  change (NUMTRACKERCAMPARAMETERS - 1)%nat with 4%nat in *.
  repeat split.
  - unfold mpvvCameraParams. rewrite P. reflexivity.
  - unfold mvImageSize. rewrite P. reflexivity.
  - exists c''. split; assumption.
  - destruct (Nat.eq_dec i 4) as [->|N].
    + rewrite (proj1 (B (H0 eq_refl))), finite_difference_Project.
      reflexivity.
    + assert (Hi : (i < NUMTRACKERCAMPARAMETERS - 1)%nat)
        by (unfold NUMTRACKERCAMPARAMETERS in *; lia).
      rewrite (proj1 (A i Hi)), finite_difference_Project.
      reflexivity.
  - destruct (Nat.eq_dec i 4) as [->|N].
    + rewrite (proj2 (B (H0 eq_refl))), finite_difference_Project.
      reflexivity.
    + assert (Hi : (i < NUMTRACKERCAMPARAMETERS - 1)%nat)
        by (unfold NUMTRACKERCAMPARAMETERS in *; lia).
      rewrite (proj2 (A i Hi)), finite_difference_Project.
      reflexivity.
Qed.

(** C6 as stated fails for the last column when [w = 0]: the routine
    returns 0 there, while the finite difference the claim describes is the
    change of the projection of (1, 0) when [w] goes from 0 to 0.001, divided
    by 0.001, which is negative. *)
Lemma GetCameraParameterDerivs_last_column_counterexample :
  let c := undistorted_camera in
  let v2Cam := mvLastCam c in
  let claimed :=
    ((fst (Project v2Cam (with_perturbed_parameter 4 c))).[0]
     - (fst (Project v2Cam c)).[0]) / 0.001 in
  fst (GetCameraParameterDerivs (fun _ _ => 0) c) 0%nat 4%nat = 0
  /\ claimed < 0
  /\ fst (GetCameraParameterDerivs (fun _ _ => 0) c) 0%nat 4%nat <> claimed.
Proof.
  cbv zeta.
  assert (Z : fst (GetCameraParameterDerivs (fun _ _ => 0) undistorted_camera)
                0%nat 4%nat = 0).
  { destruct (GetCameraParameterDerivs_spec (fun _ _ => 0) undistorted_camera)
      as (_ & _ & _ & Z).
    apply Z. unfold mpvvCameraParams.
    rewrite undistorted_camera_parameter_state. reflexivity. }
  assert (N : ((fst (Project (mvLastCam undistorted_camera)
                       (with_perturbed_parameter 4 undistorted_camera))).[0]
               - (fst (Project (mvLastCam undistorted_camera)
                         undistorted_camera)).[0]) / 0.001 < 0).
  { unfold with_perturbed_parameter.
    rewrite Project_after_refresh,
      (Project_refreshed _ _
         (reachable_refreshed _ undistorted_camera_reachable)).
    rewrite undistorted_camera_mvLastCam.
    pose proof undistorted_camera_parameter_state as S.
    cam_red. cam_red in S. rewrite S.
    unfold project_with, pixel_of, center_of, focal_of, vscale, perturbed,
      factor_of.
    cbn [ps_mpvvCameraParams ps_mvImageSize get5 set5 e0 e1 e2 e3 e4 vget fst
         snd].
    rewrite norm_unit_x.
    destruct (Req_dec_T 0 0) as [_|N]; [|contradiction].
    destruct (Req_dec_T (0 + 0.001) 0) as [E|_]; [lra|].
    destruct (Rlt_dec 1 0.001) as [E|_]; [lra|].
    assert (A : atan (2 * 1 * tan ((0 + 0.001) / 2)) < 0.001).
    { replace (2 * 1 * tan ((0 + 0.001) / 2)) with (2 * tan (0.001 / 2))
        by (f_equal; f_equal; lra).
      apply atan_two_tan_half_lt. pose proof PI2_1. lra. }
    lra. }
  split; [exact Z|]. split; [exact N|]. rewrite Z. lra.
Qed.

(** ** Numeric Jacobian: the distortion column *)

(** C7.  When the distortion parameter [w] (the last component of the
    parameter vector) is 0, the iteration of the loop for the last parameter
    changes neither the matrix nor the state reached after the iterations
    before it (the perturbation is skipped), and the last column of the
    returned matrix is zero in both rows. *)
Theorem last_column_zero_when_distortion_disabled (u : Mat) (c : ATANCamera) :
  get5 (mpvvCameraParams c) (NUMTRACKERCAMPARAMETERS - 1) = 0 ->
  let v2Cam := mvLastCam c in
  let out := Project v2Cam c in
  let body := GetCameraParameterDerivs_body (mpvvCameraParams c) v2Cam
                (fst out) in
  let before_last :=
    fold_left (fun mc i => body i mc)
              (seq 0 (NUMTRACKERCAMPARAMETERS - 1)) (u, snd out) in
  body (NUMTRACKERCAMPARAMETERS - 1)%nat before_last = before_last
  /\ fst (GetCameraParameterDerivs u c) 0%nat
         (NUMTRACKERCAMPARAMETERS - 1)%nat = 0
  /\ fst (GetCameraParameterDerivs u c) 1%nat
         (NUMTRACKERCAMPARAMETERS - 1)%nat = 0.
Proof.
  intros Hw. cbv zeta. split.
  - destruct (loop_before_last (parameter_state c) (mvLastCam c)
                (fst (Project (mvLastCam c) c)) u
                (snd (Project (mvLastCam c) c))
                (Project_parameter_state _ _)) as (c'' & S & L).
    change (mpvvCameraParams c)
      with (ps_mpvvCameraParams (parameter_state c)).
    rewrite L. apply body_skips.
    destruct (mdW_refreshed _ _ c'' S eq_refl) as [_ ->]. exact Hw.
  - destruct (GetCameraParameterDerivs_spec u c) as (_ & _ & _ & Z).
    exact (Z Hw).
Qed.

(** The hypothesis of C7 holds, and so does its conclusion, for the default
    camera on a 640x480 image after [DisableRadialDistortion]. *)
Lemma last_column_zero_when_distortion_disabled_witness :
  let c := DisableRadialDistortion
             (ATANCamera_new zero_object None (640, 480)%Z) in
  get5 (mpvvCameraParams c) (NUMTRACKERCAMPARAMETERS - 1) = 0
  /\ fst (GetCameraParameterDerivs (fun _ _ => 1) c) 0%nat 4%nat = 0
  /\ fst (GetCameraParameterDerivs (fun _ _ => 1) c) 1%nat 4%nat = 0.
Proof.
  cbv zeta.
  assert (W : get5 (mpvvCameraParams
                      (DisableRadialDistortion
                         (ATANCamera_new zero_object None (640, 480)%Z)))
                   (NUMTRACKERCAMPARAMETERS - 1) = 0).
  { unfold DisableRadialDistortion, mpvvCameraParams. cbv zeta.
    rewrite RefreshParams_parameter_state. reflexivity. }
  exact (conj W (proj2 (last_column_zero_when_distortion_disabled
                          (fun _ _ => 1) _ W))).
Defined.

(** ** The default camera *)

(** C8.  With the default parameters (0.5, 0.8, 0.5, 0.5, 0.07) and a
    640x480 image, [Project] maps (0, 0) to
    (0.5 * 640 - 0.5, 0.5 * 480 - 0.5) = (319.5, 239.5), and [UnProject] maps
    that pixel back to (0, 0), exactly.  (The proof does not look at what
    the distortion transform returns: the factor multiplies the zero vector,
    and the distorted radius 0 is below the guard of [UnProject].) *)
Theorem default_camera_principal_point (uninit : ATANCamera) :
  let c := ATANCamera_new uninit None (640, 480)%Z in
  mpvvCameraParams c = mkVec5 0.5 0.8 0.5 0.5 0.07
  /\ mvImageSize c = (640, 480)
  /\ fst (Project (0, 0) c) = (0.5 * 640 - 0.5, 0.5 * 480 - 0.5)
  /\ fst (Project (0, 0) c) = (319.5, 239.5)
  /\ fst (UnProject (319.5, 239.5) c) = (0, 0)
  /\ fst (UnProject (fst (Project (0, 0) c)) (snd (Project (0, 0) c)))
     = (0, 0).
Proof.
  cbv zeta.
  set (c := ATANCamera_new uninit None (640, 480)%Z).
  assert (R : reachable c) by apply reachable_new.
  assert (S : parameter_state c
              = mkParameterState mvDefaultParams (640, 480)).
  { unfold c, ATANCamera_new. cbv zeta.
    rewrite RefreshParams_parameter_state. reflexivity. }
  destruct (refreshed_members c (reachable_refreshed c R))
    as (F & C & I & W & _).
  cbv zeta in W.
  assert (PV : fst (Project (0, 0) c) = (319.5, 239.5)).
  { rewrite Project_value, F, C, S.
    generalize (factor_of (mdW c) (norm (0, 0))). intros f.
    unfold pixel_of, center_of, focal_of, vscale, mvDefaultParams.
    cbn [ps_mpvvCameraParams ps_mvImageSize get5 e0 e1 e2 e3 vget fst snd].
    f_equal; lra. }
  assert (UV : forall c', mvCenter c' = mvCenter c ->
                 mvInvFocal c' = mvInvFocal c ->
                 fst (UnProject (319.5, 239.5) c') = (0, 0)).
  { intros c' CC CI. rewrite UnProject_value, CC, CI, C, I, S. cbv zeta.
    assert (D : distorted_of
                  (center_of (mkParameterState mvDefaultParams (640, 480)))
                  (invfocal_of (mkParameterState mvDefaultParams (640, 480)))
                  (319.5, 239.5) = (0, 0)).
    { unfold distorted_of, center_of, invfocal_of, focal_of, mvDefaultParams.
      cbn [ps_mpvvCameraParams ps_mvImageSize get5 e0 e1 e2 e3 vget fst snd].
      f_equal; lra. }
    rewrite D, norm_origin, recovery_factor_origin.
    unfold vscale. cbn [vget fst snd]. f_equal; lra. }
  repeat split.
  - unfold mpvvCameraParams. rewrite S. unfold mvDefaultParams.
    cbn [ps_mpvvCameraParams]. f_equal. lra.
  - unfold mvImageSize. rewrite S. reflexivity.
  - rewrite PV. f_equal; lra.
  - exact PV.
  - apply UV; reflexivity.
  - rewrite PV. apply UV.
    + unfold mvCenter. rewrite Project_derived_state. reflexivity.
    + unfold mvInvFocal. rewrite Project_derived_state. reflexivity.
Qed.

(** ** Last-operation cache *)

(** C9.  A parameter refresh overwrites the last-operation cache: after
    [RefreshParams], and so after construction, [SetImageSize],
    [UpdateParams], [DisableRadialDistortion], every iteration of the loop
    of [GetCameraParameterDerivs] that is not skipped (it ends with the
    refresh of the restore step) and [GetCameraParameterDerivs] itself, the
    cached pixel is the corner (-0.5, height - 0.5), the cache is the one
    [UnProject] of that corner leaves, whatever was projected before, and
    [GetProjectionDerivs] returns what it returns right after that
    [UnProject]. *)
Theorem refresh_overwrites_last_operation_cache (c : ATANCamera) :
  cache_holds_corner (RefreshParams c)
  /\ (forall stored imgsize,
        cache_holds_corner (ATANCamera_new c stored imgsize))
  /\ (forall v, cache_holds_corner (SetImageSize v c))
  /\ (forall sz, cache_holds_corner (SetImageSize_i sz c))
  /\ (forall v, cache_holds_corner (UpdateParams v c))
  /\ cache_holds_corner (DisableRadialDistortion c)
  /\ (forall vNNormal v2Cam v2Out i m,
        ((i =? NUMTRACKERCAMPARAMETERS - 1)%nat && Reqb (mdW c) 0)%bool
        = false ->
        cache_holds_corner
          (snd (GetCameraParameterDerivs_body vNNormal v2Cam v2Out i (m, c))))
  /\ (forall u, cache_holds_corner (snd (GetCameraParameterDerivs u c)))
  /\ (forall p v, cache_holds_corner (UpdateParams v (snd (Project p c)))).
Proof.
  do 6 (split; [intros; apply RefreshParams_cache_holds_corner|]).
  split; [|split; intros; [|apply RefreshParams_cache_holds_corner]].
  - intros vNNormal v2Cam v2Out i m E.
    unfold GetCameraParameterDerivs_body. rewrite E. cbv zeta.
    destruct (Project v2Cam _) as [vB cb]. unfold vdiv. cbn [fst snd].
    apply RefreshParams_cache_holds_corner.
  - destruct (GetCameraParameterDerivs_spec u c) as ((c'' & _ & ->) & _).
    apply RefreshParams_cache_holds_corner.
Qed.

(** For instance: after [Project] at (1, 0) on the camera
    (0.5, 0.8, 0.5, 0.5, 0) with a 640x480 image, an update of the
    parameters by the zero vector leaves (-1, 0.625), the unprojection of
    the corner (-0.5, 479.5), as the cached point. *)
Lemma refresh_forgets_projected_point :
  mvLastCam undistorted_camera = (1, 0)
  /\ mvLastIm (UpdateParams (all5 0) undistorted_camera) = (-0.5, 479.5)
  /\ mvLastCam (UpdateParams (all5 0) undistorted_camera) = (-1, 0.625).
Proof.
  set (c' := UpdateParams (all5 0) undistorted_camera).
  assert (S : parameter_state c'
              = mkParameterState
                  (vadd5 (mkVec5 0.5 0.8 0.5 0.5 0) (all5 0)) (640, 480)).
  { unfold c', UpdateParams. cbv zeta.
    rewrite RefreshParams_parameter_state.
    pose proof undistorted_camera_parameter_state as U.
    cam_red. cam_red in U. rewrite U. reflexivity. }
  assert (H : refreshed c') by apply refreshed_RefreshParams.
  destruct (refreshed_members c' H) as (_ & C & I & W & _).
  cbv zeta in W.
  destruct (RefreshParams_cache_holds_corner
              (set_mpvvCameraParams
                 (vadd5 (mpvvCameraParams undistorted_camera) (all5 0))
                 undistorted_camera)) as (Q & V & _).
  fold (UpdateParams (all5 0) undistorted_camera) in Q, V. fold c' in Q, V.
  assert (HS : mvImageSize c' = (640, 480))
    by (unfold mvImageSize; rewrite S; reflexivity).
  rewrite HS in Q, V. cbn [vget snd] in Q, V.
  split; [apply undistorted_camera_mvLastCam|]. split.
  - rewrite Q. f_equal. lra.
  - rewrite V, UnProject_value, C, I, W. cbv zeta.
    unfold mpvvCameraParams. rewrite S.
    unfold distorted_of, center_of, invfocal_of, focal_of, vadd5, all5.
    cbn [ps_mpvvCameraParams ps_mvImageSize get5 e0 e1 e2 e3 e4 vget fst snd].
    replace (0 + 0) with 0 by lra. rewrite recovery_factor_0.
    unfold vscale. cbn [vget fst snd]. f_equal; lra.
Qed.

(** ** Validity flag *)

(** C10.  The validity flag [mbInvalid] is written only by [Project] and
    [UFBProject], which set it to [r > mdMaxR] for the radius [r] of their
    argument.  [UnProject] and [UFBUnProject] leave it as it was for every
    pixel, also when the undistorted radius they recover exceeds [mdMaxR],
    so after a projection followed by an unprojection the flag is still the
    one the projection wrote; the refresh, the mutators of the parameter
    state and [GetProjectionDerivs] leave it as it was too. *)
Theorem validity_flag_written_only_by_projections (c : ATANCamera) :
  (forall q, mbInvalid (snd (UnProject q c)) = mbInvalid c)
  /\ (forall q, mbInvalid (snd (UFBUnProject q c)) = mbInvalid c)
  /\ (forall q, mdLastR (snd (UnProject q c)) > mdMaxR c ->
                mbInvalid (snd (UnProject q c)) = mbInvalid c)
  /\ (forall q, mdLastR (snd (UFBUnProject q c)) > mdMaxR c ->
                mbInvalid (snd (UFBUnProject q c)) = mbInvalid c)
  /\ (forall p, mbInvalid (snd (Project p c)) = Rgtb (norm p) (mdMaxR c))
  /\ (forall p, mbInvalid (snd (UFBProject p c)) = Rgtb (norm p) (mdMaxR c))
  /\ (forall p q, mbInvalid (snd (UnProject q (snd (Project p c))))
                  = mbInvalid (snd (Project p c)))
  /\ (forall p q, mbInvalid (snd (UFBUnProject q (snd (UFBProject p c))))
                  = mbInvalid (snd (UFBProject p c)))
  /\ mbInvalid (RefreshParams c) = mbInvalid c
  /\ (forall v, mbInvalid (UpdateParams v c) = mbInvalid c)
  /\ (forall v, mbInvalid (SetImageSize v c) = mbInvalid c)
  /\ mbInvalid (DisableRadialDistortion c) = mbInvalid c
  /\ (forall u, mbInvalid (snd (GetProjectionDerivs u c)) = mbInvalid c).
Proof.
  repeat split; intros.
  - apply UnProject_mbInvalid.
  - apply UFBUnProject_mbInvalid.
  - apply UnProject_mbInvalid.
  - apply UFBUnProject_mbInvalid.
  - rewrite Project_spec. reflexivity.
  - rewrite UFBProject_spec. reflexivity.
  - apply UnProject_mbInvalid.
  - apply UFBUnProject_mbInvalid.
  - apply RefreshParams_mbInvalid.
  - unfold UpdateParams. cbv zeta. rewrite RefreshParams_mbInvalid.
    reflexivity.
  - unfold SetImageSize. cbv zeta. rewrite RefreshParams_mbInvalid.
    reflexivity.
  - unfold DisableRadialDistortion. cbv zeta. rewrite RefreshParams_mbInvalid.
    reflexivity.
  - rewrite GetProjectionDerivs_frame. reflexivity.
Qed.

(** * Further reasoning about the embedding

    Closed forms and auxiliary facts for the properties of the last part. *)

(** ** The caches the projections leave *)

(** What [Project] leaves in the cache. *)
Lemma Project_cache (p : Vec2) (c : ATANCamera) :
  let c' := snd (Project p c) in
  let f := factor_of (mdW c) (norm p) in
  mvLastCam c' = p
  /\ mdLastR c' = norm p
  /\ mdLastFactor c' = f
  /\ mdLastDistR c' = f * norm p
  /\ mvLastDistCam c' = vscale f p
  /\ mvLastIm c' = fst (Project p c).
Proof. cbv zeta. rewrite Project_spec. repeat split. Qed.

Lemma Project_derived_members (p : Vec2) (c : ATANCamera) :
  let c' := snd (Project p c) in
  mvFocal c' = mvFocal c
  /\ md2Tan c' = md2Tan c
  /\ mdWinv c' = mdWinv c
  /\ mdDistortionEnabled c' = mdDistortionEnabled c
  /\ mdW c' = mdW c.
Proof. cbv zeta. rewrite Project_spec. repeat split. Qed.

Lemma Project_mbInvalid (p : Vec2) (c : ATANCamera) :
  mbInvalid (snd (Project p c)) = Rgtb (norm p) (mdMaxR c).
Proof. rewrite Project_spec. reflexivity. Qed.

(** What [UnProject] leaves in the cache. *)
Lemma UnProject_cache (q : Vec2) (c : ATANCamera) :
  let c' := snd (UnProject q c) in
  let dc := distorted_of (mvCenter c) (mvInvFocal c) q in
  mvLastIm c' = q
  /\ mvLastDistCam c' = dc
  /\ mdLastDistR c' = norm dc
  /\ mdLastR c' = undist_of (mdW c) (norm dc)
  /\ mdLastFactor c' = 1 / recovery_factor (mdW c) (norm dc)
  /\ mvLastCam c' = fst (UnProject q c).
Proof. cbv zeta. rewrite UnProject_spec. repeat split. Qed.

(** What [UFBProject] leaves in the cache and in the flag. *)
Lemma UFBProject_cache (p : Vec2) (c : ATANCamera) :
  let c' := snd (UFBProject p c) in
  let f := factor_of (mdW c) (norm p) in
  mvLastCam c' = p
  /\ mdLastR c' = norm p
  /\ mdLastFactor c' = f
  /\ mdLastDistR c' = f * norm p
  /\ mvLastDistCam c' = vscale f p
  /\ mvLastIm c' = fst (UFBProject p c)
  /\ mbInvalid c' = Rgtb (norm p) (mdMaxR c).
Proof. cbv zeta. rewrite UFBProject_spec. repeat split. Qed.

Lemma derived_members_of_state (c1 c2 : ATANCamera) :
  derived_state c1 = derived_state c2 ->
  mvFocal c1 = mvFocal c2 /\ md2Tan c1 = md2Tan c2
  /\ mdWinv c1 = mdWinv c2
  /\ mdDistortionEnabled c1 = mdDistortionEnabled c2
  /\ mdW c1 = mdW c2 /\ mvCenter c1 = mvCenter c2
  /\ mvInvFocal c1 = mvInvFocal c2 /\ mdMaxR c1 = mdMaxR c2.
Proof.
  intros D.
  unfold mvFocal, md2Tan, mdWinv, mdDistortionEnabled, mdW, mvCenter,
    mvInvFocal, mdMaxR.
  rewrite D. repeat split.
Qed.

(** [GetProjectionDerivs] reads the focal lengths, the distortion scalars
    and the cached point, radius and factor, and nothing else. *)
Lemma GetProjectionDerivs_reads (u : Mat) (c1 c2 : ATANCamera) :
  mvFocal c1 = mvFocal c2 -> md2Tan c1 = md2Tan c2 ->
  mdWinv c1 = mdWinv c2 -> mdDistortionEnabled c1 = mdDistortionEnabled c2 ->
  mvLastCam c1 = mvLastCam c2 -> mdLastR c1 = mdLastR c2 ->
  mdLastFactor c1 = mdLastFactor c2 ->
  fst (GetProjectionDerivs u c1) = fst (GetProjectionDerivs u c2).
Proof.
  intros F K WI EN LC LR LF. rewrite !GetProjectionDerivs_value. cbv zeta.
  rewrite F, K, WI, EN, LC, LR, LF. reflexivity.
Qed.

Lemma UnProject_principal_point_radius (c : ATANCamera) :
  mdLastDistR (snd (UnProject (mvCenter c) c)) = 0.
Proof.
  destruct (UnProject_cache (mvCenter c) c) as (_ & _ & -> & _).
  unfold distorted_of.
  replace ((mvCenter c).[0] - (mvCenter c).[0]) with 0 by ring.
  replace ((mvCenter c).[1] - (mvCenter c).[1]) with 0 by ring.
  rewrite !Rmult_0_l. apply norm_origin.
Qed.

(** ** The loops of the bounding box *)

(** One pass of the loop body keeps a running minimum and maximum. *)
Lemma bbox_step_minmax (vs : list Vec2) (i j : nat) (mn mx : Vec2) :
  bbox_step vs i j (mn, mx)
  = (vset mn j (Rmin mn.[j] (nth i vs (0, 0)).[j]),
     vset mx j (Rmax mx.[j] (nth i vs (0, 0)).[j])).
Proof.
  unfold bbox_step. set (v := (nth i vs (0, 0)).[j]).
  destruct mn as [m0 m1], mx as [x0 x1].
  unfold Rmin, Rmax.
  destruct j as [|j]; cbn [vget vset fst snd];
    destruct (Rlt_dec v _), (Rgt_dec v _), (Rle_dec _ v), (Rle_dec _ v);
    try reflexivity; try (exfalso; lra); f_equal; f_equal; lra.
Qed.

(** The loops compute the componentwise minimum and maximum of the four
    vertices. *)
Lemma bounding_box_minmax (a b c d : Vec2) :
  bounding_box [a; b; c; d]
  = ((min4 a.[0] b.[0] c.[0] d.[0], min4 a.[1] b.[1] c.[1] d.[1]),
     (max4 a.[0] b.[0] c.[0] d.[0], max4 a.[1] b.[1] c.[1] d.[1])).
Proof.
  unfold bounding_box, bbox_loop. cbn [seq fold_left].
  rewrite !bbox_step_minmax. cbn [nth vget vset fst snd].
  unfold min4, max4.
  destruct a as [a0 a1]. cbn [fst snd].
  rewrite (Rmin_left a0 a0), (Rmin_left a1 a1), (Rmax_left a0 a0),
    (Rmax_left a1 a1) by lra.
  reflexivity.
Qed.

Lemma min4_le (a b c d : R) :
  min4 a b c d <= a /\ min4 a b c d <= b /\ min4 a b c d <= c
  /\ min4 a b c d <= d.
Proof.
  unfold min4, Rmin.
  destruct (Rle_dec a b); destruct (Rle_dec _ c); destruct (Rle_dec _ d);
    lra.
Qed.

Lemma max4_ge (a b c d : R) :
  a <= max4 a b c d /\ b <= max4 a b c d /\ c <= max4 a b c d
  /\ d <= max4 a b c d.
Proof.
  unfold max4, Rmax.
  destruct (Rle_dec a b); destruct (Rle_dec _ c); destruct (Rle_dec _ d);
    lra.
Qed.

Lemma min4_in (a b c d : R) :
  min4 a b c d = a \/ min4 a b c d = b \/ min4 a b c d = c
  \/ min4 a b c d = d.
Proof.
  unfold min4, Rmin.
  destruct (Rle_dec a b); destruct (Rle_dec _ c); destruct (Rle_dec _ d);
    auto.
Qed.

Lemma max4_in (a b c d : R) :
  max4 a b c d = a \/ max4 a b c d = b \/ max4 a b c d = c
  \/ max4 a b c d = d.
Proof.
  unfold max4, Rmax.
  destruct (Rle_dec a b); destruct (Rle_dec _ c); destruct (Rle_dec _ d);
    auto.
Qed.

(** ** Closed form of a refresh *)

(** On such a state [UnProject] returns the closed form, and leaves such a
    state. *)
Lemma UnProject_reads_refreshed (s : ParameterState) (q : Vec2)
    (c : ATANCamera) :
  reads_refreshed s c ->
  fst (UnProject q c) = unproject_with s q
  /\ reads_refreshed s (snd (UnProject q c)).
Proof.
  intros (P & C & I & W). split.
  - rewrite UnProject_value, C, I, W. reflexivity.
  - unfold reads_refreshed, mvCenter, mvInvFocal, mdW.
    rewrite UnProject_parameter_state, UnProject_derived_state.
    repeat split; assumption.
Qed.

Lemma reads_refreshed_before_onepixel (c : ATANCamera) :
  reads_refreshed (parameter_state c)
    (RefreshParams_maxradius (RefreshParams_distortion (RefreshParams_focal c))).
Proof.
  rewrite RefreshParams_maxradius_spec, RefreshParams_distortion_spec,
    RefreshParams_focal_spec.
  unfold reads_refreshed. cam_red.
  destruct (Rneq_dec _ 0); repeat split.
Qed.

Lemma RefreshParams_onepixel_value (s : ParameterState) (c : ATANCamera) :
  reads_refreshed s c ->
  mdOnePixelDist (RefreshParams_onepixel c) = one_pixel_of s
  /\ reads_refreshed s (RefreshParams_onepixel c).
Proof.
  intros H. rewrite RefreshParams_onepixel_spec. cbv zeta.
  destruct (UnProject_reads_refreshed s (vscale 0.5 (mvImageSize c)) c H)
    as [V1 H1].
  destruct (UnProject_reads_refreshed s
              (vadd (vscale 0.5 (mvImageSize c)) (1, 1)) _ H1) as [V2 H2].
  rewrite V1, V2. destruct H as (P & _). split.
  - unfold mvImageSize. rewrite P. reflexivity.
  - destruct H2 as (P2 & C2 & I2 & W2). repeat split; assumption.
Qed.

Lemma RefreshParams_UFB_value (s : ParameterState) (c : ATANCamera) :
  reads_refreshed s c ->
  let c' := RefreshParams_UFB c in
  let bb := bounding_box (image_corners s) in
  let range := vsub (snd bb) (fst bb) in
  let f := (1 / range.[0], 1 / range.[1]) in
  mvImplaneTL c' = fst bb
  /\ mvImplaneBR c' = snd bb
  /\ mvUFBLinearInvFocal c' = range
  /\ mvUFBLinearFocal c' = f
  /\ mvUFBLinearCenter c'
     = (-1 * (fst bb).[0] * f.[0], -1 * (fst bb).[1] * f.[1]).
Proof.
  intros H. cbv zeta. rewrite RefreshParams_UFB_spec. cbv zeta.
  destruct (UnProject_reads_refreshed s (-0.5, -0.5) c H) as [V1 H1].
  destruct (UnProject_reads_refreshed s ((mvImageSize c).[0] - 0.5, -0.5)
              _ H1) as [V2 H2].
  destruct (UnProject_reads_refreshed s
              ((mvImageSize c).[0] - 0.5, (mvImageSize c).[1] - 0.5)
              _ H2) as [V3 H3].
  destruct (UnProject_reads_refreshed s (-0.5, (mvImageSize c).[1] - 0.5)
              _ H3) as [V4 _].
  rewrite V1, V2, V3, V4.
  destruct H as (P & _).
  unfold bounding_box, image_corners, corner_pixels, mvImageSize.
  rewrite P. cbn [map nth].
  repeat split.
Qed.

(** The derived state after a refresh, in closed form. *)
Lemma RefreshParams_derived_of (c : ATANCamera) :
  derived_state (RefreshParams c)
  = derived_of (parameter_state c) (mdOneOver2Tan c).
Proof.
  rewrite RefreshParams_derived_state.
  pose proof (reads_refreshed_before_onepixel c) as H3.
  destruct (RefreshParams_onepixel_value _ _ H3) as [O H4].
  destruct (RefreshParams_UFB_value _ _ H4) as (TL & BR & IFo & Fo & Ce).
  destruct (RefreshParams_UFB_frame
              (RefreshParams_onepixel
                 (RefreshParams_maxradius
                    (RefreshParams_distortion (RefreshParams_focal c)))))
    as (_ & _ & D).
  assert (O' : mdOnePixelDist (RefreshParams c)
               = one_pixel_of (parameter_state c)).
  { unfold RefreshParams. cbv zeta. unfold mdOnePixelDist. rewrite D.
    exact O. }
  unfold RefreshParams in TL, BR, IFo, Fo, Ce. 
  change (RefreshParams_UFB _) with (RefreshParams c) in TL, BR, IFo, Fo, Ce.
  rewrite O', TL, BR, IFo, Fo, Ce. reflexivity.
Qed.

Lemma refreshed_reads (c : ATANCamera) :
  refreshed c -> reads_refreshed (parameter_state c) c.
Proof.
  intros H. destruct (refreshed_members c H) as (_ & C & I & W & _).
  repeat split; assumption.
Qed.

(** The derived state of a refreshed state, in closed form. *)
Lemma refreshed_derived_of (c : ATANCamera) :
  refreshed c ->
  derived_state c = derived_of (parameter_state c) (mdOneOver2Tan c).
Proof.
  intros (c0 & P & D).
  assert (E : derived_state c = derived_of (parameter_state c) (mdOneOver2Tan c0)).
  { rewrite D, RefreshParams_derived_of, P. reflexivity. }
  unfold mdOneOver2Tan at 1. rewrite E at 2. rewrite E.
  unfold derived_of. cbv zeta. cbn [ds_mdOneOver2Tan].
  destruct (Rneq_dec _ 0); reflexivity.
Qed.

(** The members of the UFB block on a refreshed state. *)
Lemma refreshed_UFB_members (c : ATANCamera) :
  refreshed c ->
  let bb := bounding_box (image_corners (parameter_state c)) in
  let range := vsub (snd bb) (fst bb) in
  mvImplaneTL c = fst bb
  /\ mvImplaneBR c = snd bb
  /\ mvUFBLinearInvFocal c = range
  /\ mvUFBLinearFocal c = (1 / range.[0], 1 / range.[1])
  /\ mvUFBLinearCenter c
     = (-1 * (fst bb).[0] * (1 / range.[0]),
        -1 * (fst bb).[1] * (1 / range.[1])).
Proof.
  intros H. pose proof (refreshed_derived_of c H) as E. cbv zeta.
  unfold mvImplaneTL, mvImplaneBR, mvUFBLinearInvFocal, mvUFBLinearFocal,
    mvUFBLinearCenter.
  rewrite E. repeat split.
Qed.

Lemma refreshed_UnProject (q : Vec2) (c : ATANCamera) :
  refreshed c -> fst (UnProject q c) = unproject_with (parameter_state c) q.
Proof.
  intros H.
  apply (UnProject_reads_refreshed _ q c (refreshed_reads c H)).
Qed.

Lemma refreshed_UFBUnProject (u : Vec2) (c : ATANCamera) :
  refreshed c ->
  fst (UFBUnProject u c) = UFBunproject_with (mpvvCameraParams c) u.
Proof.
  intros H. destruct (refreshed_members c H) as (_ & _ & _ & W & _).
  rewrite UFBUnProject_value, W. reflexivity.
Qed.

(** A refresh of a refreshed state computes the derived state it already
    has. *)
Lemma refreshed_RefreshParams_derived_state (c : ATANCamera) :
  refreshed c -> derived_state (RefreshParams c) = derived_state c.
Proof.
  intros H. rewrite RefreshParams_derived_of. symmetry.
  apply refreshed_derived_of, H.
Qed.

Lemma UnProject_last_op_derived (q : Vec2) (c1 c2 : ATANCamera) :
  derived_state c1 = derived_state c2 ->
  mbInvalid c1 = mbInvalid c2 ->
  last_op (snd (UnProject q c1)) = last_op (snd (UnProject q c2)).
Proof.
  intros D B. apply UnProject_last_op_ext; try exact B;
    unfold mvCenter, mvInvFocal, mdW; rewrite D; reflexivity.
Qed.

Lemma refreshed_RefreshParams_last_op (c : ATANCamera) :
  refreshed c ->
  last_op (RefreshParams c)
  = last_op (snd (UnProject (-0.5, (mvImageSize c).[1] - 0.5) c)).
Proof.
  intros H. destruct (RefreshParams_last_op c) as [L _]. cbv zeta in L.
  rewrite L. unfold last_refresh_pixel.
  apply UnProject_last_op_derived.
  - apply refreshed_RefreshParams_derived_state, H.
  - apply RefreshParams_mbInvalid.
Qed.

Lemma refreshed_bounding_box_ordered (c : ATANCamera) :
  refreshed c ->
  (mvImplaneTL c).[0] <= (mvImplaneBR c).[0]
  /\ (mvImplaneTL c).[1] <= (mvImplaneBR c).[1].
Proof.
  intros Hc. destruct (refreshed_UFB_members c Hc) as (TL & BR & _).
  rewrite TL, BR. unfold image_corners, corner_pixels. cbn [map].
  rewrite bounding_box_minmax. cbn [vget fst snd].
  split.
  - match goal with
    | |- min4 ?a ?b ?c ?d <= _ =>
        pose proof (min4_le a b c d) as (L & _);
        pose proof (max4_ge a b c d) as (G & _)
    end.
    lra.
  - match goal with
    | |- min4 ?a ?b ?c ?d <= _ =>
        pose proof (min4_le a b c d) as (L & _);
        pose proof (max4_ge a b c d) as (G & _)
    end.
    lra.
Qed.

Lemma refreshed_UFB_linear (c : ATANCamera) (j : nat) :
  refreshed c ->
  let range := (mvImplaneBR c).[j] - (mvImplaneTL c).[j] in
  (mvUFBLinearInvFocal c).[j] = range
  /\ (mvUFBLinearFocal c).[j] = 1 / range
  /\ (mvUFBLinearCenter c).[j] = -1 * (mvImplaneTL c).[j] * (1 / range).
Proof.
  intros Hc. destruct (refreshed_UFB_members c Hc) as (TL & BR & I & F & C).
  cbv zeta. rewrite I, F, C, TL, BR.
  destruct j as [|j]; cbn [vget vsub fst snd]; repeat split.
Qed.

(** ** Pixels and the UFB plane *)

(** The pixel map is the UFB map followed by the scaling to pixels. *)
Lemma pixel_of_pixel_of_UFB (s : ParameterState) (d : Vec2) :
  pixel_of (center_of s) (focal_of s) d
  = pixel_of_UFB (ps_mvImageSize s)
      (pixel_of (get5 (ps_mpvvCameraParams s) 2, get5 (ps_mpvvCameraParams s) 3)
         (get5 (ps_mpvvCameraParams s) 0, get5 (ps_mpvvCameraParams s) 1) d).
Proof.
  unfold pixel_of, pixel_of_UFB, center_of, focal_of. cbn [vget fst snd].
  f_equal; ring.
Qed.

(** The same for the inverse maps, when the image size is not zero. *)
Lemma distorted_of_pixel_of_UFB (s : ParameterState) (u : Vec2) :
  (ps_mvImageSize s).[0] <> 0 -> (ps_mvImageSize s).[1] <> 0 ->
  distorted_of (center_of s) (invfocal_of s) (pixel_of_UFB (ps_mvImageSize s) u)
  = UFBdistorted_of (ps_mpvvCameraParams s) u.
Proof.
  intros H0 H1.
  unfold distorted_of, UFBdistorted_of, pixel_of_UFB, invfocal_of, center_of,
    focal_of.
  cbn [vget fst snd]. unfold Rdiv. rewrite !Rinv_mult.
  generalize (/ get5 (ps_mpvvCameraParams s) 0),
    (/ get5 (ps_mpvvCameraParams s) 1).
  intros i0 i1. f_equal; field; assumption.
Qed.

Lemma unproject_with_pixel_of_UFB (s : ParameterState) (u : Vec2) :
  (ps_mvImageSize s).[0] <> 0 -> (ps_mvImageSize s).[1] <> 0 ->
  unproject_with s (pixel_of_UFB (ps_mvImageSize s) u)
  = UFBunproject_with (ps_mpvvCameraParams s) u.
Proof.
  intros H0 H1. unfold unproject_with, UFBunproject_with. cbv zeta.
  rewrite distorted_of_pixel_of_UFB by assumption. reflexivity.
Qed.

(** The corners of the image are the unprojections of the corners of the
    unit square of the UFB plane. *)
Lemma image_corners_UFB (s : ParameterState) :
  (ps_mvImageSize s).[0] <> 0 -> (ps_mvImageSize s).[1] <> 0 ->
  image_corners s
  = map (UFBunproject_with (ps_mpvvCameraParams s)) unit_square_corners.
Proof.
  intros H0 H1. unfold image_corners.
  replace (corner_pixels (ps_mvImageSize s))
    with (map (pixel_of_UFB (ps_mvImageSize s)) unit_square_corners).
  - rewrite map_map. apply map_ext. intros u.
    apply unproject_with_pixel_of_UFB; assumption.
  - unfold corner_pixels, unit_square_corners, pixel_of_UFB.
    cbn [map vget fst snd].
    repeat (f_equal; try lra).
Qed.

Lemma unproject_with_0 (s : ParameterState) (q : Vec2) :
  get5 (ps_mpvvCameraParams s) 4 = 0 ->
  unproject_with s q = distorted_of (center_of s) (invfocal_of s) q.
Proof.
  intros Z. unfold unproject_with. cbv zeta.
  rewrite Z, recovery_factor_0, vscale_1. reflexivity.
Qed.

(** ** The frustum matrix *)

(** The matrix [MakeUFBLinearFrustumMatrix] returns and the divisors it
    adds to the trace, most recent first. *)
Lemma MakeUFBLinearFrustumMatrix_spec (near far : R) (c : ATANCamera) :
  MakeUFBLinearFrustumMatrix near far c =
  let left := (mvImplaneTL c).[0] * near in
  let right := (mvImplaneBR c).[0] * near in
  let top := (mvImplaneTL c).[1] * near in
  let bottom := (mvImplaneBR c).[1] * near in
  (mset
     (mset
        (mset
           (mset
              (mset
                 (mset (mset mzeros 0 0 (2 * near / (right - left)))
                    1 1 (2 * near / (top - bottom)))
                 0 2 ((right + left) / (left - right)))
              1 2 ((top + bottom) / (bottom - top)))
           2 2 ((far + near) / (far - near)))
        3 2 1)
     2 3 (2 * near * far / (near - far)),
   set_divisors
     ([near - far; far - near; bottom - top; left - right; top - bottom;
       right - left] ++ divisors c) c).
Proof. destruct c; reflexivity. Qed.

Lemma product_difference_nonzero (a b n : R) :
  a * n - b * n <> 0 <-> a <> b /\ n <> 0.
Proof.
  replace (a * n - b * n) with ((a - b) * n) by ring. split.
  - intros H. split; intros E; apply H.
    + rewrite E. ring.
    + rewrite E. ring.
  - intros [Ha Hn]. apply Rmult_integral_contrapositive_currified; lra.
Qed.

(** ** Norms and tangents *)

Lemma norm_opp (a b : R) : norm (- a, - b) = norm (a, b).
Proof. unfold norm. cbn [vget fst snd]. f_equal. ring. Qed.

Lemma norm_diag (a : R) : norm (a, a) = sqrt 2 * Rabs a.
Proof.
  unfold norm. cbn [vget fst snd].
  replace (a * a + a * a) with (2 * Rsqr a) by (unfold Rsqr; ring).
  rewrite sqrt_mult by (try lra; apply Rle_0_sqr).
  rewrite sqrt_Rsqr_abs. reflexivity.
Qed.

Lemma norm_swap (a b : R) : norm (a, b) = norm (b, a).
Proof. unfold norm. cbn [vget fst snd]. f_equal. ring. Qed.

Lemma norm_nonneg (v : Vec2) : 0 <= norm v.
Proof. apply sqrt_pos. Qed.

Lemma norm_le (a b : Vec2) :
  Rabs a.[0] <= Rabs b.[0] -> Rabs a.[1] <= Rabs b.[1] -> norm a <= norm b.
Proof.
  intros H0 H1. unfold norm. apply sqrt_le_1_alt.
  apply Rsqr_le_abs_1 in H0, H1. unfold Rsqr in H0, H1. lra.
Qed.

(** [atan x <= x] for [x >= 0]: the derivative of [x - atan x] is not
    negative. *)
Lemma atan_le_id (x : R) : 0 <= x -> atan x <= x.
Proof.
  intros Hx.
  assert (D : derivable (id - atan)%F).
  { apply derivable_minus; [apply derivable_id|].
    intros y. apply derivable_pt_atan. }
  assert (I : increasing (id - atan)%F).
  { apply (nonneg_derivative_1 _ D). intros y.
    assert (L : derivable_pt_lim (id - atan)%F y (1 - / (1 + y ^ 2))).
    { apply derivable_pt_lim_minus;
        [apply derivable_pt_lim_id|apply derivable_pt_lim_atan]. }
    rewrite (derive_pt_eq_0 _ _ _ (D y) L).
    assert (P : 0 < 1 + y ^ 2) by (pose proof (pow2_ge_0 y); lra).
    assert (Q : / (1 + y ^ 2) <= 1).
    { rewrite <- Rinv_1. apply Rinv_le_contravar; [lra|].
      pose proof (pow2_ge_0 y). lra. }
    lra. }
  specialize (I 0 x Hx). unfold minus_fct, id in I. rewrite atan_0 in I. lra.
Qed.

(** [x <= tan x] on the first quadrant. *)
Lemma tan_ge_id (x : R) : 0 <= x < PI / 2 -> x <= tan x.
Proof.
  intros [H0 H1].
  rewrite <- (atan_tan x) at 1 by lra.
  apply atan_le_id. apply tan_nonneg. lra.
Qed.

Lemma tan_le (x y : R) : 0 <= x -> x <= y -> y < PI / 2 -> tan x <= tan y.
Proof.
  intros H0 [L|E] H1.
  - left. apply tan_increasing; lra.
  - subst y. lra.
Qed.

(** [tan (w/2) <= 0.75 w] for [w] in the first quadrant. *)
Lemma tan_half_le (w : R) : 0 <= w <= PI / 2 -> tan (w / 2) <= 0.75 * w.
Proof.
  intros [H0 H1]. pose proof PI_RGT_0 as HPI.
  destruct H0 as [H0|<-];
    [|replace (0 / 2) with 0 by lra; rewrite tan_0; lra].
  assert (S : sin (w / 2) < w / 2) by (apply sin_lt_x; lra).
  assert (C : cos (PI / 4) <= cos (w / 2)) by (apply cos_decr_1; lra).
  rewrite cos_PI4 in C.
  assert (S2 : sqrt 2 <= 1.5).
  { rewrite <- (sqrt_square 1.5) at 1 by lra. apply sqrt_le_1_alt. lra. }
  assert (S2' : 0 < sqrt 2) by (apply sqrt_lt_R0; lra).
  assert (C2 : 1 / 1.5 <= cos (w / 2)).
  { eapply Rle_trans; [|exact C]. unfold Rdiv. rewrite !Rmult_1_l.
    apply Rinv_le_contravar; assumption. }
  unfold tan.
  apply Rmult_le_reg_r with (cos (w / 2)); [lra|].
  replace (sin (w / 2) / cos (w / 2) * cos (w / 2)) with (sin (w / 2))
    by (field; lra).
  nra.
Qed.

Lemma undist_of_nonneg (w x : R) :
  0 <= w < PI -> 0 <= x -> x * w < PI / 2 -> 0 <= undist_of w x.
Proof.
  intros [W0 W1] X0 XW. unfold undist_of.
  destruct (Req_dec_T w 0) as [Z|N]; [exact X0|].
  assert (T : 0 < tan (w / 2)) by (apply tan_gt_0; lra).
  assert (A : 0 <= tan (x * w)).
  { apply tan_nonneg. split; [apply Rmult_le_pos; lra|exact XW]. }
  apply Rmult_le_pos; [exact A|]. left. apply Rinv_0_lt_compat. lra.
Qed.

Lemma undist_of_le (w x y : R) :
  0 <= w < PI -> 0 <= x -> x <= y -> y * w < PI / 2 ->
  undist_of w x <= undist_of w y.
Proof.
  intros [W0 W1] X0 XY YW. unfold undist_of.
  destruct (Req_dec_T w 0) as [Z|N]; [exact XY|].
  assert (T : 0 < tan (w / 2)) by (apply tan_gt_0; lra).
  assert (A : tan (x * w) <= tan (y * w)).
  { apply tan_le; [apply Rmult_le_pos; lra|nra|exact YW]. }
  apply Rmult_le_compat_r; [|exact A].
  left. apply Rinv_0_lt_compat. lra.
Qed.

(** ** The farthest corner *)

Lemma Rabs_offset_le (u m : R) :
  0 <= u <= 1 -> Rabs (u - m) <= Rmax m (1 - m).
Proof.
  intros [H0 H1]. unfold Rabs, Rmax.
  destruct (Rcase_abs (u - m)), (Rle_dec m (1 - m)); lra.
Qed.

Lemma Rmax_offset_pos (m : R) : 0 < Rmax m (1 - m).
Proof. unfold Rmax. destruct (Rle_dec m (1 - m)); lra. Qed.

(** No point of the unit square is farther from the principal point than
    the farthest corner of line 110. *)
Lemma UFBdistorted_of_le_farthest (P : Vec5) (u : Vec2) :
  0 <= u.[0] <= 1 -> 0 <= u.[1] <= 1 ->
  norm (UFBdistorted_of P u) <= norm (farthest_corner P).
Proof.
  intros H0 H1. apply norm_le; unfold UFBdistorted_of, farthest_corner;
    cbn [vget fst snd]; unfold Rdiv; rewrite !Rabs_mult;
    apply Rmult_le_compat_r; try apply Rabs_pos.
  - rewrite (Rabs_pos_eq (Rmax _ _)) by (left; apply Rmax_offset_pos).
    apply Rabs_offset_le, H0.
  - rewrite (Rabs_pos_eq (Rmax _ _)) by (left; apply Rmax_offset_pos).
    apply Rabs_offset_le, H1.
Qed.

Lemma pixel_inside_image (W q : R) :
  0 < W -> - 0.5 <= q <= W - 0.5 ->
  0 <= (q + 0.5) / W <= 1 /\ W * ((q + 0.5) / W) - 0.5 = q.
Proof.
  intros HW [H0 H1]. split; [split|field; lra].
  - apply Rmult_le_pos; [lra|]. left. apply Rinv_0_lt_compat, HW.
  - apply Rmult_le_reg_r with W; [exact HW|].
    replace ((q + 0.5) / W * W) with (q + 0.5) by (field; lra). lra.
Qed.

(** ** Undistorting and distorting again *)

(** Distorting the undistorted point gives the distorted point back. *)
Lemma redistort_undistorted (w : R) (dc : Vec2) :
  0 <= w <= PI / 2 ->
  norm dc < 0.001 \/ (0.01 < norm dc /\ norm dc * w < PI / 2) ->
  let p := vscale (recovery_factor w (norm dc)) dc in
  vscale (factor_of w (norm p)) p = dc.
Proof.
  intros Hw Hd. cbv zeta. pose proof PI_RGT_0 as HPI.
  unfold recovery_factor.
  destruct Hd as [S|[G A]].
  - destruct (Rgt_dec (norm dc) 0.01) as [G|_]; [lra|].
    rewrite vscale_1. unfold factor_of.
    destruct (Req_dec_T w 0); [apply vscale_1|].
    destruct (Rlt_dec (norm dc) 0.001); [apply vscale_1|lra].
  - destruct (Rgt_dec (norm dc) 0.01) as [_|N]; [|lra].
    set (rd := norm dc) in *.
    destruct (Req_dec_T w 0) as [Z|NZ].
    + subst w. rewrite undist_of_0.
      replace (rd / rd) with 1 by (field; lra).
      rewrite vscale_1, factor_of_0. apply vscale_1.
    + assert (W0 : 0 < w) by lra.
      assert (T0 : 0 < tan (w / 2)) by (apply tan_gt_0; lra).
      assert (T1 : tan (w / 2) <= 0.75 * w) by (apply tan_half_le; lra).
      assert (T2 : rd * w <= tan (rd * w)).
      { apply tan_ge_id. split; [apply Rmult_le_pos; lra|exact A]. }
      assert (U : undist_of w rd = tan (rd * w) / (2 * tan (w / 2))).
      { unfold undist_of. destruct (Req_dec_T w 0); [lra|reflexivity]. }
      set (ru := undist_of w rd) in *.
      assert (RU : 0.001 <= ru).
      { rewrite U. apply Rmult_le_reg_r with (2 * tan (w / 2)); [lra|].
        replace (tan (rd * w) / (2 * tan (w / 2)) * (2 * tan (w / 2)))
          with (tan (rd * w)) by (field; lra).
        nra. }
      assert (Q : 0 <= ru / rd).
      { apply Rmult_le_pos; [lra|]. left. apply Rinv_0_lt_compat. lra. }
      rewrite norm_vscale by exact Q. fold rd.
      replace (ru / rd * rd) with ru by (field; lra).
      unfold factor_of. destruct (Req_dec_T w 0) as [Z|_]; [lra|].
      destruct (Rlt_dec ru 0.001) as [L|_]; [lra|].
      replace (2 * ru * tan (w / 2)) with (tan (rd * w))
        by (rewrite U; field; lra).
      rewrite atan_tan by nra.
      destruct dc as [x y]. unfold vscale. cbn [vget fst snd].
      f_equal; field; lra.
Qed.

(** The radius and the factor [Project] computes for an undistorted point
    are the ones [UnProject] cached when it produced the point. *)
Lemma undistorted_radius_and_factor (w rd : R) :
  0 <= w <= PI / 2 -> 0.01 < rd -> rd * w < PI / 2 ->
  let ru := undist_of w rd in
  0 < ru /\ factor_of w ru = 1 / (ru / rd).
Proof.
  intros Hw G A. cbv zeta. pose proof PI_RGT_0 as HPI.
  destruct (Req_dec_T w 0) as [Z|NZ].
  - subst w. rewrite undist_of_0, factor_of_0. split; [lra|field; lra].
  - assert (W0 : 0 < w) by lra.
    assert (T0 : 0 < tan (w / 2)) by (apply tan_gt_0; lra).
    assert (T1 : tan (w / 2) <= 0.75 * w) by (apply tan_half_le; lra).
    assert (T2 : rd * w <= tan (rd * w)).
    { apply tan_ge_id. split; [apply Rmult_le_pos; lra|exact A]. }
    assert (U : undist_of w rd = tan (rd * w) / (2 * tan (w / 2))).
    { unfold undist_of. destruct (Req_dec_T w 0); [lra|reflexivity]. }
    set (ru := undist_of w rd) in *.
    assert (RU : 0.001 <= ru).
    { rewrite U. apply Rmult_le_reg_r with (2 * tan (w / 2)); [lra|].
      replace (tan (rd * w) / (2 * tan (w / 2)) * (2 * tan (w / 2)))
        with (tan (rd * w)) by (field; lra).
      nra. }
    split; [lra|].
    unfold factor_of. destruct (Req_dec_T w 0) as [Z|_]; [lra|].
    destruct (Rlt_dec ru 0.001) as [L|_]; [lra|].
    replace (2 * ru * tan (w / 2)) with (tan (rd * w))
      by (rewrite U; field; lra).
    rewrite atan_tan by nra. field. lra.
Qed.

(** Below the guard of [rtrans_factor] the inverse transform stays below
    the guard of [GetProjectionDerivs]. *)
Lemma undist_of_small (w rd : R) :
  0 <= w <= PI / 2 -> 0 <= rd < 0.001 -> undist_of w rd < 0.01.
Proof.
  intros Hw Hd. pose proof PI_RGT_0 as HPI. pose proof PI2_1 as HP1.
  unfold undist_of. destruct (Req_dec_T w 0) as [Z|NZ]; [lra|].
  assert (W0 : 0 < w) by lra.
  assert (T0 : w / 2 <= tan (w / 2)) by (apply tan_ge_id; lra).
  assert (B : 0 <= 2 * (rd * w) <= PI / 2) by nra.
  assert (T1 : tan (2 * (rd * w) / 2) <= 0.75 * (2 * (rd * w)))
    by (apply tan_half_le; exact B).
  replace (2 * (rd * w) / 2) with (rd * w) in T1 by lra.
  apply Rmult_lt_reg_r with (2 * tan (w / 2)); [lra|].
  replace (tan (rd * w) / (2 * tan (w / 2)) * (2 * tan (w / 2)))
    with (tan (rd * w)) by (field; lra).
  nra.
Qed.

(** ** The distortion factor near the centre *)

(** [atan] is strictly concave on the positive axis:
    [s atan T < atan (s T)] for [0 < s < 1] and [T > 0]. *)
Lemma atan_scale_gt (s T : R) :
  0 < s < 1 -> 0 < T -> s * atan T < atan (s * T).
Proof.
  intros [S0 S1] HT.
  set (h := (comp atan (mult_real_fct s id) - mult_real_fct s atan)%F).
  assert (D : derivable h).
  { apply derivable_minus.
    - apply derivable_comp; [apply derivable_scal, derivable_id|].
      intros y. apply derivable_pt_atan.
    - apply derivable_scal. intros y. apply derivable_pt_atan. }
  assert (I : h 0 < h T).
  { apply (derive_increasing_interv 0 T h D HT); try lra.
    intros t [T0 T1].
    assert (L : derivable_pt_lim h t
                  (/ (1 + (s * t) ^ 2) * (s * 1) - s * / (1 + t ^ 2))).
    { apply derivable_pt_lim_minus.
      - exact (derivable_pt_lim_comp (mult_real_fct s id) atan t _ _
                 (derivable_pt_lim_scal id s t 1 (derivable_pt_lim_id t))
                 (derivable_pt_lim_atan (s * t))).
      - exact (derivable_pt_lim_scal atan s t _ (derivable_pt_lim_atan t)). }
    rewrite (derive_pt_eq_0 _ _ _ (D t) L).
    assert (A : 0 < 1 + (s * t) ^ 2) by (pose proof (pow2_ge_0 (s * t)); lra).
    assert (B : 1 + (s * t) ^ 2 < 1 + t ^ 2).
    { assert (0 < t * t) by (apply Rmult_lt_0_compat; assumption).
      assert (s * s < 1) by nra. nra. }
    assert (Q : / (1 + t ^ 2) < / (1 + (s * t) ^ 2))
      by (apply Rinv_lt_contravar; [apply Rmult_lt_0_compat; lra|exact B]).
    nra. }
  unfold h, minus_fct, comp, mult_real_fct, id in I.
  rewrite Rmult_0_r, atan_0 in I. lra.
Qed.

(** Inside the radius 1/2 the distortion factor exceeds 1. *)
Lemma factor_of_gt_1 (w r : R) :
  0 < w < PI -> 0.001 <= r < 1 / 2 -> 1 < factor_of w r.
Proof.
  intros [W0 W1] [R0 R1]. pose proof PI_RGT_0 as HPI.
  unfold factor_of. destruct (Req_dec_T w 0) as [Z|_]; [lra|].
  destruct (Rlt_dec r 0.001) as [L|_]; [lra|].
  assert (T : 0 < tan (w / 2)) by (apply tan_gt_0; lra).
  pose proof (atan_scale_gt (2 * r) (tan (w / 2)) ltac:(lra) T) as A.
  rewrite atan_tan in A by lra.
  replace (2 * r * tan (w / 2)) with (2 * r * tan (w / 2)) in A by ring.
  assert (P : 0 < r * w) by (apply Rmult_lt_0_compat; lra).
  apply Rmult_lt_reg_r with (r * w); [exact P|].
  replace (1 / (r * w) * atan (2 * r * tan (w / 2)) * (r * w))
    with (atan (2 * r * tan (w / 2))) by (field; lra).
  lra.
Qed.

(** From the radius 1/2 on the distorted radius is at least 1/2. *)
Lemma distorted_radius_ge_half (w r : R) :
  0 < w < PI -> 1 / 2 <= r -> 1 / 2 <= factor_of w r * r.
Proof.
  intros [W0 W1] R0. pose proof PI_RGT_0 as HPI.
  unfold factor_of. destruct (Req_dec_T w 0) as [Z|_]; [lra|].
  destruct (Rlt_dec r 0.001) as [L|_]; [lra|].
  assert (T : 0 < tan (w / 2)) by (apply tan_gt_0; lra).
  assert (A : atan (tan (w / 2)) <= atan (2 * r * tan (w / 2))).
  { destruct (Req_dec_T (tan (w / 2)) (2 * r * tan (w / 2))) as [E|N].
    - rewrite <- E. lra.
    - left. apply atan_increasing. nra. }
  rewrite atan_tan in A by lra.
  replace (1 / (r * w) * atan (2 * r * tan (w / 2)) * r)
    with (atan (2 * r * tan (w / 2)) / w) by (field; lra).
  apply Rmult_le_reg_r with w; [lra|].
  replace (atan (2 * r * tan (w / 2)) / w * w)
    with (atan (2 * r * tan (w / 2))) by (field; lra).
  lra.
Qed.

(** On the positive axis the distortion factor lies between 0 and 1.5. *)
Lemma factor_of_bounds (w r : R) :
  0 < w <= PI / 2 -> 0 < r -> 0 <= factor_of w r <= 1.5.
Proof.
  intros [W0 W1] Hr. unfold factor_of.
  destruct (Req_dec_T w 0) as [Z|_]; [lra|].
  destruct (Rlt_dec r 0.001) as [L|_]; [lra|].
  assert (T0 : 0 <= tan (w / 2)) by (apply tan_nonneg; lra).
  assert (T1 : tan (w / 2) <= 0.75 * w) by (apply tan_half_le; lra).
  assert (X0 : 0 <= 2 * r * tan (w / 2)) by nra.
  assert (A1 : atan (2 * r * tan (w / 2)) <= 2 * r * tan (w / 2))
    by (apply atan_le_id; exact X0).
  assert (A0 : 0 <= atan (2 * r * tan (w / 2))).
  { rewrite <- atan_0. destruct X0 as [X0|<-]; [|lra].
    left. apply atan_increasing. exact X0. }
  assert (P : 0 < r * w) by nra.
  split.
  - apply Rmult_le_pos; [|exact A0].
    left. apply Rdiv_lt_0_compat; lra.
  - apply (Rmult_le_reg_l (r * w)); [exact P|].
    replace (r * w * (1 / (r * w) * atan (2 * r * tan (w / 2))))
      with (atan (2 * r * tan (w / 2))) by (field; lra).
    nra.
Qed.

Lemma vscale_fixed_point (f : R) (p : Vec2) :
  vscale f p = p -> f = 1 \/ norm p = 0.
Proof.
  destruct p as [x y]. unfold vscale. cbn [vget fst snd]. intros E.
  injection E as Ex Ey.
  destruct (Req_dec_T f 1) as [F|F]; [left; exact F|right].
  assert (X : x = 0).
  { apply Rmult_eq_reg_l with (f - 1); [lra|lra]. }
  assert (Y : y = 0).
  { apply Rmult_eq_reg_l with (f - 1); [lra|lra]. }
  subst. apply norm_origin.
Qed.

(** ** The derivative of the distortion factor *)

Lemma derivable_pt_lim_eq (f : R -> R) (x l l' : R) :
  l = l' -> derivable_pt_lim f x l -> derivable_pt_lim f x l'.
Proof. intros ->. exact (fun H => H). Qed.

(** The radius as a function of one coordinate. *)
Lemma derivable_pt_lim_radius (a t0 : R) :
  0 < t0 * t0 + a * a ->
  derivable_pt_lim (fun t => sqrt (t * t + a * a)) t0
    (t0 / sqrt (t0 * t0 + a * a)).
Proof.
  intros P.
  assert (I : derivable_pt_lim (fun t => t * t + a * a) t0 (t0 + t0)).
  { apply derivable_pt_lim_eq with (1 * t0 + t0 * 1 + 0); [ring|].
    exact (derivable_pt_lim_plus _ _ _ _ _
             (derivable_pt_lim_mult id id t0 1 1
                (derivable_pt_lim_id t0) (derivable_pt_lim_id t0))
             (derivable_pt_lim_const (a * a) t0)). }
  pose proof (sqrt_lt_R0 _ P) as S.
  apply derivable_pt_lim_eq
    with (/ (2 * sqrt (t0 * t0 + a * a)) * (t0 + t0)); [field; lra|].
  exact (derivable_pt_lim_comp (fun t => t * t + a * a) sqrt t0 _ _ I
           (derivable_pt_lim_sqrt _ P)).
Qed.

(** The factor as a function of one coordinate, away from the origin. *)
Lemma derivable_pt_lim_atan_factor (w a t0 : R) :
  w <> 0 -> 0 < t0 * t0 + a * a ->
  let k := 2 * tan (w / 2) in
  let r0 := sqrt (t0 * t0 + a * a) in
  derivable_pt_lim (fun t => atan_factor w (sqrt (t * t + a * a))) t0
    ((1 / w * k / (1 + k * k * r0 * r0) - atan_factor w r0) * t0
     / (r0 * r0)).
Proof.
  intros Hw P. cbv zeta.
  pose proof (derivable_pt_lim_radius a t0 P) as Dr.
  pose proof (sqrt_lt_R0 _ P) as S.
  set (rho := fun t => sqrt (t * t + a * a)) in *.
  set (r0 := sqrt (t0 * t0 + a * a)) in *.
  set (k := 2 * tan (w / 2)).
  assert (K : 0 < 1 + k * k * r0 * r0).
  { pose proof (Rle_0_sqr (k * r0)) as Q. unfold Rsqr in Q. nra. }
  assert (Da : derivable_pt_lim (fun t => atan (k * rho t)) t0
                 (/ (1 + (k * r0) ^ 2) * (k * (t0 / r0)))).
  { exact (derivable_pt_lim_comp (fun t => k * rho t) atan t0 _ _
             (derivable_pt_lim_scal rho k t0 _ Dr)
             (derivable_pt_lim_atan (k * r0))). }
  assert (Dd : derivable_pt_lim (fun t => rho t * w) t0 (t0 / r0 * w)).
  { apply derivable_pt_lim_eq with (t0 / r0 * w + rho t0 * 0); [ring|].
    exact (derivable_pt_lim_mult rho (fct_cte w) t0 _ _ Dr
             (derivable_pt_lim_const w t0)). }
  assert (N : rho t0 * w <> 0).
  { apply Rmult_integral_contrapositive_currified; [|exact Hw].
    unfold rho. fold r0. lra. }
  pose proof (derivable_pt_lim_div (fun t => atan (k * rho t))
                (fun t => rho t * w) t0 _ _ Da Dd N) as Dq.
  apply derivable_pt_lim_ext
    with (f := div_fct (fun t => atan (k * rho t)) (fun t => rho t * w)).
  - intros t. unfold div_fct, atan_factor.
    change (sqrt (t * t + a * a)) with (rho t).
    assert (E : 2 * rho t * tan (w / 2) = k * rho t) by (unfold k; ring).
    rewrite E. unfold Rdiv. ring.
  - eapply derivable_pt_lim_eq; [|exact Dq].
    unfold atan_factor, Rsqr. cbv beta. change (rho t0) with r0.
    replace (2 * r0 * tan (w / 2)) with (k * r0) by (unfold k; ring).
    set (A := atan (k * r0)).
    field. repeat split; lra.
Qed.

(** Near a point of radius at least 0.01 the radius stays above the guard
    of [rtrans_factor]. *)
Lemma radius_stays_above_guard (a t0 t : R) :
  0.01 <= sqrt (t0 * t0 + a * a) ->
  t0 - 0.005 < t < t0 + 0.005 ->
  0.001 <= sqrt (t * t + a * a).
Proof.
  intros H [L U].
  assert (P : 0 <= t0 * t0 + a * a) by nra.
  pose proof (sqrt_sqrt _ P) as Q.
  set (r0 := sqrt (t0 * t0 + a * a)) in *.
  assert (B : - r0 <= t0 <= r0) by (split; nra).
  rewrite <- (sqrt_square 0.001) by lra.
  apply sqrt_le_1_alt.
  set (h := t - t0). replace t with (t0 + h) by (unfold h; ring).
  assert (Hh : - 0.005 < h < 0.005) by (unfold h; lra).
  destruct (Rle_dec 0 h) as [Hp|Hn].
  - assert (0.005 * 0.005 <= (r0 - h) * (r0 - h)) by nra. nra.
  - assert (0.005 * 0.005 <= (r0 + h) * (r0 + h)) by nra. nra.
Qed.

Lemma factor_of_atan_factor (w r : R) :
  w <> 0 -> 0.001 <= r -> factor_of w r = atan_factor w r.
Proof.
  intros Hw Hr. unfold factor_of, atan_factor.
  destruct (Req_dec_T w 0) as [Z|_]; [contradiction|].
  destruct (Rlt_dec r 0.001) as [L|_]; [lra|reflexivity].
Qed.

Lemma derivable_pt_lim_factor_of (w a t0 : R) :
  w <> 0 -> 0.01 <= sqrt (t0 * t0 + a * a) ->
  let k := 2 * tan (w / 2) in
  let r0 := sqrt (t0 * t0 + a * a) in
  derivable_pt_lim (fun t => factor_of w (sqrt (t * t + a * a))) t0
    ((1 / w * k / (1 + k * k * r0 * r0) - factor_of w r0) * t0 / (r0 * r0)).
Proof.
  intros Hw Hr. cbv zeta.
  assert (P : 0 < t0 * t0 + a * a).
  { destruct (Rle_lt_dec (t0 * t0 + a * a) 0) as [N|P]; [|exact P].
    rewrite (sqrt_neg_0 _ N) in Hr. lra. }
  rewrite (factor_of_atan_factor w _ Hw) by lra.
  apply derivable_pt_lim_locally_ext
    with (f := fun t => atan_factor w (sqrt (t * t + a * a)))
         (a := t0 - 0.005) (b := t0 + 0.005).
  - lra.
  - intros z Hz. symmetry. apply factor_of_atan_factor; [exact Hw|].
    apply radius_stays_above_guard with t0; assumption.
  - apply derivable_pt_lim_atan_factor; assumption.
Qed.

(** A pixel coordinate as a function of the coordinate it is scaled by. *)
Lemma derivable_pt_lim_pixel_same (cx fx w a t0 : R) :
  w <> 0 -> 0.01 <= sqrt (t0 * t0 + a * a) ->
  let k := 2 * tan (w / 2) in
  let r0 := sqrt (t0 * t0 + a * a) in
  let dFrac :=
    (1 / w * k / (1 + k * k * r0 * r0) - factor_of w r0) * t0 / (r0 * r0) in
  derivable_pt_lim
    (fun t => cx + fx * (factor_of w (sqrt (t * t + a * a)) * t)) t0
    (fx * (dFrac * t0 + factor_of w r0)).
Proof.
  intros Hw Hr. cbv zeta.
  pose proof (derivable_pt_lim_factor_of w a t0 Hw Hr) as D. cbv zeta in D.
  eapply derivable_pt_lim_eq;
    [|exact (derivable_pt_lim_plus _ _ _ _ _
               (derivable_pt_lim_const cx t0)
               (derivable_pt_lim_scal _ fx t0 _
                  (derivable_pt_lim_mult _ id t0 _ _ D
                     (derivable_pt_lim_id t0))))].
  unfold id. ring.
Qed.

(** A pixel coordinate as a function of the other coordinate. *)
Lemma derivable_pt_lim_pixel_other (cx fx w a t0 : R) :
  w <> 0 -> 0.01 <= sqrt (t0 * t0 + a * a) ->
  let k := 2 * tan (w / 2) in
  let r0 := sqrt (t0 * t0 + a * a) in
  let dFrac :=
    (1 / w * k / (1 + k * k * r0 * r0) - factor_of w r0) * t0 / (r0 * r0) in
  derivable_pt_lim
    (fun t => cx + fx * (factor_of w (sqrt (t * t + a * a)) * a)) t0
    (fx * (dFrac * a)).
Proof.
  intros Hw Hr. cbv zeta.
  pose proof (derivable_pt_lim_factor_of w a t0 Hw Hr) as D. cbv zeta in D.
  eapply derivable_pt_lim_eq;
    [|exact (derivable_pt_lim_plus _ _ _ _ _
               (derivable_pt_lim_const cx t0)
               (derivable_pt_lim_scal _ fx t0 _
                  (derivable_pt_lim_mult _ (fct_cte a) t0 _ _ D
                     (derivable_pt_lim_const a t0))))].
  unfold fct_cte. ring.
Qed.

(** The same without distortion, where the factor is 1 everywhere. *)
Lemma derivable_pt_lim_pinhole_same (cx fx t0 : R) :
  derivable_pt_lim (fun t => cx + fx * (1 * t)) t0 (fx * (0 * t0 + 1)).
Proof.
  eapply derivable_pt_lim_eq;
    [|exact (derivable_pt_lim_plus _ _ _ _ _
               (derivable_pt_lim_const cx t0)
               (derivable_pt_lim_scal _ fx t0 _
                  (derivable_pt_lim_scal id 1 t0 _
                     (derivable_pt_lim_id t0))))].
  ring.
Qed.

Lemma derivable_pt_lim_pinhole_other (cx fx a t0 : R) :
  derivable_pt_lim (fun t => cx + fx * (1 * a)) t0 (fx * (0 * a)).
Proof.
  eapply derivable_pt_lim_eq;
    [|exact (derivable_pt_lim_const (cx + fx * (1 * a)) t0)].
  ring.
Qed.

(** ** Two cameras *)

Lemma default_camera_reachable : reachable default_camera.
Proof. apply reachable_new. Qed.

Lemma default_camera_parameter_state :
  parameter_state default_camera
  = mkParameterState mvDefaultParams (640, 480).
Proof. apply ATANCamera_new_parameter_state. Qed.

Lemma default_camera_parameters :
  mvImageSize default_camera = (640, 480)
  /\ get5 (mpvvCameraParams default_camera) 4 = 0.07
  /\ (mvFocal default_camera).[0] <> 0
  /\ (mvFocal default_camera).[1] <> 0.
Proof.
  pose proof default_camera_parameter_state as S.
  destruct (refreshed_members _
              (reachable_refreshed _ default_camera_reachable)) as (F & _).
  unfold mvImageSize, mpvvCameraParams. rewrite F, S.
  unfold focal_of, mvDefaultParams.
  cbn [ps_mpvvCameraParams ps_mvImageSize get5 e0 e1 e4 vget fst snd].
  repeat split; lra.
Qed.

Lemma default_camera_distortion_angle :
  get5 (mpvvCameraParams default_camera) 4 <> 0
  /\ 0 <= get5 (mpvvCameraParams default_camera) 4 <= PI / 2.
Proof.
  destruct default_camera_parameters as (_ & -> & _).
  pose proof PI2_1. split; [lra|split; lra].
Qed.

Lemma undistorted_camera_parameters :
  mvImageSize undistorted_camera = (640, 480)
  /\ mpvvCameraParams undistorted_camera = mkVec5 0.5 0.8 0.5 0.5 0
  /\ get5 (mpvvCameraParams undistorted_camera) 4 = 0.
Proof.
  unfold mvImageSize, mpvvCameraParams.
  rewrite undistorted_camera_parameter_state. repeat split.
Qed.

(** The bounding box of the image of [undistorted_camera] in the normalized
    plane. *)
Lemma undistorted_camera_bounding_box :
  mvImplaneTL undistorted_camera = (-1, -0.625)
  /\ mvImplaneBR undistorted_camera = (1, 0.625).
Proof.
  destruct (refreshed_UFB_members _
              (reachable_refreshed _ undistorted_camera_reachable))
    as (TL & BR & _).
  rewrite TL, BR, undistorted_camera_parameter_state.
  rewrite image_corners_UFB by (cbn [ps_mvImageSize vget fst snd]; lra).
  cbn [ps_mpvvCameraParams].
  assert (U : forall u,
            UFBunproject_with (mkVec5 0.5 0.8 0.5 0.5 0) u
            = ((u.[0] - 0.5) / 0.5, (u.[1] - 0.5) / 0.8)).
  { intros u. unfold UFBunproject_with. cbv zeta. cbn [get5 e4].
    rewrite recovery_factor_0, vscale_1. reflexivity. }
  unfold unit_square_corners. cbn [map]. rewrite !U.
  rewrite bounding_box_minmax. cbn [vget fst snd].
  replace ((0 - 0.5) / 0.5) with (-1) by lra.
  replace ((1 - 0.5) / 0.5) with 1 by lra.
  replace ((0 - 0.5) / 0.8) with (-0.625) by lra.
  replace ((1 - 0.5) / 0.8) with 0.625 by lra.
  unfold min4, max4.
  repeat match goal with
         | |- context [Rmin ?a ?b] =>
             first [rewrite (Rmin_left a b) by lra
                   |rewrite (Rmin_right a b) by lra]
         | |- context [Rmax ?a ?b] =>
             first [rewrite (Rmax_left a b) by lra
                   |rewrite (Rmax_right a b) by lra]
         end.
  split; reflexivity.
Qed.

Lemma undistorted_camera_box_nondegenerate :
  (mvImplaneBR undistorted_camera).[0] <> (mvImplaneTL undistorted_camera).[0]
  /\ (mvImplaneBR undistorted_camera).[1]
     <> (mvImplaneTL undistorted_camera).[1].
Proof.
  destruct undistorted_camera_bounding_box as [-> ->].
  cbn [vget fst snd]. split; lra.
Qed.

(** * Further properties of the code

    Properties of [src/ATANCamera.cpp] that its specification does not
    state, each read off the source.  As above, floating-point numbers are
    real numbers, and the distortion transform is the one modelled from the
    specification: [rtrans_factor] and [invrtrans] are not among the
    sources. *)

(** ** Projections *)

(** X1.  On a reachable state with nonzero pixel focal lengths, whatever
    the distortion parameter is: [Project] maps the origin of the
    normalized plane to the principal point [mvCenter] and [UnProject] maps
    the principal point back to the origin; likewise [UFBProject] maps the
    origin to (params[2], params[3]) and [UFBUnProject] maps that point to
    the origin.  The two divisors of [UFBUnProject] (line 378) are not zero
    there, and [mvInvFocal], by which [UnProject] multiplies, is the
    inverse of [mvFocal]. *)
Theorem optical_axis_projects_to_principal_point (c : ATANCamera) :
  reachable c ->
  (mvFocal c).[0] <> 0 -> (mvFocal c).[1] <> 0 ->
  (get5 (mpvvCameraParams c) 0 <> 0
   /\ get5 (mpvvCameraParams c) 1 <> 0
   /\ mvInvFocal c = (1 / (mvFocal c).[0], 1 / (mvFocal c).[1]))
  /\ fst (Project (0, 0) c) = mvCenter c
  /\ fst (UnProject (mvCenter c) c) = (0, 0)
  /\ fst (UFBProject (0, 0) c)
     = (get5 (mpvvCameraParams c) 2, get5 (mpvvCameraParams c) 3)
  /\ fst (UFBUnProject
            (get5 (mpvvCameraParams c) 2, get5 (mpvvCameraParams c) 3) c)
     = (0, 0).
Proof.
  intros Hc F0 F1. apply reachable_refreshed in Hc.
  destruct (refreshed_members c Hc) as (F & _ & I & _).
  assert (IF : mvInvFocal c = (1 / (mvFocal c).[0], 1 / (mvFocal c).[1])).
  { rewrite I, F. reflexivity. }
  assert (N0 : get5 (mpvvCameraParams c) 0 <> 0).
  { intros Z. apply F0. rewrite F. unfold focal_of. cbn [vget fst].
    change (ps_mpvvCameraParams (parameter_state c))
      with (mpvvCameraParams c).
    rewrite Z. ring. }
  assert (N1 : get5 (mpvvCameraParams c) 1 <> 0).
  { intros Z. apply F1. rewrite F. unfold focal_of. cbn [vget snd].
    change (ps_mpvvCameraParams (parameter_state c))
      with (mpvvCameraParams c).
    rewrite Z. ring. }
  split; [exact (conj N0 (conj N1 IF))|].
  split; [|split; [|split]].
  - rewrite Project_value. generalize (factor_of (mdW c) (norm (0, 0))).
    intros f. destruct (mvCenter c) as [cx cy].
    unfold pixel_of, vscale. cbn [vget fst snd]. f_equal; ring.
  - rewrite UnProject_value. cbv zeta. rewrite IF.
    assert (D : distorted_of (mvCenter c)
                  (1 / (mvFocal c).[0], 1 / (mvFocal c).[1]) (mvCenter c)
                = (0, 0)).
    { unfold distorted_of. cbn [vget fst snd]. f_equal; field; assumption. }
    rewrite D, norm_origin, recovery_factor_origin.
    unfold vscale. cbn [vget fst snd]. f_equal; ring.
  - rewrite UFBProject_value. generalize (factor_of (mdW c) (norm (0, 0))).
    intros f. unfold pixel_of, vscale. cbn [vget fst snd]. f_equal; ring.
  - rewrite UFBUnProject_value. cbv zeta.
    assert (D : UFBdistorted_of (mpvvCameraParams c)
                  (get5 (mpvvCameraParams c) 2, get5 (mpvvCameraParams c) 3)
                = (0, 0)).
    { unfold UFBdistorted_of. cbn [vget fst snd].
      f_equal; field; assumption. }
    rewrite D, norm_origin, recovery_factor_origin.
    unfold vscale. cbn [vget fst snd]. f_equal; ring.
Qed.

(** The hypotheses of X1 hold, and so does its conclusion, for the default
    camera on a 640x480 image. *)
Lemma optical_axis_projects_to_principal_point_witness :
  let c := default_camera in
  (reachable c /\ (mvFocal c).[0] <> 0 /\ (mvFocal c).[1] <> 0)
  /\ fst (Project (0, 0) c) = mvCenter c
  /\ fst (UnProject (mvCenter c) c) = (0, 0).
Proof.
  cbv zeta.
  pose proof default_camera_reachable as R.
  destruct default_camera_parameters as (_ & _ & F0 & F1).
  pose proof (optical_axis_projects_to_principal_point default_camera
                R F0 F1) as (_ & T1 & T2 & _).
  exact (conj (conj R (conj F0 F1)) (conj T1 T2)).
Defined.

(** X2.  [Project], [UnProject], [UFBProject] and [UFBUnProject] change no
    member of the parameter state or of the derived state;
    [GetProjectionDerivs] and [MakeUFBLinearFrustumMatrix] change no member
    at all (they only add to the trace of divisors). *)
Theorem projections_leave_parameters_and_derived_state (c : ATANCamera) :
  (forall p, parameter_state (snd (Project p c)) = parameter_state c
             /\ derived_state (snd (Project p c)) = derived_state c)
  /\ (forall q, parameter_state (snd (UnProject q c)) = parameter_state c
                /\ derived_state (snd (UnProject q c)) = derived_state c)
  /\ (forall p, parameter_state (snd (UFBProject p c)) = parameter_state c
                /\ derived_state (snd (UFBProject p c)) = derived_state c)
  /\ (forall q, parameter_state (snd (UFBUnProject q c)) = parameter_state c
                /\ derived_state (snd (UFBUnProject q c)) = derived_state c)
  /\ (forall u, parameter_state (snd (GetProjectionDerivs u c))
                = parameter_state c
                /\ derived_state (snd (GetProjectionDerivs u c))
                   = derived_state c
                /\ last_op (snd (GetProjectionDerivs u c)) = last_op c)
  /\ (forall near far,
        parameter_state (snd (MakeUFBLinearFrustumMatrix near far c))
        = parameter_state c
        /\ derived_state (snd (MakeUFBLinearFrustumMatrix near far c))
           = derived_state c
        /\ last_op (snd (MakeUFBLinearFrustumMatrix near far c)) = last_op c).
Proof.
  split; [intros p; split;
          [apply Project_parameter_state|apply Project_derived_state]|].
  split; [intros q; split;
          [apply UnProject_parameter_state|apply UnProject_derived_state]|].
  split; [intros p; split;
          [apply UFBProject_parameter_state|apply UFBProject_derived_state]|].
  split; [intros q; split;
          [apply UFBUnProject_parameter_state
          |apply UFBUnProject_derived_state]|].
  split.
  - intros u. rewrite GetProjectionDerivs_frame. repeat split.
  - intros near far. rewrite MakeUFBLinearFrustumMatrix_spec. repeat split.
Qed.

(** X3.  On a reachable state the pixel [Project] returns is the point
    [UFBProject] returns scaled by the image size, minus 0.5 on each axis;
    and when the image size is not zero, [UnProject] of the pixel
    (W u - 0.5, H v - 0.5) is [UFBUnProject] of (u, v). *)
Theorem pixel_coordinates_scale_UFB_coordinates (c : ATANCamera) :
  reachable c ->
  let W := (mvImageSize c).[0] in
  let H := (mvImageSize c).[1] in
  (forall p,
     fst (Project p c)
     = (W * (fst (UFBProject p c)).[0] - 0.5,
        H * (fst (UFBProject p c)).[1] - 0.5))
  /\ (W <> 0 -> H <> 0 ->
      forall u,
        fst (UnProject (W * u.[0] - 0.5, H * u.[1] - 0.5) c)
        = fst (UFBUnProject u c)).
Proof.
  intros Hc. apply reachable_refreshed in Hc. cbv zeta. split.
  - intros p. rewrite (Project_refreshed p c Hc), UFBProject_value.
    destruct (refreshed_members c Hc) as (_ & _ & _ & W & _).
    rewrite W. unfold project_with. rewrite pixel_of_pixel_of_UFB.
    reflexivity.
  - intros H0 H1 u.
    rewrite (refreshed_UnProject _ c Hc), (refreshed_UFBUnProject u c Hc).
    apply (unproject_with_pixel_of_UFB (parameter_state c) u H0 H1).
Qed.

(** The hypotheses of X3 hold, and so does its conclusion, for the default
    camera on a 640x480 image. *)
Lemma pixel_coordinates_scale_UFB_coordinates_witness :
  let c := default_camera in
  reachable c
  /\ forall p,
       fst (Project p c)
       = ((mvImageSize c).[0] * (fst (UFBProject p c)).[0] - 0.5,
          (mvImageSize c).[1] * (fst (UFBProject p c)).[1] - 0.5).
Proof.
  exact (conj default_camera_reachable
           (proj1 (pixel_coordinates_scale_UFB_coordinates _
                     default_camera_reachable))).
Defined.

(** X4.  Pixel round trip, in exact arithmetic.  On a reachable state with
    nonzero pixel focal lengths and a distortion angle [w] in [0, pi/2]:
    if the distorted radius [rd] of a pixel is below 0.001, or above 0.01
    with [rd * w < pi/2], then [Project] of what [UnProject] returns is the
    pixel again; likewise for [UFBProject] after [UFBUnProject].  (Between
    the two guards [UnProject] returns the distorted point itself while
    [Project] applies the distortion factor to it.)

    The projection computes the pixel from the point alone: it does so on
    the state [UnProject] left and on any state [c2] of the same camera
    (same parameters, same derived state), whatever the cache of [c2]
    holds. *)
Theorem pixel_round_trip (q : Vec2) (c c2 : ATANCamera) :
  reachable c ->
  (mvFocal c).[0] <> 0 -> (mvFocal c).[1] <> 0 ->
  0 <= get5 (mpvvCameraParams c) 4 <= PI / 2 ->
  parameter_state c2 = parameter_state c ->
  derived_state c2 = derived_state c ->
  (let rd := mdLastDistR (snd (UnProject q c)) in
   rd < 0.001 \/ (0.01 < rd /\ rd * get5 (mpvvCameraParams c) 4 < PI / 2) ->
   fst (Project (fst (UnProject q c)) (snd (UnProject q c))) = q
   /\ fst (Project (fst (UnProject q c)) c2) = q)
  /\ (let rd := mdLastDistR (snd (UFBUnProject q c)) in
      rd < 0.001 \/ (0.01 < rd /\ rd * get5 (mpvvCameraParams c) 4 < PI / 2) ->
      fst (UFBProject (fst (UFBUnProject q c)) (snd (UFBUnProject q c))) = q
      /\ fst (UFBProject (fst (UFBUnProject q c)) c2) = q).
Proof.
  intros Hc F0 F1 Hw P2 D2. apply reachable_refreshed in Hc.
  destruct (refreshed_members c Hc) as (F & C & I & W & _).
  cbv zeta in W. cbv zeta.
  assert (IF : mvInvFocal c = (1 / (mvFocal c).[0], 1 / (mvFocal c).[1])).
  { rewrite I, F. reflexivity. }
  assert (N0 : get5 (mpvvCameraParams c) 0 <> 0).
  { intros Z. apply F0. rewrite F. unfold focal_of. cbn [vget fst].
    change (ps_mpvvCameraParams (parameter_state c))
      with (mpvvCameraParams c).
    rewrite Z. ring. }
  assert (N1 : get5 (mpvvCameraParams c) 1 <> 0).
  { intros Z. apply F1. rewrite F. unfold focal_of. cbn [vget snd].
    change (ps_mpvvCameraParams (parameter_state c))
      with (mpvvCameraParams c).
    rewrite Z. ring. }
  split.
  - destruct (UnProject_cache q c) as (_ & _ & LD & _). cbv zeta in LD.
    rewrite LD. intros Hd.
    assert (A : forall c', derived_state c' = derived_state c ->
                  fst (Project (fst (UnProject q c)) c') = q).
    { intros c' D. rewrite Project_value.
      unfold mvCenter, mvFocal, mdW. rewrite D.
      fold (mvCenter c) (mvFocal c) (mdW c).
      rewrite UnProject_value. cbv zeta. rewrite W in *.
      rewrite redistort_undistorted by assumption.
      rewrite IF. apply pixel_of_distorted_of; assumption. }
    split; apply A; [apply UnProject_derived_state|exact D2].
  - assert (LD : mdLastDistR (snd (UFBUnProject q c))
                 = norm (UFBdistorted_of (mpvvCameraParams c) q)).
    { rewrite UFBUnProject_spec. reflexivity. }
    rewrite LD. intros Hd.
    assert (A : forall c', parameter_state c' = parameter_state c ->
                  derived_state c' = derived_state c ->
                  fst (UFBProject (fst (UFBUnProject q c)) c') = q).
    { intros c' P D. rewrite UFBProject_value.
      unfold mpvvCameraParams, mdW. rewrite P, D.
      fold (mpvvCameraParams c) (mdW c).
      rewrite UFBUnProject_value. cbv zeta. rewrite W in *.
      rewrite redistort_undistorted by assumption.
      destruct q as [q0 q1]. unfold pixel_of, UFBdistorted_of.
      cbn [vget fst snd]. f_equal; field; assumption. }
    split; apply A;
      [apply UFBUnProject_parameter_state|apply UFBUnProject_derived_state
      |exact P2|exact D2].
Qed.

(** The hypotheses of X4 hold, and so does its conclusion, for the default
    camera on a 640x480 image and the pixel one focal length to the right
    of the principal point, whose distorted radius is 1; the point is
    projected on the state [UnProject] left and on the state a projection
    of the origin left, whose cache holds another pixel. *)
Lemma pixel_round_trip_witness :
  let c := default_camera in
  let q := pixel_of (mvCenter c) (mvFocal c) (1, 0) in
  let c2 := snd (Project (0, 0) c) in
  (reachable c
   /\ (mvFocal c).[0] <> 0 /\ (mvFocal c).[1] <> 0
   /\ 0 <= get5 (mpvvCameraParams c) 4 <= PI / 2
   /\ parameter_state c2 = parameter_state c
   /\ derived_state c2 = derived_state c
   /\ 0.01 < mdLastDistR (snd (UnProject q c))
   /\ mdLastDistR (snd (UnProject q c)) * get5 (mpvvCameraParams c) 4
      < PI / 2)
  /\ mvLastIm c2 <> q
  /\ fst (Project (fst (UnProject q c)) (snd (UnProject q c))) = q
  /\ fst (Project (fst (UnProject q c)) c2) = q.
Proof.
  cbv zeta.
  pose proof default_camera_reachable as R.
  destruct default_camera_parameters as (_ & EW & F0 & F1).
  destruct default_camera_distortion_angle as [_ A].
  destruct (refreshed_members _ (reachable_refreshed _ R))
    as (F & _ & I & _).
  assert (IF : mvInvFocal default_camera
               = (1 / (mvFocal default_camera).[0],
                  1 / (mvFocal default_camera).[1])).
  { rewrite I, F. reflexivity. }
  set (q := pixel_of (mvCenter default_camera) (mvFocal default_camera)
              (1, 0)).
  assert (RD : mdLastDistR (snd (UnProject q default_camera)) = 1).
  { destruct (UnProject_cache q default_camera) as (_ & _ & -> & _).
    rewrite IF. unfold q. rewrite distorted_of_pixel_of by assumption.
    apply norm_unit_x. }
  assert (G : 0.01 < mdLastDistR (snd (UnProject q default_camera)))
    by (rewrite RD; lra).
  assert (B : mdLastDistR (snd (UnProject q default_camera))
              * get5 (mpvvCameraParams default_camera) 4 < PI / 2).
  { rewrite RD, EW. pose proof PI2_1. lra. }
  pose proof (Project_parameter_state (0, 0) default_camera) as P2.
  pose proof (Project_derived_state (0, 0) default_camera) as D2.
  assert (L : mvLastIm (snd (Project (0, 0) default_camera)) <> q).
  { destruct (Project_cache (0, 0) default_camera)
      as (_ & _ & _ & _ & _ & ->).
    rewrite Project_value. unfold q.
    generalize (factor_of (mdW default_camera) (norm (0, 0))). intros f.
    destruct (mvCenter default_camera) as [cx cy].
    destruct (mvFocal default_camera) as [fx fy].
    unfold pixel_of, vscale. cbn [vget fst snd] in *.
    intros E. injection E as E0 E1. apply F0.
    replace (f * 0) with 0 in E0 by ring. lra. }
  pose proof (proj1 (pixel_round_trip q default_camera _ R F0 F1 A P2 D2)
                (or_intror (conj G B))) as T.
  exact (conj (conj R (conj F0 (conj F1 (conj A (conj P2 (conj D2
                 (conj G B)))))))
           (conj L T)).
Defined.

(** X5.  Below the guards.  On a reachable state with nonzero pixel focal
    lengths: whenever the distorted point [Project] caches has radius at
    most 0.01, [UnProject] of the pixel returns that distorted point; so
    for a point of radius below 0.001 the round trip is exact, and for a
    point of radius at least 0.001 (with [0 < w < pi]) the cached factor
    exceeds 1 and [UnProject] of its pixel is not the point. *)
Theorem round_trip_below_the_guards (c : ATANCamera) :
  reachable c ->
  (mvFocal c).[0] <> 0 -> (mvFocal c).[1] <> 0 ->
  (forall p,
     norm (mvLastDistCam (snd (Project p c))) <= 0.01 ->
     fst (UnProject (fst (Project p c)) (snd (Project p c)))
     = mvLastDistCam (snd (Project p c)))
  /\ (forall p,
        norm p < 0.001 ->
        fst (UnProject (fst (Project p c)) (snd (Project p c))) = p)
  /\ (forall p,
        0 < get5 (mpvvCameraParams c) 4 < PI ->
        0.001 <= norm p ->
        norm (mvLastDistCam (snd (Project p c))) <= 0.01 ->
        1 < mdLastFactor (snd (Project p c))
        /\ fst (UnProject (fst (Project p c)) (snd (Project p c))) <> p).
Proof.
  intros Hc F0 F1. apply reachable_refreshed in Hc.
  destruct (refreshed_members c Hc) as (F & C & I & W & _).
  cbv zeta in W.
  assert (IF : mvInvFocal c = (1 / (mvFocal c).[0], 1 / (mvFocal c).[1])).
  { rewrite I, F. reflexivity. }
  assert (G : forall p,
            norm (mvLastDistCam (snd (Project p c))) <= 0.01 ->
            fst (UnProject (fst (Project p c)) (snd (Project p c)))
            = mvLastDistCam (snd (Project p c))).
  { intros p. destruct (Project_cache p c) as (_ & _ & _ & _ & LD & _).
    cbv zeta in LD. rewrite LD. intros Hd.
    rewrite UnProject_value. cbv zeta.
    destruct (derived_members_of_state _ _ (Project_derived_state p c))
      as (_ & _ & _ & _ & DW & DC & DI & _).
    rewrite DW, DC, DI, Project_value, IF.
    rewrite distorted_of_pixel_of by assumption.
    unfold recovery_factor.
    destruct (Rgt_dec _ 0.01) as [N|_]; [lra|]. apply vscale_1. }
  split; [exact G|]. split.
  - intros p Hp.
    assert (D : mvLastDistCam (snd (Project p c)) = p).
    { destruct (Project_cache p c) as (_ & _ & _ & _ & LD & _).
      cbv zeta in LD. rewrite LD. unfold factor_of.
      destruct (Req_dec_T (mdW c) 0); [apply vscale_1|].
      destruct (Rlt_dec (norm p) 0.001); [apply vscale_1|lra]. }
    rewrite G; [exact D|]. rewrite D. lra.
  - intros p Hw Hp Hd.
    destruct (Project_cache p c) as (_ & _ & LF & _ & LD & _).
    cbv zeta in LF, LD. rewrite W in LF, LD.
    set (w := get5 (mpvvCameraParams c) 4) in *.
    assert (Hf : 1 < factor_of w (norm p)).
    { apply factor_of_gt_1; [exact Hw|]. split; [exact Hp|].
      destruct (Rlt_le_dec (norm p) (1 / 2)) as [L|Ge]; [exact L|exfalso].
      pose proof (distorted_radius_ge_half w (norm p) Hw Ge) as B.
      assert (P0 : 0 <= factor_of w (norm p)) by nra.
      rewrite LD, norm_vscale in Hd by exact P0. lra. }
    split; [rewrite LF; exact Hf|].
    rewrite (G p Hd), LD. intros E.
    destruct (vscale_fixed_point _ _ E) as [E1|E0]; lra.
Qed.

(** The hypotheses of X5 hold, and so does its conclusion, for the default
    camera on a 640x480 image: the origin comes back, the point (0.005, 0)
    does not. *)
Lemma round_trip_below_the_guards_witness :
  let c := default_camera in
  let q := (0.005, 0) in
  (reachable c /\ (mvFocal c).[0] <> 0 /\ (mvFocal c).[1] <> 0
   /\ norm (0, 0) < 0.001
   /\ 0 < get5 (mpvvCameraParams c) 4 < PI
   /\ 0.001 <= norm q
   /\ norm (mvLastDistCam (snd (Project q c))) <= 0.01)
  /\ fst (UnProject (fst (Project (0, 0) c)) (snd (Project (0, 0) c)))
     = (0, 0)
  /\ 1 < mdLastFactor (snd (Project q c))
  /\ fst (UnProject (fst (Project q c)) (snd (Project q c))) <> q.
Proof.
  cbv zeta.
  pose proof default_camera_reachable as R.
  destruct default_camera_parameters as (_ & W & F0 & F1).
  assert (N : norm (0, 0) < 0.001) by (rewrite norm_origin; lra).
  assert (HW : 0 < get5 (mpvvCameraParams default_camera) 4 < PI).
  { rewrite W. pose proof PI2_1. pose proof PI_RGT_0. lra. }
  assert (Q : norm (0.005, 0) = 0.005).
  { replace (0.005, 0) with (vscale 0.005 (1, 0))
      by (unfold vscale; cbn [vget fst snd]; f_equal; lra).
    rewrite norm_vscale by lra. rewrite norm_unit_x. lra. }
  assert (HQ : 0.001 <= norm (0.005, 0)) by (rewrite Q; lra).
  assert (HD : norm (mvLastDistCam (snd (Project (0.005, 0) default_camera)))
               <= 0.01).
  { destruct (Project_cache (0.005, 0) default_camera)
      as (_ & _ & _ & _ & -> & _).
    destruct (refreshed_members _ (reachable_refreshed _ R))
      as (_ & _ & _ & EW & _).
    cbv zeta in EW. rewrite EW, W, Q.
    pose proof PI2_1 as HPI.
    destruct (factor_of_bounds 0.07 0.005 ltac:(lra) ltac:(lra)) as [B0 B1].
    rewrite norm_vscale by lra. rewrite Q. lra. }
  pose proof (round_trip_below_the_guards default_camera R F0 F1)
    as (_ & T2 & T3).
  exact (conj (conj R (conj F0 (conj F1 (conj N (conj HW (conj HQ HD))))))
           (conj (T2 (0, 0) N) (T3 (0.005, 0) HW HQ HD))).
Defined.

(** X6.  On a reachable state with a positive image size and a distortion
    angle [w] in [0, pi/2] such that the farthest corner has
    [radius * w < pi/2]: for every pixel of the image rectangle
    [-0.5, W - 0.5] x [-0.5, H - 0.5], the distorted radius [UnProject]
    caches is at most the radius of the farthest corner (line 110), the
    undistorted radius it caches is at most [mdLargestRadius], which is at
    most [mdMaxR], and [Project] of the point [UnProject] returns does not
    raise [mbInvalid]. *)
Theorem image_pixels_are_inside_the_valid_radius (q : Vec2) (c : ATANCamera) :
  reachable c ->
  0 < (mvImageSize c).[0] -> 0 < (mvImageSize c).[1] ->
  0 <= get5 (mpvvCameraParams c) 4 <= PI / 2 ->
  norm (farthest_corner (mpvvCameraParams c)) * get5 (mpvvCameraParams c) 4
  < PI / 2 ->
  - 0.5 <= q.[0] <= (mvImageSize c).[0] - 0.5 ->
  - 0.5 <= q.[1] <= (mvImageSize c).[1] - 0.5 ->
  let c' := snd (UnProject q c) in
  mdLastDistR c' <= norm (farthest_corner (mpvvCameraParams c))
  /\ mdLastR c' <= mdLargestRadius c
  /\ mdLargestRadius c <= mdMaxR c
  /\ mbInvalid (snd (Project (fst (UnProject q c)) c')) = false.
Proof.
  intros Hc HW HH Hw HF Q0 Q1. apply reachable_refreshed in Hc. cbv zeta.
  pose proof PI_RGT_0 as HPI.
  destruct (refreshed_members c Hc) as (_ & C & I & W & _ & _ & _ & M).
  cbv zeta in W, M.
  pose proof (refreshed_derived_of c Hc) as D.
  assert (L : mdLargestRadius c
              = undist_of (get5 (mpvvCameraParams c) 4)
                  (norm (farthest_corner (mpvvCameraParams c)))).
  { unfold mdLargestRadius. rewrite D. reflexivity. }
  destruct (UnProject_cache q c) as (_ & _ & LD & LR & _).
  cbv zeta in LD, LR. rewrite LD, LR, L, W, C, I.
  set (w := get5 (mpvvCameraParams c) 4) in *.
  set (Rf := norm (farthest_corner (mpvvCameraParams c))) in *.
  destruct (pixel_inside_image _ _ HW Q0) as [U0 E0].
  destruct (pixel_inside_image _ _ HH Q1) as [U1 E1].
  set (u := ((q.[0] + 0.5) / (mvImageSize c).[0],
             (q.[1] + 0.5) / (mvImageSize c).[1])) in *.
  assert (Eq : q = pixel_of_UFB (ps_mvImageSize (parameter_state c)) u).
  { unfold pixel_of_UFB, u.
    change (ps_mvImageSize (parameter_state c)) with (mvImageSize c).
    cbn [vget fst snd] in E0, E1 |- *.
    rewrite E0, E1. destruct q; reflexivity. }
  assert (Ed : distorted_of (center_of (parameter_state c))
                 (invfocal_of (parameter_state c)) q
               = UFBdistorted_of (mpvvCameraParams c) u).
  { rewrite Eq at 1. apply distorted_of_pixel_of_UFB.
    - change (ps_mvImageSize (parameter_state c)) with (mvImageSize c). lra.
    - change (ps_mvImageSize (parameter_state c)) with (mvImageSize c). lra. }
  rewrite Ed.
  set (dc := UFBdistorted_of (mpvvCameraParams c) u) in *.
  assert (B : norm dc <= Rf) by (apply UFBdistorted_of_le_farthest; assumption).
  pose proof (norm_nonneg dc) as N0.
  assert (Hw' : 0 <= w < PI) by lra.
  assert (MR : undist_of w (norm dc) <= undist_of w Rf)
    by (apply undist_of_le; assumption).
  assert (LP : 0 <= undist_of w Rf).
  { apply undist_of_nonneg; try assumption. lra. }
  split; [exact B|]. split; [exact MR|]. split; [rewrite M; fold w Rf; lra|].
  (* the flag *)
  rewrite Project_mbInvalid.
  assert (MX : mdMaxR (snd (UnProject q c)) = 1.5 * undist_of w Rf).
  { unfold mdMaxR. rewrite UnProject_derived_state. exact M. }
  rewrite MX, UnProject_value. cbv zeta. rewrite C, I, W, Ed. fold w dc.
  unfold Rgtb. destruct (Rgt_dec _ _) as [G|_]; [exfalso|reflexivity].
  revert G. apply Rle_not_gt.
  assert (ND : norm dc * w < PI / 2).
  { apply Rle_lt_trans with (Rf * w); [|exact HF].
    apply Rmult_le_compat_r; lra. }
  pose proof (undist_of_nonneg w (norm dc) Hw' N0 ND) as UP.
  unfold recovery_factor. destruct (Rgt_dec (norm dc) 0.01) as [G|G].
  - rewrite norm_vscale.
    + replace (undist_of w (norm dc) / norm dc * norm dc)
        with (undist_of w (norm dc)) by (field; lra).
      lra.
    + apply Rmult_le_pos; [exact UP|]. left. apply Rinv_0_lt_compat. lra.
  - rewrite vscale_1.
    apply Rle_trans with Rf; [exact B|].
    unfold undist_of. destruct (Req_dec_T w 0) as [Z|NZ].
    + pose proof (Rle_trans _ _ _ N0 B). lra.
    + assert (T0 : 0 < tan (w / 2)) by (apply tan_gt_0; lra).
      assert (T1 : tan (w / 2) <= 0.75 * w) by (apply tan_half_le; lra).
      assert (R0 : 0 <= Rf) by lra.
      assert (T2 : Rf * w <= tan (Rf * w)).
      { apply tan_ge_id. split; [apply Rmult_le_pos; lra|exact HF]. }
      apply Rmult_le_reg_r with (2 * tan (w / 2)); [lra|].
      replace (1.5 * (tan (Rf * w) / (2 * tan (w / 2))) * (2 * tan (w / 2)))
        with (1.5 * tan (Rf * w)) by (field; lra).
      nra.
Qed.

(** The hypotheses of X6 hold, and so does its conclusion, for the camera
    (0.5, 0.8, 0.5, 0.5, 0) on a 640x480 image and the pixel (0, 0). *)
Lemma image_pixels_are_inside_the_valid_radius_witness :
  let c := undistorted_camera in
  (reachable c
   /\ 0 < (mvImageSize c).[0] /\ 0 < (mvImageSize c).[1]
   /\ 0 <= get5 (mpvvCameraParams c) 4 <= PI / 2
   /\ norm (farthest_corner (mpvvCameraParams c))
      * get5 (mpvvCameraParams c) 4 < PI / 2
   /\ - 0.5 <= (0, 0).[0] <= (mvImageSize c).[0] - 0.5
   /\ - 0.5 <= (0, 0).[1] <= (mvImageSize c).[1] - 0.5)
  /\ mbInvalid (snd (Project (fst (UnProject (0, 0) c))
                       (snd (UnProject (0, 0) c)))) = false.
Proof.
  cbv zeta.
  pose proof undistorted_camera_reachable as R.
  destruct undistorted_camera_parameters as (S & _ & Z).
  pose proof PI_RGT_0 as HPI.
  assert (W0 : 0 < (mvImageSize undistorted_camera).[0])
    by (rewrite S; cbn [vget fst]; lra).
  assert (H0 : 0 < (mvImageSize undistorted_camera).[1])
    by (rewrite S; cbn [vget snd]; lra).
  assert (A : 0 <= get5 (mpvvCameraParams undistorted_camera) 4 <= PI / 2)
    by (rewrite Z; lra).
  assert (B : norm (farthest_corner (mpvvCameraParams undistorted_camera))
              * get5 (mpvvCameraParams undistorted_camera) 4 < PI / 2)
    by (rewrite Z; lra).
  assert (Q0 : - 0.5 <= (0, 0).[0] <= (mvImageSize undistorted_camera).[0] - 0.5)
    by (rewrite S; cbn [vget fst]; lra).
  assert (Q1 : - 0.5 <= (0, 0).[1] <= (mvImageSize undistorted_camera).[1] - 0.5)
    by (rewrite S; cbn [vget snd]; lra).
  exact (conj (conj R (conj W0 (conj H0 (conj A (conj B (conj Q0 Q1))))))
           (proj2 (proj2 (proj2
              (image_pixels_are_inside_the_valid_radius (0, 0)
                 undistorted_camera R W0 H0 A B Q0 Q1))))).
Defined.

(** ** Parameter refresh *)

(** X7.  On a reachable state: [mdW] is the last parameter, [mdMaxR] is 1.5
    times [mdLargestRadius], [mvInvFocal] is the inverse of [mvFocal] on
    each axis where the focal length is not zero; when [w <> 0] the
    distortion flag is 1, [mdWinv] is the inverse of [mdW], [md2Tan] is
    2 tan(w/2) and [mdOneOver2Tan] is its inverse; when [w = 0] the flag,
    [mdWinv] and [md2Tan] are 0 and [mdLargestRadius] is the radius of the
    farthest corner. *)
Theorem derived_scalars_consistent (c : ATANCamera) :
  reachable c ->
  let w := get5 (mpvvCameraParams c) 4 in
  mdW c = w
  /\ mdMaxR c = 1.5 * mdLargestRadius c
  /\ (forall j, (mvFocal c).[j] <> 0 ->
                (mvInvFocal c).[j] * (mvFocal c).[j] = 1)
  /\ (w <> 0 ->
      mdDistortionEnabled c = 1
      /\ mdWinv c * mdW c = 1
      /\ md2Tan c = 2 * tan (mdW c / 2)
      /\ (md2Tan c <> 0 -> mdOneOver2Tan c * md2Tan c = 1))
  /\ (w = 0 ->
      mdDistortionEnabled c = 0 /\ mdWinv c = 0 /\ md2Tan c = 0
      /\ mdLargestRadius c = norm (farthest_corner (mpvvCameraParams c))).
Proof.
  intros Hc. apply reachable_refreshed in Hc. cbv zeta.
  pose proof (refreshed_derived_of c Hc) as D.
  unfold mdW, mdMaxR, mdLargestRadius, mvInvFocal, mvFocal,
    mdDistortionEnabled, mdWinv, md2Tan.
  unfold mdOneOver2Tan at 1. rewrite D. unfold derived_of. cbv zeta.
  cbn [ds_mvFocal ds_mvInvFocal ds_mdW ds_md2Tan ds_mdOneOver2Tan ds_mdWinv
       ds_mdDistortionEnabled ds_mdLargestRadius ds_mdMaxR].
  change (ps_mpvvCameraParams (parameter_state c)) with (mpvvCameraParams c).
  set (w := get5 (mpvvCameraParams c) 4).
  split; [reflexivity|]. split; [reflexivity|]. split; [|split].
  - intros j Hj. unfold invfocal_of.
    destruct j as [|j]; cbn [vget fst snd] in *; field; exact Hj.
  - intros N. destruct (Rneq_dec w 0) as [_|Z]; [|contradiction].
    split; [reflexivity|]. split; [field; exact N|]. split; [reflexivity|].
    intros T. field. lra.
  - intros Z. destruct (Rneq_dec w 0) as [N|_]; [contradiction|].
    rewrite Z, undist_of_0. repeat split.
Qed.

(** The hypotheses of X7 hold, and so does its conclusion, for the default
    camera on a 640x480 image. *)
Lemma derived_scalars_consistent_witness :
  let c := default_camera in
  reachable c /\ mdMaxR c = 1.5 * mdLargestRadius c.
Proof.
  exact (conj default_camera_reachable
           (proj1 (proj2 (derived_scalars_consistent _
                            default_camera_reachable)))).
Defined.

(** X8.  The branch [mdW == 0] of [RefreshParams] does not assign
    [mdOneOver2Tan]: after [DisableRadialDistortion], and after any refresh
    with [w = 0], it keeps the value it had, while [md2Tan] becomes 0; with
    [w <> 0] a refresh sets it to 1 / (2 tan(w/2)). *)
Theorem mdOneOver2Tan_is_stale_when_distortion_disabled (c : ATANCamera) :
  mdOneOver2Tan (DisableRadialDistortion c) = mdOneOver2Tan c
  /\ md2Tan (DisableRadialDistortion c) = 0
  /\ (get5 (mpvvCameraParams c) 4 = 0 ->
      mdOneOver2Tan (RefreshParams c) = mdOneOver2Tan c)
  /\ (get5 (mpvvCameraParams c) 4 <> 0 ->
      mdOneOver2Tan (RefreshParams c)
      = 1 / (2 * tan (get5 (mpvvCameraParams c) 4 / 2))).
Proof.
  unfold DisableRadialDistortion. cbv zeta.
  unfold mdOneOver2Tan at 1 3 5, md2Tan. rewrite !RefreshParams_derived_of.
  unfold derived_of. cbv zeta. cbn [ds_mdOneOver2Tan ds_md2Tan].
  change (ps_mpvvCameraParams (parameter_state c)) with (mpvvCameraParams c).
  cam_red. unfold NUMTRACKERCAMPARAMETERS. cbn [Nat.sub set5 get5 e4].
  destruct (Rneq_dec 0 0) as [N|_]; [contradiction|].
  split; [reflexivity|]. split; [reflexivity|].
  split; intros H; destruct (Rneq_dec _ 0) as [N|Z];
    try reflexivity; contradiction.
Qed.

(** X9.  On a reachable state without distortion ([w = 0]),
    [mdOnePixelDist] is the norm of the inverse focal lengths divided by
    the square root of 2; for square pixels of focal length [f] it is
    1 / |f|. *)
Theorem one_pixel_distance_without_distortion (c : ATANCamera) :
  reachable c ->
  get5 (mpvvCameraParams c) 4 = 0 ->
  mdOnePixelDist c = norm (mvInvFocal c) / sqrt 2
  /\ (forall f, f <> 0 -> mvFocal c = (f, f) -> mdOnePixelDist c = 1 / Rabs f).
Proof.
  intros Hc Z. apply reachable_refreshed in Hc.
  pose proof (refreshed_derived_of c Hc) as D.
  destruct (refreshed_members c Hc) as (F & _ & I & _).
  assert (E : mdOnePixelDist c = norm (mvInvFocal c) / sqrt 2).
  { unfold mdOnePixelDist. rewrite D. unfold derived_of. cbv zeta.
    cbn [ds_mdOnePixelDist]. unfold one_pixel_of. cbv zeta.
    rewrite !unproject_with_0 by exact Z. rewrite I.
    f_equal.
    destruct (invfocal_of (parameter_state c)) as [i0 i1].
    rewrite <- (norm_opp i0 i1).
    unfold vsub, distorted_of, vadd, vscale. cbn [vget fst snd].
    f_equal. f_equal; ring. }
  split; [exact E|].
  intros f Hf Ef. rewrite E, I. unfold invfocal_of. rewrite <- F, Ef.
  cbn [vget fst snd]. rewrite norm_diag.
  assert (S2 : 0 < sqrt 2) by (apply sqrt_lt_R0; lra).
  unfold Rdiv at 2. rewrite Rmult_1_l, Rabs_inv. field.
  split; [apply Rabs_no_R0; exact Hf|lra].
Qed.

(** The hypotheses of X9 hold, and so does its conclusion, for the camera
    (0.5, 0.8, 0.5, 0.5, 0) on a 640x480 image. *)
Lemma one_pixel_distance_without_distortion_witness :
  let c := undistorted_camera in
  (reachable c /\ get5 (mpvvCameraParams c) 4 = 0)
  /\ mdOnePixelDist c = norm (mvInvFocal c) / sqrt 2.
Proof.
  cbv zeta.
  pose proof undistorted_camera_reachable as R.
  destruct undistorted_camera_parameters as (_ & _ & Z).
  exact (conj (conj R Z)
           (proj1 (one_pixel_distance_without_distortion _ R Z))).
Defined.

(** X10.  On a reachable state, [mvImplaneTL] and [mvImplaneBR] are the
    corners of the bounding box of what [UnProject] returns for the four
    corner pixels of the image: every one of the four points lies between
    them on each axis, each bound is attained by one of the points, and
    [mvUFBLinearInvFocal], their difference, is not negative. *)
Theorem image_plane_bounding_box (c : ATANCamera) :
  reachable c ->
  let W := (mvImageSize c).[0] in
  let H := (mvImageSize c).[1] in
  let vv2Verts :=
    [fst (UnProject (-0.5, -0.5) c); fst (UnProject (W - 0.5, -0.5) c);
     fst (UnProject (W - 0.5, H - 0.5) c); fst (UnProject (-0.5, H - 0.5) c)]
  in
  (forall v j, In v vv2Verts ->
     (mvImplaneTL c).[j] <= v.[j] <= (mvImplaneBR c).[j])
  /\ (forall j, exists v v',
        In v vv2Verts /\ In v' vv2Verts
        /\ (mvImplaneTL c).[j] = v.[j] /\ (mvImplaneBR c).[j] = v'.[j])
  /\ mvUFBLinearInvFocal c = vsub (mvImplaneBR c) (mvImplaneTL c)
  /\ 0 <= (mvUFBLinearInvFocal c).[0]
  /\ 0 <= (mvUFBLinearInvFocal c).[1].
Proof.
  intros Hc. apply reachable_refreshed in Hc. cbv zeta.
  destruct (refreshed_UFB_members c Hc) as (TL & BR & IFo & _).
  rewrite !(refreshed_UnProject _ c Hc).
  rewrite IFo, TL, BR. clear TL BR IFo.
  unfold image_corners, corner_pixels, mvImageSize. cbn [map].
  set (a := unproject_with _ (-0.5, -0.5)).
  set (b := unproject_with _ (_, -0.5)).
  set (d := unproject_with _ (-0.5, _)).
  set (e := unproject_with _ (_ - 0.5, _ - 0.5)).
  rewrite bounding_box_minmax. cbn [fst snd].
  pose proof (min4_le a.[0] b.[0] e.[0] d.[0]) as (L1 & L2 & L3 & L4).
  pose proof (min4_le a.[1] b.[1] e.[1] d.[1]) as (L5 & L6 & L7 & L8).
  pose proof (max4_ge a.[0] b.[0] e.[0] d.[0]) as (G1 & G2 & G3 & G4).
  pose proof (max4_ge a.[1] b.[1] e.[1] d.[1]) as (G5 & G6 & G7 & G8).
  split; [|split; [|split; [reflexivity|]]].
  - intros v j [<-|[<-|[<-|[<-|[]]]]]; destruct j as [|j];
      cbn [vget fst snd]; split; assumption.
  - assert (X : forall m n : R, forall f : Vec2 -> R,
               (m = f a \/ m = f b \/ m = f e \/ m = f d) ->
               (n = f a \/ n = f b \/ n = f e \/ n = f d) ->
               exists v v', In v [a; b; e; d] /\ In v' [a; b; e; d]
                            /\ m = f v /\ n = f v').
    { intros m n f Hm Hn.
      assert (Hm' : exists v, In v [a; b; e; d] /\ m = f v).
      { destruct Hm as [E|[E|[E|E]]];
          [exists a|exists b|exists e|exists d]; (split; [cbn; tauto|exact E]). }
      assert (Hn' : exists v, In v [a; b; e; d] /\ n = f v).
      { destruct Hn as [E|[E|[E|E]]];
          [exists a|exists b|exists e|exists d]; (split; [cbn; tauto|exact E]). }
      destruct Hm' as (v & Iv & Ev), Hn' as (v' & Iv' & Ev').
      exists v, v'. repeat split; assumption. }
    intros j. destruct j as [|j]; cbn [vget fst snd].
    + apply (X _ _ fst); [apply min4_in|apply max4_in].
    + apply (X _ _ snd); [apply min4_in|apply max4_in].
  - unfold vsub. cbn [vget fst snd] in *. split; lra.
Qed.

(** The hypotheses of X10 hold, and so does its conclusion, for the default
    camera on a 640x480 image. *)
Lemma image_plane_bounding_box_witness :
  reachable default_camera
  /\ mvUFBLinearInvFocal default_camera
     = vsub (mvImplaneBR default_camera) (mvImplaneTL default_camera).
Proof.
  exact (conj default_camera_reachable
           (proj1 (proj2 (proj2 (image_plane_bounding_box _
                                   default_camera_reachable))))).
Defined.

(** X11.  On a reachable state whose bounding box is not degenerate on axis
    [j], the linear projection t |-> mvUFBLinearCenter[j] +
    mvUFBLinearFocal[j] * t maps [mvImplaneTL[j]] to 0 and [mvImplaneBR[j]]
    to 1, so the box to [0, 1]; [mvUFBLinearFocal] is the inverse of
    [mvUFBLinearInvFocal]. *)
Theorem UFB_linear_projection_fills_unit_square (c : ATANCamera) (j : nat) :
  reachable c ->
  (mvImplaneBR c).[j] <> (mvImplaneTL c).[j] ->
  let lin t := (mvUFBLinearCenter c).[j] + (mvUFBLinearFocal c).[j] * t in
  lin (mvImplaneTL c).[j] = 0
  /\ lin (mvImplaneBR c).[j] = 1
  /\ (mvUFBLinearFocal c).[j] * (mvUFBLinearInvFocal c).[j] = 1
  /\ forall t, (mvImplaneTL c).[j] <= t <= (mvImplaneBR c).[j] ->
               0 <= lin t <= 1.
Proof.
  intros Hc N. apply reachable_refreshed in Hc. cbv zeta.
  destruct (refreshed_UFB_linear c j Hc) as (I & F & C). cbv zeta in I, F, C.
  assert (O : (mvImplaneTL c).[j] <= (mvImplaneBR c).[j]).
  { destruct (refreshed_bounding_box_ordered c Hc) as [O0 O1].
    destruct j; assumption. }
  rewrite I, F, C.
  set (a := (mvImplaneTL c).[j]) in *. set (b := (mvImplaneBR c).[j]) in *.
  assert (P : 0 < b - a) by lra.
  split; [field; lra|]. split; [field; lra|]. split; [field; lra|].
  intros t [Ht0 Ht1].
  replace (-1 * a * (1 / (b - a)) + 1 / (b - a) * t)
    with ((t - a) / (b - a)) by (field; lra).
  split.
  - apply Rmult_le_pos; [lra|]. left. apply Rinv_0_lt_compat. exact P.
  - apply Rmult_le_reg_r with (b - a); [exact P|].
    replace ((t - a) / (b - a) * (b - a)) with (t - a) by (field; lra).
    lra.
Qed.

(** The hypotheses of X11 hold, and so does its conclusion, for the camera
    (0.5, 0.8, 0.5, 0.5, 0) on a 640x480 image. *)
Lemma UFB_linear_projection_fills_unit_square_witness :
  let c := undistorted_camera in
  reachable c
  /\ (mvImplaneBR c).[0] <> (mvImplaneTL c).[0]
  /\ (mvUFBLinearCenter c).[0] + (mvUFBLinearFocal c).[0] * (mvImplaneBR c).[0]
     = 1.
Proof.
  cbv zeta.
  pose proof undistorted_camera_reachable as R.
  destruct undistorted_camera_box_nondegenerate as [N0 _].
  exact (conj R (conj N0
           (proj1 (proj2 (UFB_linear_projection_fills_unit_square
                            undistorted_camera 0%nat R N0))))).
Defined.

(** X12.  On a reachable state [RefreshParams] changes no member of the
    parameter state or of the derived state, and leaves the cache
    [UnProject] of the corner pixel (-0.5, height - 0.5) leaves; a second
    refresh changes nothing but the trace. *)
Theorem refresh_of_constructed_camera (c : ATANCamera) :
  reachable c ->
  let c' := RefreshParams c in
  let corner := (-0.5, (mvImageSize c).[1] - 0.5) in
  parameter_state c' = parameter_state c
  /\ derived_state c' = derived_state c
  /\ last_op c' = last_op (snd (UnProject corner c))
  /\ parameter_state (RefreshParams c') = parameter_state c'
  /\ derived_state (RefreshParams c') = derived_state c'
  /\ last_op (RefreshParams c') = last_op c'.
Proof.
  intros Hc. apply reachable_refreshed in Hc. cbv zeta.
  pose proof (refreshed_RefreshParams c) as Hc'.
  pose proof (RefreshParams_parameter_state c) as P.
  pose proof (refreshed_RefreshParams_derived_state c Hc) as D.
  pose proof (refreshed_RefreshParams_derived_state _ Hc') as D'.
  split; [exact P|]. split; [exact D|].
  split; [apply refreshed_RefreshParams_last_op, Hc|].
  split; [apply RefreshParams_parameter_state|]. split; [exact D'|].
  rewrite (refreshed_RefreshParams_last_op _ Hc').
  destruct (RefreshParams_last_op c) as [L _]. cbv zeta in L.
  etransitivity; [|symmetry; exact L].
  unfold last_refresh_pixel, mvImageSize. rewrite P. reflexivity.
Qed.

(** The hypotheses of X12 hold, and so does its conclusion, for the default
    camera on a 640x480 image. *)
Lemma refresh_of_constructed_camera_witness :
  let c := default_camera in
  reachable c /\ derived_state (RefreshParams c) = derived_state c.
Proof.
  exact (conj default_camera_reachable
           (proj1 (proj2 (refresh_of_constructed_camera _
                            default_camera_reachable)))).
Defined.

(** X13.  Two reachable states with the same parameter state have the same
    derived state, except for [mdOneOver2Tan] (which they share too when
    [w <> 0]), and the four projections return the same points in both:
    what was projected or updated before does not matter. *)
Theorem derived_state_determined_by_parameters (c1 c2 : ATANCamera) :
  reachable c1 -> reachable c2 ->
  parameter_state c1 = parameter_state c2 ->
  derived_state c1
  = ds_set_mdOneOver2Tan (mdOneOver2Tan c1) (derived_state c2)
  /\ (get5 (mpvvCameraParams c1) 4 <> 0 -> derived_state c1 = derived_state c2)
  /\ (forall p, fst (Project p c1) = fst (Project p c2))
  /\ (forall q, fst (UnProject q c1) = fst (UnProject q c2))
  /\ (forall p, fst (UFBProject p c1) = fst (UFBProject p c2))
  /\ (forall q, fst (UFBUnProject q c1) = fst (UFBUnProject q c2)).
Proof.
  intros H1 H2 P. apply reachable_refreshed in H1, H2.
  pose proof (refreshed_derived_of c1 H1) as D1.
  pose proof (refreshed_derived_of c2 H2) as D2.
  destruct (refreshed_members c1 H1) as (_ & _ & _ & W1 & _).
  destruct (refreshed_members c2 H2) as (_ & _ & _ & W2 & _).
  cbv zeta in W1, W2.
  assert (PP : mpvvCameraParams c1 = mpvvCameraParams c2)
    by (unfold mpvvCameraParams; rewrite P; reflexivity).
  split; [|split; [|split; [|split; [|split]]]].
  - assert (O : mdOneOver2Tan c1
                = ds_mdOneOver2Tan
                    (derived_of (parameter_state c1) (mdOneOver2Tan c1))).
    { unfold mdOneOver2Tan at 1. rewrite D1 at 1. reflexivity. }
    set (o1 := mdOneOver2Tan c1) in *. rewrite D1, D2, <- P. clearbody o1.
    unfold derived_of in *. cbv zeta in *. cbn [ds_mdOneOver2Tan] in O.
    destruct (Rneq_dec _ 0) as [N|Z].
    + rewrite O. reflexivity.
    + reflexivity.
  - intros N. rewrite D1, D2, P. unfold derived_of. cbv zeta.
    unfold mpvvCameraParams in N. rewrite P in N.
    destruct (Rneq_dec _ 0) as [_|Z]; [reflexivity|contradiction].
  - intros p. rewrite !Project_refreshed by assumption. rewrite P.
    reflexivity.
  - intros q. rewrite !refreshed_UnProject by assumption. rewrite P.
    reflexivity.
  - intros p. rewrite !UFBProject_value, W1, W2, PP. reflexivity.
  - intros q. rewrite !UFBUnProject_value, W1, W2, PP. reflexivity.
Qed.

(** The hypotheses of X13 hold, and so does its conclusion, for the default
    camera on a 640x480 image and the same camera after an update by the
    zero vector. *)
Lemma derived_state_determined_by_parameters_witness :
  let c1 := default_camera in
  let c2 := UpdateParams (all5 0) default_camera in
  (reachable c1 /\ reachable c2 /\ parameter_state c1 = parameter_state c2)
  /\ forall p, fst (Project p c1) = fst (Project p c2).
Proof.
  cbv zeta.
  pose proof default_camera_reachable as R1.
  pose proof (reachable_step (OpUpdateParams (all5 0)) _ R1) as R2.
  cbn [state_after] in R2.
  assert (P : parameter_state default_camera
              = parameter_state (UpdateParams (all5 0) default_camera)).
  { unfold UpdateParams. cbv zeta. rewrite RefreshParams_parameter_state.
    pose proof default_camera_parameter_state as S.
    cam_red. cam_red in S. rewrite S. unfold vadd5, all5, mvDefaultParams.
    cbn [e0 e1 e2 e3 e4]. f_equal. f_equal; lra. }
  exact (conj (conj R1 (conj R2 P))
           (proj1 (proj2 (proj2 (derived_state_determined_by_parameters
                                   _ _ R1 R2 P))))).
Defined.

(** ** Mutators and construction *)

(** X14.  What the mutators do to the parameter state, in every state:
    [RefreshParams] keeps it; [UpdateParams] adds the update to the
    parameter vector and keeps the image size; [SetImageSize] sets the
    image size and keeps the parameter vector; [DisableRadialDistortion]
    sets the last parameter to 0 and keeps the others and the image size,
    after which [mdW] and the distortion flag are 0, and a second call
    changes no parameter. *)
Theorem mutators_change_only_their_parameter (c : ATANCamera) :
  let P := mpvvCameraParams c in
  let sz := mvImageSize c in
  parameter_state (RefreshParams c) = parameter_state c
  /\ (forall v, mpvvCameraParams (UpdateParams v c) = vadd5 P v
                /\ mvImageSize (UpdateParams v c) = sz)
  /\ (forall v, mpvvCameraParams (SetImageSize v c) = P
                /\ mvImageSize (SetImageSize v c) = v)
  /\ (forall i, (i < NUMTRACKERCAMPARAMETERS - 1)%nat ->
                get5 (mpvvCameraParams (DisableRadialDistortion c)) i
                = get5 P i)
  /\ get5 (mpvvCameraParams (DisableRadialDistortion c))
          (NUMTRACKERCAMPARAMETERS - 1) = 0
  /\ mvImageSize (DisableRadialDistortion c) = sz
  /\ mdW (DisableRadialDistortion c) = 0
  /\ mdDistortionEnabled (DisableRadialDistortion c) = 0
  /\ parameter_state (DisableRadialDistortion (DisableRadialDistortion c))
     = parameter_state (DisableRadialDistortion c).
Proof.
  cbv zeta.
  assert (D : parameter_state (DisableRadialDistortion c)
              = mkParameterState (set5 (mpvvCameraParams c) 4 0)
                  (mvImageSize c)).
  { unfold DisableRadialDistortion. cbv zeta.
    rewrite RefreshParams_parameter_state. reflexivity. }
  split; [apply RefreshParams_parameter_state|].
  split.
  { intros v. unfold UpdateParams, mpvvCameraParams, mvImageSize. cbv zeta.
    rewrite RefreshParams_parameter_state. split; reflexivity. }
  split.
  { intros v. unfold SetImageSize, mpvvCameraParams, mvImageSize. cbv zeta.
    rewrite RefreshParams_parameter_state. split; reflexivity. }
  split.
  { intros i Hi. unfold mpvvCameraParams at 1. rewrite D.
    cbn [ps_mpvvCameraParams]. unfold NUMTRACKERCAMPARAMETERS in Hi.
    do 4 (destruct i as [|i]; [reflexivity|]). lia. }
  split.
  { unfold mpvvCameraParams at 1. rewrite D. reflexivity. }
  split.
  { unfold mvImageSize at 1. rewrite D. reflexivity. }
  assert (W : mdW (DisableRadialDistortion c) = 0).
  { unfold DisableRadialDistortion. cbv zeta. rewrite RefreshParams_mdW.
    reflexivity. }
  split; [exact W|]. split.
  { unfold DisableRadialDistortion. cbv zeta.
    rewrite RefreshParams_mdDistortionEnabled. 
    cam_red. unfold NUMTRACKERCAMPARAMETERS. cbn [Nat.sub set5 get5 e4].
    destruct (Rneq_dec 0 0) as [N|_]; [contradiction|reflexivity]. }
  unfold DisableRadialDistortion at 1. cbv zeta.
  rewrite RefreshParams_parameter_state.
  change (ps_set_mpvvCameraParams
            (set5 (mpvvCameraParams (DisableRadialDistortion c))
               (NUMTRACKERCAMPARAMETERS - 1) 0)
            (parameter_state (DisableRadialDistortion c))
          = parameter_state (DisableRadialDistortion c)).
  unfold mpvvCameraParams at 1. rewrite D.
  destruct (mpvvCameraParams c). reflexivity.
Qed.

(** X15.  On a reachable state with a nonzero image size, [SetImageSize] with
    a nonzero size keeps the parameter vector, sets [mvFocal] and
    [mvCenter] from the new size, and leaves the distortion scalars,
    [mdLargestRadius], [mdMaxR], the bounding box [mvImplaneTL],
    [mvImplaneBR], the linear UFB projection and the results of
    [UFBProject] and [UFBUnProject] as they were. *)
Theorem image_size_rescales_pixels_only (vImageSize : Vec2) (c : ATANCamera) :
  reachable c ->
  (mvImageSize c).[0] <> 0 -> (mvImageSize c).[1] <> 0 ->
  vImageSize.[0] <> 0 -> vImageSize.[1] <> 0 ->
  let c' := SetImageSize vImageSize c in
  let P := mpvvCameraParams c in
  mpvvCameraParams c' = P
  /\ mvImageSize c' = vImageSize
  /\ mvFocal c' = (vImageSize.[0] * get5 P 0, vImageSize.[1] * get5 P 1)
  /\ mvCenter c'
     = (vImageSize.[0] * get5 P 2 - 0.5, vImageSize.[1] * get5 P 3 - 0.5)
  /\ mdW c' = mdW c
  /\ md2Tan c' = md2Tan c
  /\ mdOneOver2Tan c' = mdOneOver2Tan c
  /\ mdWinv c' = mdWinv c
  /\ mdDistortionEnabled c' = mdDistortionEnabled c
  /\ mdLargestRadius c' = mdLargestRadius c
  /\ mdMaxR c' = mdMaxR c
  /\ mvImplaneTL c' = mvImplaneTL c
  /\ mvImplaneBR c' = mvImplaneBR c
  /\ mvUFBLinearInvFocal c' = mvUFBLinearInvFocal c
  /\ mvUFBLinearFocal c' = mvUFBLinearFocal c
  /\ mvUFBLinearCenter c' = mvUFBLinearCenter c
  /\ (forall p, fst (UFBProject p c') = fst (UFBProject p c))
  /\ (forall u, fst (UFBUnProject u c') = fst (UFBUnProject u c)).
Proof.
  intros Hc H0 H1 V0 V1. apply reachable_refreshed in Hc. cbv zeta.
  pose proof (refreshed_derived_of c Hc) as D.
  unfold SetImageSize. cbv zeta.
  set (c0 := set_mvImageSize vImageSize c).
  pose proof (RefreshParams_derived_of c0) as D'.
  pose proof (RefreshParams_parameter_state c0) as S'.
  assert (S0 : parameter_state c0
               = mkParameterState (mpvvCameraParams c) vImageSize)
    by reflexivity.
  rewrite S0 in D', S'.
  change (mdOneOver2Tan c0) with (mdOneOver2Tan c) in D'.
  assert (B : bounding_box
                (image_corners
                   (mkParameterState (mpvvCameraParams c) vImageSize))
              = bounding_box (image_corners (parameter_state c))).
  { rewrite !image_corners_UFB by assumption. reflexivity. }
  assert (DW : mdW (RefreshParams c0) = mdW c).
  { unfold mdW. rewrite D', D. reflexivity. }
  assert (DP : mpvvCameraParams (RefreshParams c0) = mpvvCameraParams c).
  { unfold mpvvCameraParams at 1. rewrite S'. reflexivity. }
  unfold mpvvCameraParams at 1, mvImageSize, mvFocal, mvCenter, mdW, md2Tan,
    mdOneOver2Tan, mdWinv, mdDistortionEnabled, mdLargestRadius, mdMaxR,
    mvImplaneTL, mvImplaneBR, mvUFBLinearInvFocal, mvUFBLinearFocal,
    mvUFBLinearCenter.
  rewrite S', D', D.
  unfold derived_of. cbv zeta. rewrite B.
  cbn [ps_mpvvCameraParams ps_mvImageSize ds_mvFocal ds_mvCenter ds_mdW
       ds_md2Tan ds_mdOneOver2Tan ds_mdWinv ds_mdDistortionEnabled
       ds_mdLargestRadius ds_mdMaxR ds_mvImplaneTL ds_mvImplaneBR
       ds_mvUFBLinearInvFocal ds_mvUFBLinearFocal ds_mvUFBLinearCenter].
  do 16 (split; [reflexivity|]).
  split.
  - intros p. rewrite !UFBProject_value, DW, DP. reflexivity.
  - intros u. rewrite !UFBUnProject_value, DW, DP. reflexivity.
Qed.

(** The hypotheses of X15 hold, and so does its conclusion, for the default
    camera on a 640x480 image resized to 320x240. *)
Lemma image_size_rescales_pixels_only_witness :
  let c := default_camera in
  (reachable c
   /\ (mvImageSize c).[0] <> 0 /\ (mvImageSize c).[1] <> 0
   /\ (320, 240).[0] <> 0 /\ (320, 240).[1] <> 0)
  /\ mdMaxR (SetImageSize (320, 240) c) = mdMaxR c
  /\ mvImplaneTL (SetImageSize (320, 240) c) = mvImplaneTL c
  /\ mvImplaneBR (SetImageSize (320, 240) c) = mvImplaneBR c.
Proof.
  cbv zeta.
  pose proof default_camera_reachable as R.
  assert (S : (mvImageSize default_camera).[0] <> 0
              /\ (mvImageSize default_camera).[1] <> 0).
  { destruct default_camera_parameters as (-> & _).
    cbn [vget fst snd]. split; lra. }
  destruct S as [S0 S1].
  assert (V0 : (320, 240).[0] <> 0) by (cbn [vget fst]; lra).
  assert (V1 : (320, 240).[1] <> 0) by (cbn [vget snd]; lra).
  pose proof (image_size_rescales_pixels_only (320, 240) default_camera
                R S0 S1 V0 V1) as T.
  cbv zeta in T.
  destruct T as (_ & _ & _ & _ & _ & _ & _ & _ & _ & _ & M & TL & BR & _).
  exact (conj (conj R (conj S0 (conj S1 (conj V0 V1))))
           (conj M (conj TL BR))).
Defined.

(** X16.  The constructor never assigns [mbInvalid], and with a stored
    [w = 0] it never assigns [mdOneOver2Tan]: both keep what the object
    held before construction.  Every other member is determined by the
    stored parameters and the image size: two objects that agree on these
    two members before construction agree on the parameter state, the
    derived state and the cache after it. *)
Theorem construction_keeps_uninitialised_members (u1 u2 : ATANCamera)
    (stored : option Vec5) (imgsize : Z * Z) :
  let c1 := ATANCamera_new u1 stored imgsize in
  let c2 := ATANCamera_new u2 stored imgsize in
  let w := get5 (mpvvCameraParams c1) 4 in
  mbInvalid c1 = mbInvalid u1
  /\ (w = 0 -> mdOneOver2Tan c1 = mdOneOver2Tan u1)
  /\ (mbInvalid u1 = mbInvalid u2 ->
      w <> 0 \/ mdOneOver2Tan u1 = mdOneOver2Tan u2 ->
      parameter_state c1 = parameter_state c2
      /\ derived_state c1 = derived_state c2
      /\ last_op c1 = last_op c2).
Proof.
  cbv zeta.
  pose proof (ATANCamera_new_parameter_state u1 stored imgsize) as P1.
  pose proof (ATANCamera_new_parameter_state u2 stored imgsize) as P2.
  set (P := match stored with Some v => v | None => mvDefaultParams end) in *.
  assert (EW : mpvvCameraParams (ATANCamera_new u1 stored imgsize) = P).
  { unfold mpvvCameraParams. rewrite P1. reflexivity. }
  rewrite !EW. clear EW.
  unfold ATANCamera_new in *. cbv zeta in *. fold P in P1, P2 |- *.
  set (a1 := set_mvImageSize _ (set_mvImageSize _ (set_mpvvCameraParams P u1)))
    in *.
  set (a2 := set_mvImageSize _ (set_mvImageSize _ (set_mpvvCameraParams P u2)))
    in *.
  pose proof (RefreshParams_derived_of a1) as D1.
  pose proof (RefreshParams_derived_of a2) as D2.
  rewrite RefreshParams_parameter_state in P1, P2. rewrite P1 in D1.
  rewrite P2 in D2.
  change (mdOneOver2Tan a1) with (mdOneOver2Tan u1) in D1.
  change (mdOneOver2Tan a2) with (mdOneOver2Tan u2) in D2.
  split; [rewrite RefreshParams_mbInvalid; reflexivity|]. split.
  - intros Hw. unfold mdOneOver2Tan at 1. rewrite D1. unfold derived_of.
    cbv zeta. cbn [ds_mdOneOver2Tan ps_mpvvCameraParams]. 
    destruct (Rneq_dec _ 0) as [N|_]; [contradiction|reflexivity].
  - intros B O.
    assert (D : derived_state (RefreshParams a1)
                = derived_state (RefreshParams a2)).
    { rewrite D1, D2. unfold derived_of. cbv zeta.
      cbn [ps_mpvvCameraParams].
      destruct (Rneq_dec _ 0) as [N|Z]; [reflexivity|].
      destruct O as [O|O]; [contradiction|]. rewrite O. reflexivity. }
    split; [rewrite !RefreshParams_parameter_state, P1, P2; reflexivity|].
    split; [exact D|].
    destruct (RefreshParams_last_op a1) as [L1 _].
    destruct (RefreshParams_last_op a2) as [L2 _]. cbv zeta in L1, L2.
    rewrite L1, L2.
    assert (Q : last_refresh_pixel a1 = last_refresh_pixel a2).
    { unfold last_refresh_pixel, mvImageSize. rewrite P1, P2. reflexivity. }
    rewrite Q. apply UnProject_last_op_derived; [exact D|].
    rewrite !RefreshParams_mbInvalid. exact B.
Qed.

(** ** OpenGL frustum *)

(** X17.  For [near <> 0], [far <> near] and a bounding box that is not
    degenerate, the matrix of [MakeUFBLinearFrustumMatrix] sends the
    homogeneous point (x, y, z, 1), [z <> 0], to a point with fourth
    coordinate [z] whose first coordinate over [z] is
    2 (x/z - TL[0]) / (BR[0] - TL[0]) - 1, whose second over [z] is
    1 - 2 (y/z - TL[1]) / (BR[1] - TL[1]), and whose third over [z] is -1
    at [z = near] and 1 at [z = far]. *)
Theorem frustum_matrix_maps_frustum_to_cube (near far x y z : R)
    (c : ATANCamera) :
  near <> 0 -> far <> near ->
  (mvImplaneBR c).[0] <> (mvImplaneTL c).[0] ->
  (mvImplaneBR c).[1] <> (mvImplaneTL c).[1] ->
  z <> 0 ->
  let clip := mat4_apply (fst (MakeUFBLinearFrustumMatrix near far c)) x y z in
  clip 3%nat = z
  /\ clip 0%nat / clip 3%nat
     = 2 * ((x / z - (mvImplaneTL c).[0])
            / ((mvImplaneBR c).[0] - (mvImplaneTL c).[0])) - 1
  /\ clip 1%nat / clip 3%nat
     = 1 - 2 * ((y / z - (mvImplaneTL c).[1])
                / ((mvImplaneBR c).[1] - (mvImplaneTL c).[1]))
  /\ (z = near -> clip 2%nat / clip 3%nat = -1)
  /\ (z = far -> clip 2%nat / clip 3%nat = 1).
Proof.
  intros Hn Hf H0 H1 Hz. cbv zeta.
  rewrite MakeUFBLinearFrustumMatrix_spec. cbv zeta. cbn [fst].
  unfold mat4_apply, mset, mzeros. cbn [Nat.eqb andb].
  set (l := (mvImplaneTL c).[0]) in *. set (r := (mvImplaneBR c).[0]) in *.
  set (t := (mvImplaneTL c).[1]) in *. set (b := (mvImplaneBR c).[1]) in *.
  assert (A0 : r * near - l * near <> 0).
  { replace (r * near - l * near) with ((r - l) * near) by ring.
    apply Rmult_integral_contrapositive_currified; lra. }
  assert (A1 : t * near - b * near <> 0).
  { replace (t * near - b * near) with ((t - b) * near) by ring.
    apply Rmult_integral_contrapositive_currified; lra. }
  assert (A2 : l * near - r * near <> 0) by lra.
  assert (A3 : b * near - t * near <> 0) by lra.
  split; [ring|]. split; [field; repeat split; try assumption; lra|].
  split; [field; repeat split; try assumption; lra|].
  split; intros ->; field; repeat split; try assumption; lra.
Qed.

(** The hypotheses of X17 hold, and so does its conclusion, for the camera
    (0.5, 0.8, 0.5, 0.5, 0) on a 640x480 image, near = 1, far = 2 and the
    point (0, 0, 1). *)
Lemma frustum_matrix_maps_frustum_to_cube_witness :
  let c := undistorted_camera in
  let clip := mat4_apply (fst (MakeUFBLinearFrustumMatrix 1 2 c)) 0 0 1 in
  (1 <> 0 /\ 2 <> 1
   /\ (mvImplaneBR c).[0] <> (mvImplaneTL c).[0]
   /\ (mvImplaneBR c).[1] <> (mvImplaneTL c).[1])
  /\ clip 3%nat = 1
  /\ (1 = 1 -> clip 2%nat / clip 3%nat = -1).
Proof.
  cbv zeta.
  destruct undistorted_camera_box_nondegenerate as [N0 N1].
  assert (A : 1 <> 0) by lra. assert (B : 2 <> 1) by lra.
  pose proof (frustum_matrix_maps_frustum_to_cube 1 2 0 0 1
                undistorted_camera A B N0 N1 A) as T.
  cbv zeta in T.
  exact (conj (conj A (conj B (conj N0 N1)))
           (conj (proj1 T) (proj1 (proj2 (proj2 (proj2 T)))))).
Defined.

(** X18.  [MakeUFBLinearFrustumMatrix] changes nothing but the trace; it
    evaluates no division by zero exactly when [near <> 0], [far <> near]
    and the bounding box is degenerate on neither axis; entry (3, 2) of the
    matrix is 1 and every entry outside (0,0), (1,1), (0,2), (1,2), (2,2),
    (3,2), (2,3) is 0. *)
Theorem frustum_matrix_divisions (near far : R) (c : ATANCamera) :
  let r := MakeUFBLinearFrustumMatrix near far c in
  snd r = set_divisors (divisors (snd r)) c
  /\ (no_division_by_zero c (snd r)
      <-> near <> 0 /\ far <> near
          /\ (mvImplaneBR c).[0] <> (mvImplaneTL c).[0]
          /\ (mvImplaneBR c).[1] <> (mvImplaneTL c).[1])
  /\ fst r 3%nat 2%nat = 1
  /\ forall i j,
       In (i, j) [(0, 0); (1, 1); (0, 2); (1, 2); (2, 2); (3, 2); (2, 3)]%nat
       \/ fst r i j = 0.
Proof.
  cbv zeta. rewrite MakeUFBLinearFrustumMatrix_spec. cbv zeta.
  cbn [fst snd].
  set (l := (mvImplaneTL c).[0]) in *. set (r := (mvImplaneBR c).[0]) in *.
  set (t := (mvImplaneTL c).[1]) in *. set (b := (mvImplaneBR c).[1]) in *.
  split; [reflexivity|]. split; [|split; [reflexivity|]].
  - unfold no_division_by_zero. cam_red. split.
    + intros (ds & E & F).
      change (near - far :: far - near :: b * near - t * near
              :: l * near - r * near :: t * near - b * near
              :: r * near - l * near :: divisors c)
        with ([near - far; far - near; b * near - t * near;
               l * near - r * near; t * near - b * near;
               r * near - l * near] ++ divisors c) in E.
      apply app_inv_tail in E. subst ds.
      inversion_clear F as [|? ? F1 F']. inversion_clear F' as [|? ? F2 F].
      inversion_clear F as [|? ? F3 F']. inversion_clear F' as [|? ? F4 F].
      apply product_difference_nonzero in F3, F4.
      repeat split; try tauto; lra.
    + intros (Hn & Hf & H0 & H1).
      exists [near - far; far - near; b * near - t * near;
              l * near - r * near; t * near - b * near; r * near - l * near].
      split; [reflexivity|].
      repeat constructor; try lra;
        apply product_difference_nonzero; split; auto.
  - intros i j. unfold mset, mzeros.
    do 4 (destruct i as [|i]; [do 4 (destruct j as [|j]; [cbn; tauto|]);
                               cbn; tauto|]).
    right. destruct j as [|[|[|[|j]]]]; reflexivity.
Qed.

(** X19.  On a reachable state, for [near <> 0] and a bounding box that is
    not degenerate: the first two normalized device coordinates the
    frustum matrix gives a point are 2 u - 1 and 1 - 2 v, where (u, v) is
    the linear UFB projection ([mvUFBLinearCenter], [mvUFBLinearFocal]) of
    (x/z, y/z). *)
Theorem frustum_matrix_matches_UFB_linear_projection (near far x y z : R)
    (c : ATANCamera) :
  reachable c ->
  near <> 0 ->
  (mvImplaneBR c).[0] <> (mvImplaneTL c).[0] ->
  (mvImplaneBR c).[1] <> (mvImplaneTL c).[1] ->
  z <> 0 ->
  let clip := mat4_apply (fst (MakeUFBLinearFrustumMatrix near far c)) x y z in
  clip 0%nat / clip 3%nat
  = 2 * ((mvUFBLinearCenter c).[0] + (mvUFBLinearFocal c).[0] * (x / z)) - 1
  /\ clip 1%nat / clip 3%nat
     = 1 - 2 * ((mvUFBLinearCenter c).[1]
                + (mvUFBLinearFocal c).[1] * (y / z)).
Proof.
  intros Hc Hn H0 H1 Hz. apply reachable_refreshed in Hc. cbv zeta.
  destruct (refreshed_UFB_linear c 0 Hc) as (_ & F0 & C0).
  destruct (refreshed_UFB_linear c 1 Hc) as (_ & F1 & C1).
  cbv zeta in F0, C0, F1, C1. rewrite F0, C0, F1, C1.
  rewrite MakeUFBLinearFrustumMatrix_spec. cbv zeta. cbn [fst].
  unfold mat4_apply, mset, mzeros. cbn [Nat.eqb andb].
  set (l := (mvImplaneTL c).[0]) in *. set (r := (mvImplaneBR c).[0]) in *.
  set (t := (mvImplaneTL c).[1]) in *. set (b := (mvImplaneBR c).[1]) in *.
  assert (A0 : r * near - l * near <> 0)
    by (apply product_difference_nonzero; split; assumption).
  assert (A1 : t * near - b * near <> 0)
    by (apply product_difference_nonzero; split; [lra|assumption]).
  assert (A2 : l * near - r * near <> 0) by lra.
  assert (A3 : b * near - t * near <> 0) by lra.
  split; field; repeat split; try assumption; lra.
Qed.

(** The hypotheses of X19 hold, and so does its conclusion, for the camera
    (0.5, 0.8, 0.5, 0.5, 0) on a 640x480 image, near = 1, far = 2 and the
    point (0, 0, 1). *)
Lemma frustum_matrix_matches_UFB_linear_projection_witness :
  let c := undistorted_camera in
  let clip := mat4_apply (fst (MakeUFBLinearFrustumMatrix 1 2 c)) 0 0 1 in
  (reachable c /\ 1 <> 0
   /\ (mvImplaneBR c).[0] <> (mvImplaneTL c).[0]
   /\ (mvImplaneBR c).[1] <> (mvImplaneTL c).[1])
  /\ clip 0%nat / clip 3%nat
     = 2 * ((mvUFBLinearCenter c).[0] + (mvUFBLinearFocal c).[0] * (0 / 1))
       - 1.
Proof.
  cbv zeta.
  pose proof undistorted_camera_reachable as R.
  destruct undistorted_camera_box_nondegenerate as [N0 N1].
  assert (A : 1 <> 0) by lra.
  exact (conj (conj R (conj A (conj N0 N1)))
           (proj1 (frustum_matrix_matches_UFB_linear_projection 1 2 0 0 1
                     undistorted_camera R A N0 N1 A))).
Defined.

(** ** Derivatives *)

(** X20.  In every state [GetProjectionDerivs] evaluates no division by
    zero: below the guard [ru < 0.01] it divides by nothing, and from the
    guard on its four divisors are [ru * ru] and [1 + k k ru ru], which are
    positive. *)
Theorem GetProjectionDerivs_never_divides_by_zero (u : Mat) (c : ATANCamera) :
  let ru := mdLastR c * mdDistortionEnabled c in
  let k := md2Tan c in
  let c' := snd (GetProjectionDerivs u c) in
  no_division_by_zero c c'
  /\ (ru < 0.01 -> divisors c' = divisors c)
  /\ (0.01 <= ru ->
      divisors c'
      = [ru * ru; 1 + k * k * ru * ru; ru * ru; 1 + k * k * ru * ru]
        ++ divisors c).
Proof.
  cbv zeta. unfold GetProjectionDerivs, no_division_by_zero. cbv zeta.
  set (ru := mdLastR c * mdDistortionEnabled c).
  set (k := md2Tan c).
  destruct (Rlt_dec ru 0.01) as [L|L]; cam_red.
  - split; [exists []; split; [reflexivity|constructor]|].
    split; [reflexivity|]. intros G. lra.
  - assert (A : ru * ru <> 0) by nra.
    assert (B : 1 + k * k * ru * ru <> 0).
    { pose proof (Rle_0_sqr (k * ru)) as S. unfold Rsqr in S. nra. }
    split; [|split; [intros G; lra|reflexivity]].
    exists [ru * ru; 1 + k * k * ru * ru; ru * ru; 1 + k * k * ru * ru].
    split; [reflexivity|]. repeat constructor; assumption.
Qed.

(** X21.  On a reachable state, after [Project] of a point [p]: if
    distortion is disabled or the radius of [p] is below 0.01,
    [GetProjectionDerivs] returns the diagonal matrix of the focal lengths
    times the cached factor; if distortion is disabled or the radius is
    below 0.001, the factor is 1 and the diagonal is (fx, fy). *)
Theorem GetProjectionDerivs_near_center (u : Mat) (p : Vec2) (c : ATANCamera) :
  reachable c ->
  let w := get5 (mpvvCameraParams c) 4 in
  let c' := snd (Project p c) in
  let M := fst (GetProjectionDerivs u c') in
  (w = 0 \/ norm p < 0.01 ->
   M 0%nat 0%nat = (mvFocal c).[0] * mdLastFactor c'
   /\ M 0%nat 1%nat = 0
   /\ M 1%nat 0%nat = 0
   /\ M 1%nat 1%nat = (mvFocal c).[1] * mdLastFactor c')
  /\ (w = 0 \/ norm p < 0.001 ->
      mdLastFactor c' = 1
      /\ M 0%nat 0%nat = (mvFocal c).[0]
      /\ M 1%nat 1%nat = (mvFocal c).[1]).
Proof.
  intros Hc. apply reachable_refreshed in Hc. cbv zeta.
  destruct (refreshed_members c Hc) as (_ & _ & _ & W & _ & _ & EN & _).
  cbv zeta in W, EN.
  rewrite GetProjectionDerivs_value. cbv zeta.
  destruct (Project_cache p c) as (LC & LR & LF & _).
  destruct (Project_derived_members p c) as (DF & DK & DW & DE & _).
  cbv zeta in LC, LR, LF, DF, DK, DW, DE.
  rewrite LC, LR, LF, DF, DK, DW, DE.
  unfold mset. cbn [Nat.eqb andb].
  rewrite EN, W.
  set (w := get5 (mpvvCameraParams c) 4) in *.
  assert (S : w = 0 \/ norm p < 0.01 ->
              norm p * (if Rneq_dec w 0 then 1 else 0) < 0.01).
  { intros [Z|L]; destruct (Rneq_dec w 0) as [N|E]; lra. }
  assert (F : w = 0 \/ norm p < 0.001 -> factor_of w (norm p) = 1).
  { intros [Z|L]; unfold factor_of; destruct (Req_dec_T w 0) as [E|N];
      try reflexivity; try lra.
    destruct (Rlt_dec (norm p) 0.001); [reflexivity|lra]. }
  split.
  - intros H. destruct (Rlt_dec _ 0.01) as [_|N]; [|specialize (S H); lra].
    repeat split; ring.
  - intros H. rewrite (F H).
    destruct (Rlt_dec _ 0.01) as [_|N].
    + repeat split; ring.
    + exfalso. apply N, S. destruct H as [Z|L]; [left; exact Z|right; lra].
Qed.

(** The hypotheses of X21 hold, and so does its conclusion, for the default
    camera on a 640x480 image and the origin. *)
Lemma GetProjectionDerivs_near_center_witness :
  let c := default_camera in
  let c' := snd (Project (0, 0) c) in
  (reachable c /\ norm (0, 0) < 0.001)
  /\ fst (GetProjectionDerivs (fun _ _ => 0) c') 0%nat 0%nat
     = (mvFocal c).[0]
  /\ fst (GetProjectionDerivs (fun _ _ => 0) c') 1%nat 1%nat
     = (mvFocal c).[1].
Proof.
  cbv zeta.
  pose proof default_camera_reachable as R.
  assert (N : norm (0, 0) < 0.001) by (rewrite norm_origin; lra).
  exact (conj (conj R N)
           (proj2 (proj2 (GetProjectionDerivs_near_center (fun _ _ => 0)
                            (0, 0) default_camera R) (or_intror N)))).
Defined.

(** X22.  On a reachable state, when distortion is disabled or the radius of
    (x, y) is at least 0.01, the matrix [GetProjectionDerivs] returns after
    [Project] of (x, y) is the Jacobian of [Project] at (x, y): entry
    (i, j) is the derivative of pixel coordinate [i] with respect to
    normalized coordinate [j]. *)
Theorem GetProjectionDerivs_is_the_Jacobian_of_Project (u : Mat) (x y : R)
    (c : ATANCamera) :
  reachable c ->
  get5 (mpvvCameraParams c) 4 = 0 \/ 0.01 <= norm (x, y) ->
  let M := fst (GetProjectionDerivs u (snd (Project (x, y) c))) in
  derivable_pt_lim (fun t => (fst (Project (t, y) c)).[0]) x (M 0%nat 0%nat)
  /\ derivable_pt_lim (fun t => (fst (Project (x, t) c)).[0]) y
       (M 0%nat 1%nat)
  /\ derivable_pt_lim (fun t => (fst (Project (t, y) c)).[1]) x
       (M 1%nat 0%nat)
  /\ derivable_pt_lim (fun t => (fst (Project (x, t) c)).[1]) y
       (M 1%nat 1%nat).
Proof.
  intros Hc Hd. apply reachable_refreshed in Hc. cbv zeta.
  destruct (refreshed_members c Hc) as (_ & _ & _ & W & K & WI & EN & _).
  cbv zeta in W, K, WI, EN.
  rewrite GetProjectionDerivs_value. cbv zeta.
  destruct (Project_cache (x, y) c) as (LC & LR & LF & _).
  destruct (Project_derived_members (x, y) c) as (DF & DK & DW & DE & _).
  cbv zeta in LC, LR, LF, DF, DK, DW, DE.
  rewrite LC, LR, LF, DF, DK, DW, DE, K, WI, EN, W.
  assert (V : forall p, fst (Project p c)
                        = pixel_of (mvCenter c) (mvFocal c)
                            (vscale
                               (factor_of (get5 (mpvvCameraParams c) 4)
                                  (norm p)) p)).
  { intros p. rewrite Project_value, W. reflexivity. }
  set (w := get5 (mpvvCameraParams c) 4) in *.
  unfold mset. cbn [Nat.eqb andb vget fst snd].
  destruct (mvCenter c) as [cx cy]. destruct (mvFocal c) as [fx fy].
  cbn [fst snd].
  destruct (Rneq_dec w 0) as [Hw|Z].
  - (* distortion enabled: the radius is at least 0.01 *)
    destruct Hd as [Z|Hr]; [contradiction|].
    rewrite Rmult_1_r.
    destruct (Rlt_dec (norm (x, y)) 0.01) as [L|_]; [lra|].
    assert (Hr' : 0.01 <= norm (y, x)) by (rewrite norm_swap; exact Hr).
    split; [|split; [|split]].
    + apply derivable_pt_lim_ext
        with (f := fun t =>
                     cx + fx * (factor_of w (sqrt (t * t + y * y)) * t)).
      * intros t. rewrite V. reflexivity.
      * apply derivable_pt_lim_pixel_same; assumption.
    + rewrite (norm_swap x y).
      apply derivable_pt_lim_ext
        with (f := fun t =>
                     cx + fx * (factor_of w (sqrt (t * t + x * x)) * x)).
      * intros t. rewrite V, (norm_swap x t). reflexivity.
      * apply derivable_pt_lim_pixel_other; assumption.
    + apply derivable_pt_lim_ext
        with (f := fun t =>
                     cy + fy * (factor_of w (sqrt (t * t + y * y)) * y)).
      * intros t. rewrite V. reflexivity.
      * apply derivable_pt_lim_pixel_other; assumption.
    + rewrite (norm_swap x y).
      apply derivable_pt_lim_ext
        with (f := fun t =>
                     cy + fy * (factor_of w (sqrt (t * t + x * x)) * t)).
      * intros t. rewrite V, (norm_swap x t). reflexivity.
      * apply derivable_pt_lim_pixel_same; assumption.
  - (* distortion disabled: the pinhole projection *)
    rewrite Z in *. rewrite factor_of_0.
    destruct (Rlt_dec (norm (x, y) * 0) 0.01) as [_|N];
      [|exfalso; apply N; lra].
    split; [|split; [|split]].
    + apply derivable_pt_lim_ext with (f := fun t => cx + fx * (1 * t)).
      * intros t. rewrite V, factor_of_0. reflexivity.
      * apply derivable_pt_lim_pinhole_same.
    + apply derivable_pt_lim_ext with (f := fun t => cx + fx * (1 * x)).
      * intros t. rewrite V, factor_of_0. reflexivity.
      * apply derivable_pt_lim_pinhole_other.
    + apply derivable_pt_lim_ext with (f := fun t => cy + fy * (1 * y)).
      * intros t. rewrite V, factor_of_0. reflexivity.
      * apply derivable_pt_lim_pinhole_other.
    + apply derivable_pt_lim_ext with (f := fun t => cy + fy * (1 * t)).
      * intros t. rewrite V, factor_of_0. reflexivity.
      * apply derivable_pt_lim_pinhole_same.
Qed.

(** The hypotheses of X22 hold, and so does its conclusion, for the default
    camera on a 640x480 image and the point (1, 0). *)
Lemma GetProjectionDerivs_is_the_Jacobian_of_Project_witness :
  let c := default_camera in
  let M := fst (GetProjectionDerivs (fun _ _ => 0) (snd (Project (1, 0) c))) in
  (reachable c /\ 0.01 <= norm (1, 0))
  /\ derivable_pt_lim (fun t => (fst (Project (t, 0) c)).[0]) 1
       (M 0%nat 0%nat).
Proof.
  cbv zeta.
  pose proof default_camera_reachable as R.
  assert (N : 0.01 <= norm (1, 0)) by (rewrite norm_unit_x; lra).
  exact (conj (conj R N)
           (proj1 (GetProjectionDerivs_is_the_Jacobian_of_Project
                     (fun _ _ => 0) 1 0 default_camera R (or_intror N)))).
Defined.

(** X23.  [GetProjectionDerivs] does not read the cached pixel [mvLastIm]:
    after [UFBProject] of a point it returns the matrix it returns after
    [Project] of that point, in pixel units. *)
Theorem GetProjectionDerivs_after_UFBProject (u : Mat) (p : Vec2)
    (c : ATANCamera) :
  fst (GetProjectionDerivs u (snd (UFBProject p c)))
  = fst (GetProjectionDerivs u (snd (Project p c)))
  /\ forall v2Im,
       fst (GetProjectionDerivs u (set_mvLastIm v2Im c))
       = fst (GetProjectionDerivs u c).
Proof.
  split.
  - destruct (UFBProject_cache p c) as (A1 & A2 & A3 & _).
    destruct (Project_cache p c) as (B1 & B2 & B3 & _).
    cbv zeta in *.
    destruct (derived_members_of_state _ _ (UFBProject_derived_state p c))
      as (F & K & WI & EN & _).
    destruct (derived_members_of_state _ _ (Project_derived_state p c))
      as (F' & K' & WI' & EN' & _).
    apply GetProjectionDerivs_reads; congruence.
  - intros v2Im. apply GetProjectionDerivs_reads; reflexivity.
Qed.

(** X24.  On a reachable state with a distortion angle [w] in [0, pi/2], for
    a pixel whose distorted radius [rd] is below 0.001, or above 0.01 with
    [rd * w < pi/2]: [GetProjectionDerivs] right after [UnProject] of the
    pixel returns the matrix it returns after [Project] of the point
    [UnProject] returned. *)
Theorem GetProjectionDerivs_after_UnProject (u : Mat) (q : Vec2)
    (c : ATANCamera) :
  reachable c ->
  0 <= get5 (mpvvCameraParams c) 4 <= PI / 2 ->
  let c1 := snd (UnProject q c) in
  let rd := mdLastDistR c1 in
  rd < 0.001 \/ (0.01 < rd /\ rd * get5 (mpvvCameraParams c) 4 < PI / 2) ->
  fst (GetProjectionDerivs u c1)
  = fst (GetProjectionDerivs u (snd (Project (fst (UnProject q c)) c1))).
Proof.
  intros Hc Hw. apply reachable_refreshed in Hc. cbv zeta.
  destruct (refreshed_members c Hc) as (_ & _ & _ & W & _ & _ & EN & _).
  cbv zeta in W, EN.
  destruct (UnProject_cache q c) as (_ & _ & LD & LR & LF & LC).
  cbv zeta in LD, LR, LF, LC.
  set (c1 := snd (UnProject q c)) in *.
  set (p := fst (UnProject q c)) in *.
  destruct (Project_cache p c1) as (PC & PR & PF & _).
  cbv zeta in PC, PR, PF.
  destruct (derived_members_of_state _ _ (Project_derived_state p c1))
    as (F & K & WI & E2 & _).
  destruct (derived_members_of_state _ _ (UnProject_derived_state q c))
    as (_ & _ & _ & E1 & W1 & _).
  fold c1 in E1, W1.
  rewrite W1, W in PF. rewrite W in LR, LF.
  assert (Ep : p = vscale (recovery_factor (get5 (mpvvCameraParams c) 4)
                             (norm (distorted_of (mvCenter c) (mvInvFocal c) q)))
                     (distorted_of (mvCenter c) (mvInvFocal c) q)).
  { unfold p. rewrite UnProject_value, W. reflexivity. }
  rewrite LD.
  set (w := get5 (mpvvCameraParams c) 4) in *.
  set (dc := distorted_of (mvCenter c) (mvInvFocal c) q) in *.
  pose proof (norm_nonneg dc) as N0.
  intros [S|[G A]].
  - (* below the guards: both matrices are the focal lengths times 1 *)
    assert (R1 : recovery_factor w (norm dc) = 1).
    { unfold recovery_factor.
      destruct (Rgt_dec (norm dc) 0.01); [lra|reflexivity]. }
    rewrite R1 in Ep, LF. rewrite vscale_1 in Ep.
    assert (F1 : factor_of w (norm p) = 1).
    { rewrite Ep. unfold factor_of.
      destruct (Req_dec_T w 0); [reflexivity|].
      destruct (Rlt_dec (norm dc) 0.001); [reflexivity|lra]. }
    rewrite F1 in PF.
    rewrite !GetProjectionDerivs_value. cbv zeta.
    rewrite F, K, WI, E2, PC, PR, PF, LC, LR, LF, E1, EN.
    assert (B1 : undist_of w (norm dc) * (if Rneq_dec w 0 then 1 else 0)
                 < 0.01).
    { pose proof (undist_of_small w (norm dc) Hw (conj N0 S)).
      destruct (Rneq_dec w 0); lra. }
    assert (B2 : norm p * (if Rneq_dec w 0 then 1 else 0) < 0.01).
    { rewrite Ep. destruct (Rneq_dec w 0); lra. }
    destruct (Rlt_dec _ 0.01) as [_|N]; [|contradiction].
    destruct (Rlt_dec _ 0.01) as [_|N]; [|contradiction].
    rewrite Rdiv_1_r. reflexivity.
  - (* above the guard: the caches agree *)
    destruct (undistorted_radius_and_factor w (norm dc) Hw G A) as [RU FU].
    cbv zeta in RU, FU.
    assert (R1 : recovery_factor w (norm dc)
                 = undist_of w (norm dc) / norm dc).
    { unfold recovery_factor.
      destruct (Rgt_dec (norm dc) 0.01); [reflexivity|lra]. }
    assert (NP : norm p = undist_of w (norm dc)).
    { rewrite Ep, R1, norm_vscale.
      - field. lra.
      - apply Rmult_le_pos; [lra|]. left. apply Rinv_0_lt_compat. lra. }
    apply GetProjectionDerivs_reads; congruence.
Qed.

(** The hypotheses of X24 hold, and so does its conclusion, for the default
    camera on a 640x480 image and its principal point. *)
Lemma GetProjectionDerivs_after_UnProject_witness :
  let c := default_camera in
  let q := mvCenter c in
  (reachable c
   /\ 0 <= get5 (mpvvCameraParams c) 4 <= PI / 2
   /\ mdLastDistR (snd (UnProject q c)) < 0.001)
  /\ fst (GetProjectionDerivs (fun _ _ => 0) (snd (UnProject q c)))
     = fst (GetProjectionDerivs (fun _ _ => 0)
              (snd (Project (fst (UnProject q c)) (snd (UnProject q c))))).
Proof.
  cbv zeta.
  pose proof default_camera_reachable as R.
  destruct default_camera_distortion_angle as [_ A].
  assert (S : mdLastDistR (snd (UnProject (mvCenter default_camera)
                                  default_camera)) < 0.001)
    by (rewrite UnProject_principal_point_radius; lra).
  exact (conj (conj R (conj A S))
           (GetProjectionDerivs_after_UnProject (fun _ _ => 0)
              (mvCenter default_camera) default_camera R A (or_introl S))).
Defined.

(** X25.  On a reachable state, the first four columns of the matrix of
    [GetCameraParameterDerivs] are (W dx, 0), (0, H dy), (W, 0) and (0, H),
    where (W, H) is the image size and (dx, dy) the distorted point of the
    cached normalized point: the projection is affine in the first four
    parameters, so the finite differences are the derivatives. *)
Theorem parameter_derivatives_of_focal_and_center (u : Mat) (c : ATANCamera) :
  reachable c ->
  let W := (mvImageSize c).[0] in
  let H := (mvImageSize c).[1] in
  let d := mvLastDistCam (snd (Project (mvLastCam c) c)) in
  let J := fst (GetCameraParameterDerivs u c) in
  J 0%nat 0%nat = W * d.[0] /\ J 1%nat 0%nat = 0
  /\ J 0%nat 1%nat = 0 /\ J 1%nat 1%nat = H * d.[1]
  /\ J 0%nat 2%nat = W /\ J 1%nat 2%nat = 0
  /\ J 0%nat 3%nat = 0 /\ J 1%nat 3%nat = H.
Proof.
  intros Hc. apply reachable_refreshed in Hc. cbv zeta.
  destruct (GetCameraParameterDerivs_spec u c) as (_ & A & _).
  cbv zeta in A.
  assert (L : forall i, (i < 4)%nat -> (i < NUMTRACKERCAMPARAMETERS - 1)%nat)
    by (unfold NUMTRACKERCAMPARAMETERS; intros; lia).
  destruct (A 0%nat (L 0%nat ltac:(lia))) as [A00 A10].
  destruct (A 1%nat (L 1%nat ltac:(lia))) as [A01 A11].
  destruct (A 2%nat (L 2%nat ltac:(lia))) as [A02 A12].
  destruct (A 3%nat (L 3%nat ltac:(lia))) as [A03 A13].
  rewrite A00, A10, A01, A11, A02, A12, A03, A13.
  destruct (Project_cache (mvLastCam c) c) as (_ & _ & _ & _ & LD & _).
  cbv zeta in LD. rewrite LD.
  destruct (refreshed_members c Hc) as (_ & _ & _ & MW & _). cbv zeta in MW.
  rewrite MW.
  rewrite (Project_refreshed _ c Hc).
  clear A A00 A10 A01 A11 A02 A12 A03 A13 L LD MW Hc.
  unfold finite_difference, project_with, perturbed, pixel_of, center_of,
    focal_of, mvImageSize, mpvvCameraParams.
  cbv zeta.
  destruct (parameter_state c) as [[p0 p1 p2 p3 p4] [W H]].
  cbn [ps_set_mpvvCameraParams ps_mpvvCameraParams ps_mvImageSize set5 get5
       e0 e1 e2 e3 e4 vsub vget fst snd].
  set (f := factor_of p4 (norm (mvLastCam c))).
  unfold vscale. cbn [vget fst snd].
  repeat split; field; lra.
Qed.

(** The hypotheses of X25 hold, and so does its conclusion, for the default
    camera on a 640x480 image. *)
Lemma parameter_derivatives_of_focal_and_center_witness :
  let c := default_camera in
  let J := fst (GetCameraParameterDerivs (fun _ _ => 0) c) in
  reachable c
  /\ J 0%nat 2%nat = (mvImageSize c).[0]
  /\ J 1%nat 2%nat = 0.
Proof.
  cbv zeta.
  pose proof default_camera_reachable as R.
  pose proof (parameter_derivatives_of_focal_and_center (fun _ _ => 0)
                default_camera R) as T.
  cbv zeta in T. destruct T as (_ & _ & _ & _ & A & B & _).
  exact (conj R (conj A B)).
Defined.
